(** * The plan execution engine of regex-pattern-app, embedded in Rocq

    The development follows [backend/api/utils]: [plan_v2.py] (the plan,
    its validator and the rule-based planner), [date_normalizer.py] and
    [regex_executor.py] (the row-filter interpreter and [execute_plan]);
    and, of [backend/api/views.py], the JSON sanitizer.

    Conventions of the embedding.
    - Python text is a [string] of 8-bit characters.  Word characters,
      white space, digits and case conversion are the ASCII ones; bytes
      above 127 are opaque characters.
    - A [DataFrame] is the frame [pd.read_csv] / [pd.read_excel] hands to
      the engine: named columns of equal length over the default
      [RangeIndex], so the label of a row is its position.
    - The [re] module is modelled by a parser and a backtracking matcher
      for the part of the syntax the program uses; [compile] answers
      [None] where [re.compile] raises [re.error] (and for syntax outside
      that part).
    - [df.query], floating point numbers and the third-party date parsers
      are parameters of the development. *)

From Stdlib Require Import ZArith QArith List String Ascii Bool Arith Lia.
Import ListNotations.

Local Open Scope list_scope.
Local Open Scope string_scope.
Local Open Scope nat_scope.
Local Open Scope bool_scope.

(* ================================================================== *)
(** * Python values shared by the modules *)
(* ================================================================== *)

(** Exceptions that the modelled code can raise. *)
Inductive exn : Type :=
| ReError       (* re.error *)
| KeyError
| NameError
| ValueError
| OverflowError
| ParserError.

(** A computation that returns or raises. *)
Inductive result (A : Type) : Type :=
| Ok (a : A)
| Raise (e : exn).
Arguments Ok {A} a.
Arguments Raise {A} e.

Definition bind {A B : Type} (c : result A) (f : A -> result B) : result B :=
  match c with
  | Ok a => f a
  | Raise e => Raise e
  end.

Notation "x <- c ;; k" := (bind c (fun x => k))
  (at level 61, c at next level, right associativity).

Definition is_ok {A : Type} (c : result A) : bool :=
  match c with Ok _ => true | Raise _ => false end.

(** [try: c except Exception: h]. *)
Definition try_except {A : Type} (c : result A) (h : result A) : result A :=
  match c with
  | Ok a => Ok a
  | Raise _ => h
  end.

Fixpoint mapM {A B : Type} (f : A -> result B) (l : list A) : result (list B) :=
  match l with
  | [] => Ok []
  | x :: tl => y <- f x ;; ys <- mapM f tl ;; Ok (y :: ys)
  end.

(* ================================================================== *)
(** * Python strings *)
(* ================================================================== *)

Module PyStr.

Definition dquote : ascii := ascii_of_nat 34.
Definition newline : ascii := ascii_of_nat 10.

(** The double quote as a one-character string. *)
Definition dq : string := String dquote EmptyString.

Definition code (c : ascii) : nat := nat_of_ascii c.

Definition in_range (lo hi c : ascii) : bool :=
  (code lo <=? code c) && (code c <=? code hi).

Definition is_digit (c : ascii) : bool := in_range "0" "9" c.
Definition is_upper (c : ascii) : bool := in_range "A" "Z" c.
Definition is_lower (c : ascii) : bool := in_range "a" "z" c.
Definition is_alpha (c : ascii) : bool := is_upper c || is_lower c.

(** [\w] *)
Definition is_word (c : ascii) : bool :=
  is_alpha c || is_digit c || Ascii.eqb c "_".

(** [str.isspace] on one character, also [\s]: TAB..CR, FS..US, SPACE. *)
Definition is_space (c : ascii) : bool :=
  ((9 <=? code c) && (code c <=? 13)) ||
  ((28 <=? code c) && (code c <=? 32)).

Definition lower_char (c : ascii) : ascii :=
  if is_upper c then ascii_of_nat (code c + 32) else c.

Definition upper_char (c : ascii) : ascii :=
  if is_lower c then ascii_of_nat (code c - 32) else c.

Definition chars (s : string) : list ascii := list_ascii_of_string s.
Definition str (l : list ascii) : string := string_of_list_ascii l.

Definition lower (s : string) : string := str (map lower_char (chars s)).

(** [str.casefold] *)
Definition casefold (s : string) : string := lower s.

Fixpoint lstrip_chars (l : list ascii) : list ascii :=
  match l with
  | c :: tl => if is_space c then lstrip_chars tl else l
  | [] => []
  end.

Definition strip_chars (l : list ascii) : list ascii :=
  rev (lstrip_chars (rev (lstrip_chars l))).

(** [str.strip()] *)
Definition strip (s : string) : string := str (strip_chars (chars s)).

Definition is_empty (s : string) : bool :=
  match s with EmptyString => true | _ => false end.

(** [a or b] on strings. *)
Definition or_else (a b : string) : string := if is_empty a then b else a.

Fixpoint starts_with (p l : list ascii) : bool :=
  match p, l with
  | [], _ => true
  | x :: p', y :: l' => Ascii.eqb x y && starts_with p' l'
  | _ :: _, [] => false
  end.

Definition startswith (s p : string) : bool := starts_with (chars p) (chars s).

Definition endswith (s p : string) : bool :=
  starts_with (rev (chars p)) (rev (chars s)).

(** [ch in text] for a one-character [ch]. *)
Definition char_in (c : ascii) (text : string) : bool :=
  existsb (Ascii.eqb c) (chars text).

Definition mem (s : string) (l : list string) : bool :=
  existsb (String.eqb s) l.

(** [str.replace(old, new)] for a non-empty [old]. *)
Fixpoint replace_chars (fuel : nat) (old new l : list ascii) : list ascii :=
  match fuel with
  | 0 => l
  | S f =>
      match l with
      | [] => []
      | c :: tl =>
          if starts_with old l
          then (new ++ replace_chars f old new (skipn (List.length old) l))%list
          else c :: replace_chars f old new tl
      end
  end.

Definition replace (s old new : string) : string :=
  match old with
  | EmptyString => s
  | _ => str (replace_chars (S (String.length s)) (chars old) (chars new) (chars s))
  end.

(** Decimal digits of a natural number, [str(n)]. *)
Fixpoint digits_of (fuel n : nat) (acc : list ascii) : list ascii :=
  match fuel with
  | 0 => acc
  | S f =>
      let d := ascii_of_nat (48 + n mod 10) in
      if n <? 10 then d :: acc else digits_of f (n / 10) (d :: acc)
  end.

Definition str_of_nat (n : nat) : string := str (digits_of (S n) n []).

Definition str_of_Z (z : Z) : string :=
  if (z <? 0)%Z then String "-" (str_of_nat (Z.to_nat (- z)))
  else str_of_nat (Z.to_nat z).

(** [int(s)] for a string of ASCII digits. *)
Definition int_of_digits (l : list ascii) : nat :=
  fold_left (fun acc c => 10 * acc + (code c - 48)) l 0.

Definition concat (l : list string) : string :=
  fold_right String.append EmptyString l.

(** [sep.join(l)] *)
Fixpoint join (sep : string) (l : list string) : string :=
  match l with
  | [] => EmptyString
  | [x] => x
  | x :: tl => x ++ sep ++ join sep tl
  end.

(** [sub in s] on strings. *)
Fixpoint contains_chars (l sub : list ascii) : bool :=
  starts_with sub l ||
  match l with
  | [] => false
  | _ :: tl => contains_chars tl sub
  end.

Definition contains (s sub : string) : bool := contains_chars (chars s) (chars sub).

End PyStr.

(* ================================================================== *)
(** * The [re] module *)
(* ================================================================== *)

Module Re.
Import PyStr.

(** ** Flags, with the values of the [re] module *)

Definition IGNORECASE : Z := 2.
Definition MULTILINE : Z := 8.
Definition DOTALL : Z := 16.
Definition VERBOSE : Z := 64.

(** ** Parsed patterns *)

Inductive categ : Type := Digit | Word | Space.

(** One item of a character set. *)
Inductive citem : Type :=
| CChar (c : ascii)
| CRange (lo hi : ascii)
| CCat (neg : bool) (k : categ).

Inductive at_code : Type :=
| Bol            (* ^ *)
| Eol            (* $ *)
| Boundary       (* \b *)
| NonBoundary    (* \B *)
| BeginString    (* \A *)
| EndString.     (* \Z *)

Inductive node : Type :=
| NEmpty
| NLit (c : ascii)
| NAny
| NIn (neg : bool) (items : list citem)
| NCat (a b : node)
| NAlt (a b : node)
| NRep (mn : nat) (mx : option nat) (greedy : bool) (a : node)
| NGroup (i : nat) (a : node)
| NNonCap (a : node)
| NRef (i : nat)
| NAt (w : at_code)
| NLook (ahead neg : bool) (a : node).

(** ** The matcher *)

Record mflags : Type := MFlags { f_i : bool; f_m : bool; f_s : bool }.

Definition span : Type := (nat * nat)%type.

(** A position in the subject: the characters before it (nearest first),
    the characters after it, and the groups closed so far. *)
Record mstate : Type := MState {
  before : list ascii;
  rest : list ascii;
  caps : list (nat * span)
}.

Definition pos (s : mstate) : nat := List.length (before s).

Definition subject (s : mstate) : list ascii := rev_append (before s) (rest s).

Fixpoint lookup_cap (i : nat) (l : list (nat * span)) : option span :=
  match l with
  | [] => None
  | (j, sp) :: tl => if i =? j then Some sp else lookup_cap i tl
  end.

Definition slice (l : list ascii) (sp : span) : list ascii :=
  firstn (snd sp - fst sp) (skipn (fst sp) l).

Definition in_categ (k : categ) (c : ascii) : bool :=
  match k with
  | Digit => is_digit c
  | Word => is_word c
  | Space => is_space c
  end.

Definition char_eq (ic : bool) (x c : ascii) : bool :=
  if ic then Ascii.eqb (lower_char x) (lower_char c) else Ascii.eqb x c.

Definition item_matches (ic : bool) (it : citem) (c : ascii) : bool :=
  match it with
  | CChar x => char_eq ic x c
  | CRange lo hi =>
      in_range lo hi c ||
      (ic && (in_range lo hi (lower_char c) || in_range lo hi (upper_char c)))
  | CCat neg k => xorb neg (in_categ k c)
  end.

Definition set_matches (ic neg : bool) (items : list citem) (c : ascii) : bool :=
  xorb neg (existsb (fun it => item_matches ic it c) items).

Definition advance (s : mstate) (c : ascii) (tl : list ascii) : mstate :=
  MState (c :: before s) tl (caps s).

Definition word_before (s : mstate) : bool :=
  match before s with c :: _ => is_word c | [] => false end.

Definition word_after (s : mstate) : bool :=
  match rest s with c :: _ => is_word c | [] => false end.

Definition at_matches (fl : mflags) (w : at_code) (s : mstate) : bool :=
  match w with
  | Bol =>
      match before s with
      | [] => true
      | c :: _ => f_m fl && Ascii.eqb c newline
      end
  | Eol =>
      match rest s with
      | [] => true
      | c :: tl =>
          Ascii.eqb c newline &&
          (f_m fl || match tl with [] => true | _ => false end)
      end
  | Boundary =>
      match before s, rest s with
      | [], [] => false
      | _, _ => xorb (word_before s) (word_after s)
      end
  | NonBoundary =>
      match before s, rest s with
      | [], [] => false
      | _, _ => negb (xorb (word_before s) (word_after s))
      end
  | BeginString => match before s with [] => true | _ => false end
  | EndString => match rest s with [] => true | _ => false end
  end.

(** The width of a pattern when it is fixed (for look-behind). *)
Fixpoint width (r : node) : option nat :=
  match r with
  | NEmpty => Some 0
  | NLit _ | NAny | NIn _ _ => Some 1
  | NCat a b =>
      match width a, width b with
      | Some x, Some y => Some (x + y)
      | _, _ => None
      end
  | NAlt a b =>
      match width a, width b with
      | Some x, Some y => if x =? y then Some x else None
      | _, _ => None
      end
  | NRep mn (Some mx) _ a =>
      match width a with
      | Some x => if mn =? mx then Some (mn * x) else None
      | None => None
      end
  | NRep _ None _ _ => None
  | NGroup _ a | NNonCap a => width a
  | NRef _ => None
  | NAt _ | NLook _ _ _ => Some 0
  end.

(** Match the characters [t] at the position, as a back-reference does. *)
Fixpoint match_text (ic : bool) (t : list ascii) (s : mstate) : option mstate :=
  match t with
  | [] => Some s
  | x :: t' =>
      match rest s with
      | c :: tl => if char_eq ic x c then match_text ic t' (advance s c tl) else None
      | [] => None
      end
  end.

(** Step [w] characters back. *)
Fixpoint step_back (w : nat) (s : mstate) : option mstate :=
  match w with
  | 0 => Some s
  | S w' =>
      match before s with
      | c :: b => step_back w' (MState b (c :: rest s) (caps s))
      | [] => None
      end
  end.

Definition or_else_opt {A : Type} (a b : option A) : option A :=
  match a with Some _ => a | None => b end.

(** The backtracking matcher, in continuation-passing style: [m fl r s k]
    matches [r] at [s] and hands every way of doing so, in the order of
    preference of [re], to [k], until [k] accepts one.  A repetition
    iterates no further once an iteration beyond the minimum has consumed
    nothing. *)
Fixpoint m (fl : mflags) (r : node) (s : mstate)
    (k : mstate -> option mstate) {struct r} : option mstate :=
  match r with
  | NEmpty => k s
  | NLit x =>
      match rest s with
      | c :: tl => if char_eq (f_i fl) x c then k (advance s c tl) else None
      | [] => None
      end
  | NAny =>
      match rest s with
      | c :: tl =>
          if f_s fl || negb (Ascii.eqb c newline) then k (advance s c tl) else None
      | [] => None
      end
  | NIn neg items =>
      match rest s with
      | c :: tl =>
          if set_matches (f_i fl) neg items c then k (advance s c tl) else None
      | [] => None
      end
  | NCat a b => m fl a s (fun s1 => m fl b s1 k)
  | NAlt a b => or_else_opt (m fl a s k) (m fl b s k)
  | NRep mn mx greedy a =>
      let bound :=
        match mx with
        | Some x => x
        | None => mn + List.length (rest s)
        end in
      (fix loop (n cnt : nat) (s0 : mstate) {struct n} : option mstate :=
         let stop := if mn <=? cnt then k s0 else None in
         match n with
         | 0 => stop
         | S n' =>
             let more :=
               m fl a s0 (fun s1 =>
                 if (cnt <? mn) || (List.length (rest s1) <? List.length (rest s0))
                 then loop n' (S cnt) s1
                 else k s1) in
             if greedy then or_else_opt more stop else or_else_opt stop more
         end) bound 0 s
  | NGroup i a =>
      m fl a s (fun s1 =>
        k (MState (before s1) (rest s1) ((i, (pos s, pos s1)) :: caps s1)))
  | NNonCap a => m fl a s k
  | NRef i =>
      match lookup_cap i (caps s) with
      | Some sp =>
          match match_text (f_i fl) (slice (subject s) sp) s with
          | Some s1 => k s1
          | None => None
          end
      | None => None
      end
  | NAt w => if at_matches fl w s then k s else None
  | NLook true neg a =>
      match m fl a s Some with
      | Some s1 => if neg then None else k (MState (before s) (rest s) (caps s1))
      | None => if neg then k s else None
      end
  | NLook false neg a =>
      let found :=
        match width a with
        | Some w =>
            match step_back w s with
            | Some s0 =>
                m fl a s0 (fun s1 =>
                  if List.length (rest s1) =? List.length (rest s) then Some s1 else None)
            | None => None
            end
        | None => None
        end in
      match found with
      | Some s1 => if neg then None else k (MState (before s) (rest s) (caps s1))
      | None => if neg then k s else None
      end
  end.

(** ** Match objects and the functions of a compiled pattern *)

Record regex : Type := Regex {
  re_node : node;
  re_flags : mflags;
  re_groups : nat;                     (* number of capturing groups *)
  re_names : list (string * nat)
}.

Record rmatch : Type := RMatch {
  m_subject : list ascii;
  m_start : nat;
  m_end : nat;
  m_caps : list (nat * span)
}.

(** [m.group(i)] for [i >= 1]; [None] when the group took no part. *)
Definition group (mt : rmatch) (i : nat) : option string :=
  match lookup_cap i (m_caps mt) with
  | Some sp => Some (str (slice (m_subject mt) sp))
  | None => None
  end.

(** [m.group(0)] *)
Definition group0 (mt : rmatch) : string :=
  str (slice (m_subject mt) (m_start mt, m_end mt)).

Definition group_or_empty (mt : rmatch) (i : nat) : string :=
  match group mt i with Some t => t | None => EmptyString end.

Definition named (rx : regex) (mt : rmatch) (name : string) : option string :=
  match find (fun p => String.eqb (fst p) name) (re_names rx) with
  | Some (_, i) => group mt i
  | None => None
  end.

(** One attempt at the position [s]; with [must_advance] an empty match
    is refused there (the matcher goes on to its next alternative). *)
Definition match_here (rx : regex) (s : mstate) (must_advance : bool)
    (accept : mstate -> bool) : option mstate :=
  m (re_flags rx) (re_node rx) s
    (fun s1 =>
       if (must_advance && (pos s1 =? pos s)) || negb (accept s1)
       then None else Some s1).

Definition mk_match (s0 s1 : mstate) : rmatch :=
  RMatch (subject s0) (pos s0) (pos s1) (caps s1).

(** The leftmost match at or after the position. *)
Fixpoint search_from (rx : regex) (b r : list ascii) (must_advance : bool)
    {struct r} : option (mstate * mstate) :=
  let s := MState b r [] in
  match match_here rx s must_advance (fun _ => true) with
  | Some s1 => Some (s, s1)
  | None =>
      match r with
      | [] => None
      | c :: tl => search_from rx (c :: b) tl false
      end
  end.

Definition start_state (text : string) : mstate := MState [] (chars text) [].

(** [rx.match(text)] *)
Definition re_match (rx : regex) (text : string) : option rmatch :=
  let s := start_state text in
  match match_here rx s false (fun _ => true) with
  | Some s1 => Some (mk_match s s1)
  | None => None
  end.

(** [rx.fullmatch(text)] *)
Definition fullmatch (rx : regex) (text : string) : option rmatch :=
  let s := start_state text in
  match match_here rx s false
          (fun s1 => match rest s1 with [] => true | _ => false end) with
  | Some s1 => Some (mk_match s s1)
  | None => None
  end.

(** [rx.search(text)] *)
Definition search (rx : regex) (text : string) : option rmatch :=
  match search_from rx [] (chars text) false with
  | Some (s, s1) => Some (mk_match s s1)
  | None => None
  end.

(** The successive matches of [rx.finditer]: the scan resumes where the
    last match ended, and an empty match forces the next one off it. *)
Fixpoint finditer_from (fuel : nat) (rx : regex) (b r : list ascii)
    (must_advance : bool) : list rmatch :=
  match fuel with
  | 0 => []
  | S f =>
      match search_from rx b r must_advance with
      | None => []
      | Some (s, s1) =>
          mk_match s s1 ::
          finditer_from f rx (before s1) (rest s1) (pos s1 =? pos s)
      end
  end.

Definition finditer (rx : regex) (text : string) : list rmatch :=
  finditer_from (2 * String.length text + 2) rx [] (chars text) false.

(** [rx.findall(text)], every match with its groups 1..n (an absent group
    reads as the empty string). *)
Definition findall (rx : regex) (text : string) : list (list string) :=
  map (fun mt => map (group_or_empty mt) (seq 1 (re_groups rx))) (finditer rx text).

(** [len(rx.findall(text))] *)
Definition count (rx : regex) (text : string) : nat :=
  List.length (finditer rx text).

(** [rx.sub(f, text)] for a function [f]. *)
Fixpoint sub_pieces (f : rmatch -> string) (text : list ascii) (last : nat)
    (ms : list rmatch) : list string :=
  match ms with
  | [] => [str (skipn last text)]
  | mt :: tl =>
      str (slice text (last, m_start mt)) :: f mt :: sub_pieces f text (m_end mt) tl
  end.

Definition sub_fn (rx : regex) (f : rmatch -> string) (text : string) : string :=
  concat (sub_pieces f (chars text) 0 (finditer rx text)).

(** ** The pattern parser

    A transcription of [sre_parse]'s [_parse_sub], [_parse], [_escape] and
    [_class_escape] for the syntax used here.  Every [None] is a [re.error]
    of the original (or its [OverflowError] for a repetition number that
    is too large), or syntax that is left out: possessive quantifiers,
    atomic and conditional groups, scoped flags and the [\u], [\U], [\N]
    escapes. *)

Record pstate : Type := PState {
  ps_next : nat;                       (* the next group number *)
  ps_names : list (string * nat);
  ps_open : list nat;                  (* the groups not closed yet *)
  ps_verbose : bool
}.

Definition is_octal (c : ascii) : bool := in_range "0" "7" c.

Definition is_hex (c : ascii) : bool :=
  is_digit c || in_range "a" "f" c || in_range "A" "F" c.

Definition hex_val (c : ascii) : nat :=
  if is_digit c then code c - 48
  else if in_range "a" "f" c then code c - 87
  else code c - 55.

(** The white space [sre_parse] skips in verbose mode. *)
Definition is_pattern_space (c : ascii) : bool :=
  char_in c (str [" "%char; ascii_of_nat 9; ascii_of_nat 10; ascii_of_nat 13;
                  ascii_of_nat 11; ascii_of_nat 12]).

(** [ESCAPES] of [sre_parse]. *)
Definition simple_escape (c : ascii) : option ascii :=
  if Ascii.eqb c "a" then Some (ascii_of_nat 7)
  else if Ascii.eqb c "b" then Some (ascii_of_nat 8)
  else if Ascii.eqb c "f" then Some (ascii_of_nat 12)
  else if Ascii.eqb c "n" then Some (ascii_of_nat 10)
  else if Ascii.eqb c "r" then Some (ascii_of_nat 13)
  else if Ascii.eqb c "t" then Some (ascii_of_nat 9)
  else if Ascii.eqb c "v" then Some (ascii_of_nat 11)
  else if Ascii.eqb c "\" then Some "\"%char
  else None.

Definition categ_escape (c : ascii) : option citem :=
  if Ascii.eqb c "d" then Some (CCat false Digit)
  else if Ascii.eqb c "D" then Some (CCat true Digit)
  else if Ascii.eqb c "s" then Some (CCat false Space)
  else if Ascii.eqb c "S" then Some (CCat true Space)
  else if Ascii.eqb c "w" then Some (CCat false Word)
  else if Ascii.eqb c "W" then Some (CCat true Word)
  else None.

Definition at_escape (c : ascii) : option at_code :=
  if Ascii.eqb c "A" then Some BeginString
  else if Ascii.eqb c "b" then Some Boundary
  else if Ascii.eqb c "B" then Some NonBoundary
  else if Ascii.eqb c "Z" then Some EndString
  else None.

(** Up to [n] leading characters of [l] that satisfy [p]. *)
Fixpoint take_while (n : nat) (p : ascii -> bool) (l : list ascii)
    : list ascii * list ascii :=
  match n, l with
  | S n', c :: tl =>
      if p c then let (a, b) := take_while n' p tl in (c :: a, b) else ([], l)
  | _, _ => ([], l)
  end.

Definition octal_val (l : list ascii) : nat :=
  fold_left (fun acc c => 8 * acc + (code c - 48)) l 0.

(** [_escape]: the text after the backslash. *)
Definition parse_escape (ps : pstate) (inp : list ascii)
    : option (node * list ascii) :=
  match inp with
  | [] => None
  | c :: tl =>
      match at_escape c, categ_escape c with
      | Some w, _ => Some (NAt w, tl)
      | None, Some it => Some (NIn false [it], tl)
      | None, None =>
          match simple_escape c with
          | Some x => Some (NLit x, tl)
          | None =>
              if Ascii.eqb c "x" then
                match tl with
                | h1 :: h2 :: tl' =>
                    if is_hex h1 && is_hex h2
                    then Some (NLit (ascii_of_nat (16 * hex_val h1 + hex_val h2)), tl')
                    else None
                | _ => None
                end
              else if Ascii.eqb c "0" then
                let (ds, tl') := take_while 2 is_octal tl in
                Some (NLit (ascii_of_nat (octal_val ds)), tl')
              else if is_digit c then
                match tl with
                | d2 :: tl2 =>
                    if is_digit d2 then
                      match tl2 with
                      | d3 :: tl3 =>
                          if is_octal c && is_octal d2 && is_octal d3 then
                            let v := octal_val [c; d2; d3] in
                            if 255 <? v then None else Some (NLit (ascii_of_nat v), tl3)
                          else
                            let g := int_of_digits [c; d2] in
                            if (g <? ps_next ps) && negb (existsb (Nat.eqb g) (ps_open ps))
                            then Some (NRef g, tl2) else None
                      | [] =>
                          let g := int_of_digits [c; d2] in
                          if (g <? ps_next ps) && negb (existsb (Nat.eqb g) (ps_open ps))
                          then Some (NRef g, tl2) else None
                      end
                    else
                      let g := int_of_digits [c] in
                      if (g <? ps_next ps) && negb (existsb (Nat.eqb g) (ps_open ps))
                      then Some (NRef g, tl) else None
                | [] =>
                    let g := int_of_digits [c] in
                    if (g <? ps_next ps) && negb (existsb (Nat.eqb g) (ps_open ps))
                    then Some (NRef g, tl) else None
                end
              else if is_alpha c then None
              else Some (NLit c, tl)
          end
      end
  end.

(** [_class_escape]: the text after a backslash inside a set. *)
Definition parse_class_escape (inp : list ascii) : option (citem * list ascii) :=
  match inp with
  | [] => None
  | c :: tl =>
      match simple_escape c with
      | Some x => Some (CChar x, tl)
      | None =>
          match categ_escape c with
          | Some it => Some (it, tl)
          | None =>
              if Ascii.eqb c "x" then
                match tl with
                | h1 :: h2 :: tl' =>
                    if is_hex h1 && is_hex h2
                    then Some (CChar (ascii_of_nat (16 * hex_val h1 + hex_val h2)), tl')
                    else None
                | _ => None
                end
              else if is_octal c then
                let (ds, tl') := take_while 2 is_octal tl in
                let v := octal_val (c :: ds) in
                if 255 <? v then None else Some (CChar (ascii_of_nat v), tl')
              else if is_digit c then None
              else if is_alpha c then None
              else Some (CChar c, tl)
          end
      end
  end.

(** The items of a set, after the opening bracket and the optional [^]. *)
Fixpoint parse_class (fuel : nat) (inp : list ascii) (acc : list citem)
    : option (list citem * list ascii) :=
  match fuel with
  | 0 => None
  | S f =>
      match inp with
      | [] => None
      | c :: tl =>
          if Ascii.eqb c "]" && negb (match acc with [] => true | _ => false end)
          then Some (rev acc, tl)
          else
            let first :=
              if Ascii.eqb c "\" then parse_class_escape tl else Some (CChar c, tl) in
            match first with
            | None => None
            | Some (code1, tl1) =>
                match tl1 with
                | "-"%char :: tl2 =>
                    match tl2 with
                    | [] => None
                    | that :: tl3 =>
                        if Ascii.eqb that "]"
                        then Some (rev (CChar "-" :: code1 :: acc), tl3)
                        else
                          let second :=
                            if Ascii.eqb that "\" then parse_class_escape tl3
                            else Some (CChar that, tl3) in
                          match code1, second with
                          | CChar lo, Some (CChar hi, tl4) =>
                              if code hi <? code lo then None
                              else parse_class f tl4 (CRange lo hi :: acc)
                          | _, _ => None
                          end
                    end
                | _ => parse_class f tl1 (code1 :: acc)
                end
            end
      end
  end.

(** [MAXREPEAT] of a 64-bit build, and the value of a run of digits. *)
Definition MAXREPEAT : Z := 4294967295.

Definition Z_of_digits (l : list ascii) : Z :=
  fold_left (fun acc c => (10 * acc + (Z.of_nat (code c) - 48))%Z) l 0%Z.

(** The bounds of a quantifier that opens with a brace, from the text
    after the brace; [None] when the brace is a literal.  Bounds that are
    refused (the minimum above the maximum, or a number of [MAXREPEAT] or
    more, for which [sre_parse] raises [OverflowError]) give [Some None]. *)
Definition parse_braces (inp : list ascii)
    : option (option (nat * option nat) * list ascii) :=
  let (lo, r1) := take_while (List.length inp) is_digit inp in
  let '(hi, r2, comma) :=
    match r1 with
    | ","%char :: r1' =>
        let (h, r) := take_while (List.length r1') is_digit r1' in (h, r, true)
    | _ => (lo, r1, false)
    end in
  match r2 with
  | "}"%char :: r3 =>
      if ((MAXREPEAT <=? Z_of_digits lo) || (MAXREPEAT <=? Z_of_digits hi))%Z
      then Some (None, r3)
      else
        let mn := match lo with [] => 0 | _ => int_of_digits lo end in
        let mx := match hi with [] => None | _ => Some (int_of_digits hi) end in
        match mx with
        | Some x => if x <? mn then Some (None, r3) else Some (Some (mn, mx), r3)
        | None => Some (Some (mn, mx), r3)
        end
  | _ => None
  end.

Definition is_at (r : node) : bool :=
  match r with NAt _ => true | _ => false end.

Definition is_repeat (r : node) : bool :=
  match r with NRep _ _ _ _ => true | _ => false end.

Fixpoint seq_of (l : list node) : node :=
  match l with
  | [] => NEmpty
  | [x] => x
  | x :: tl => NCat x (seq_of tl)
  end.

(** The characters up to the terminator [t], which is consumed. *)
Fixpoint get_until (t : ascii) (inp : list ascii) : option (list ascii * list ascii) :=
  match inp with
  | [] => None
  | c :: tl =>
      if Ascii.eqb c t then Some ([], tl)
      else match get_until t tl with
           | Some (a, b) => Some (c :: a, b)
           | None => None
           end
  end.

Definition is_identifier (l : list ascii) : bool :=
  match l with
  | [] => false
  | c :: _ => negb (is_digit c) && forallb is_word l
  end.

Fixpoint skip_comment (inp : list ascii) : list ascii :=
  match inp with
  | [] => []
  | c :: tl => if Ascii.eqb c newline then tl else skip_comment tl
  end.

(** Apply a quantifier to the last item parsed. *)
Definition repeat_last (acc : list node) (mn : nat) (mx : option nat)
    (inp : list ascii) : option (list node * list ascii) :=
  match acc with
  | [] => None                                   (* nothing to repeat *)
  | item :: acc' =>
      if is_at item then None                    (* nothing to repeat *)
      else if is_repeat item then None           (* multiple repeat *)
      else
        match inp with
        | "?"%char :: tl => Some (NRep mn mx false item :: acc', tl)
        | "+"%char :: _ => None
        | _ => Some (NRep mn mx true item :: acc', inp)
        end
  end.

Fixpoint parse_sub (fuel : nat) (ps : pstate) (inp : list ascii) {struct fuel}
    : option (node * pstate * list ascii) :=
  match fuel with
  | 0 => None
  | S f =>
      match parse_seq f ps inp [] with
      | None => None
      | Some (a, ps1, inp1) =>
          match inp1 with
          | "|"%char :: inp2 =>
              match parse_sub f ps1 inp2 with
              | Some (b, ps2, inp3) => Some (NAlt a b, ps2, inp3)
              | None => None
              end
          | _ => Some (a, ps1, inp1)
          end
      end
  end

with parse_seq (fuel : nat) (ps : pstate) (inp : list ascii) (acc : list node)
    {struct fuel} : option (node * pstate * list ascii) :=
  match fuel with
  | 0 => None
  | S f =>
      match inp with
      | [] => Some (seq_of (rev acc), ps, [])
      | c :: tl =>
          if Ascii.eqb c "|" || Ascii.eqb c ")" then Some (seq_of (rev acc), ps, inp)
          else if ps_verbose ps && is_pattern_space c then parse_seq f ps tl acc
          else if ps_verbose ps && Ascii.eqb c "#" then parse_seq f ps (skip_comment tl) acc
          else if Ascii.eqb c "\" then
            match parse_escape ps tl with
            | Some (n, tl') => parse_seq f ps tl' (n :: acc)
            | None => None
            end
          else if Ascii.eqb c "[" then
            let (neg, tl1) :=
              match tl with
              | "^"%char :: t => (true, t)
              | _ => (false, tl)
              end in
            match parse_class (S (List.length tl1)) tl1 [] with
            | Some (items, tl') => parse_seq f ps tl' (NIn neg items :: acc)
            | None => None
            end
          else if Ascii.eqb c "?" then
            match repeat_last acc 0 (Some 1) tl with
            | Some (acc', tl') => parse_seq f ps tl' acc'
            | None => None
            end
          else if Ascii.eqb c "*" then
            match repeat_last acc 0 None tl with
            | Some (acc', tl') => parse_seq f ps tl' acc'
            | None => None
            end
          else if Ascii.eqb c "+" then
            match repeat_last acc 1 None tl with
            | Some (acc', tl') => parse_seq f ps tl' acc'
            | None => None
            end
          else if Ascii.eqb c "{" then
            match tl with
            | "}"%char :: _ => parse_seq f ps tl (NLit c :: acc)
            | _ =>
                match parse_braces tl with
                | None => parse_seq f ps tl (NLit c :: acc)
                | Some (None, _) => None         (* the bounds are refused *)
                | Some (Some (mn, mx), tl1) =>
                    match repeat_last acc mn mx tl1 with
                    | Some (acc', tl') => parse_seq f ps tl' acc'
                    | None => None
                    end
                end
            end
          else if Ascii.eqb c "." then parse_seq f ps tl (NAny :: acc)
          else if Ascii.eqb c "^" then parse_seq f ps tl (NAt Bol :: acc)
          else if Ascii.eqb c "$" then parse_seq f ps tl (NAt Eol :: acc)
          else if Ascii.eqb c "(" then
            match tl with
            | "?"%char :: ":"%char :: tl1 =>
                match parse_sub f ps tl1 with
                | Some (a, ps1, ")"%char :: tl2) => parse_seq f ps1 tl2 (NNonCap a :: acc)
                | _ => None
                end
            | "?"%char :: "#"%char :: tl1 =>
                match get_until ")" tl1 with
                | Some (_, tl2) => parse_seq f ps tl2 acc
                | None => None
                end
            | "?"%char :: "="%char :: tl1 =>
                match parse_sub f ps tl1 with
                | Some (a, ps1, ")"%char :: tl2) =>
                    parse_seq f ps1 tl2 (NLook true false a :: acc)
                | _ => None
                end
            | "?"%char :: "!"%char :: tl1 =>
                match parse_sub f ps tl1 with
                | Some (a, ps1, ")"%char :: tl2) =>
                    parse_seq f ps1 tl2 (NLook true true a :: acc)
                | _ => None
                end
            | "?"%char :: "<"%char :: "="%char :: tl1 =>
                match parse_sub f ps tl1 with
                | Some (a, ps1, ")"%char :: tl2) =>
                    match width a with
                    | Some _ => parse_seq f ps1 tl2 (NLook false false a :: acc)
                    | None => None               (* look-behind requires fixed width *)
                    end
                | _ => None
                end
            | "?"%char :: "<"%char :: "!"%char :: tl1 =>
                match parse_sub f ps tl1 with
                | Some (a, ps1, ")"%char :: tl2) =>
                    match width a with
                    | Some _ => parse_seq f ps1 tl2 (NLook false true a :: acc)
                    | None => None
                    end
                | _ => None
                end
            | "?"%char :: "P"%char :: "<"%char :: tl1 =>
                match get_until ">" tl1 with
                | Some (name, tl2) =>
                    if is_identifier name &&
                       negb (existsb (fun p => String.eqb (fst p) (str name)) (ps_names ps))
                    then
                      let g := ps_next ps in
                      let ps1 := PState (S g) ((str name, g) :: ps_names ps)
                                   (g :: ps_open ps) (ps_verbose ps) in
                      match parse_sub f ps1 tl2 with
                      | Some (a, ps2, ")"%char :: tl3) =>
                          let ps3 := PState (ps_next ps2) (ps_names ps2)
                                       (remove Nat.eq_dec g (ps_open ps2)) (ps_verbose ps2) in
                          parse_seq f ps3 tl3 (NGroup g a :: acc)
                      | _ => None
                      end
                    else None
                | None => None
                end
            | "?"%char :: "P"%char :: "="%char :: tl1 =>
                match get_until ")" tl1 with
                | Some (name, tl2) =>
                    match find (fun p => String.eqb (fst p) (str name)) (ps_names ps) with
                    | Some (_, g) =>
                        if existsb (Nat.eqb g) (ps_open ps) then None
                        else parse_seq f ps tl2 (NRef g :: acc)
                    | None => None
                    end
                | None => None
                end
            | "?"%char :: _ => None
            | _ =>
                let g := ps_next ps in
                let ps1 := PState (S g) (ps_names ps) (g :: ps_open ps) (ps_verbose ps) in
                match parse_sub f ps1 tl with
                | Some (a, ps2, ")"%char :: tl2) =>
                    let ps3 := PState (ps_next ps2) (ps_names ps2)
                                 (remove Nat.eq_dec g (ps_open ps2)) (ps_verbose ps2) in
                    parse_seq f ps3 tl2 (NGroup g a :: acc)
                | _ => None
                end
            end
          else parse_seq f ps tl (NLit c :: acc)
      end
  end.

(** The value of one letter of an inline flag group; [a] and [L] are not
    modelled. *)
Definition inline_flag (c : ascii) : option Z :=
  if Ascii.eqb c "i" then Some IGNORECASE
  else if Ascii.eqb c "m" then Some MULTILINE
  else if Ascii.eqb c "s" then Some DOTALL
  else if Ascii.eqb c "x" then Some VERBOSE
  else if Ascii.eqb c "u" then Some 0%Z
  else None.

Fixpoint inline_flags (l : list ascii) : option Z :=
  match l with
  | [] => Some 0%Z
  | c :: tl =>
      match inline_flag c, inline_flags tl with
      | Some a, Some b => Some (Z.lor a b)
      | _, _ => None
      end
  end.

(** The global flag groups that open a pattern. *)
Fixpoint leading_flags (fuel : nat) (inp : list ascii) : Z * list ascii :=
  match fuel with
  | 0 => (0%Z, inp)
  | S f =>
      match inp with
      | "("%char :: "?"%char :: tl =>
          match get_until ")" tl with
          | Some (letters, tl') =>
              match letters, inline_flags letters with
              | _ :: _, Some z =>
                  let (z', r) := leading_flags f tl' in (Z.lor z z', r)
              | _, _ => (0%Z, inp)
              end
          | None => (0%Z, inp)
          end
      | _ => (0%Z, inp)
      end
  end.

(** [re.compile(pattern, flags)] *)
Definition compile (pattern : string) (flags : Z) : option regex :=
  let inp := chars pattern in
  let (inl, body) := leading_flags (List.length inp) inp in
  let fl := Z.lor flags inl in
  let ps := PState 1 [] [] (Z.testbit fl 6) in
  match parse_sub (3 * List.length body + 8) ps body with
  | Some (n, ps1, []) =>
      Some (Regex n (MFlags (Z.testbit fl 1) (Z.testbit fl 3) (Z.testbit fl 4))
                  (ps_next ps1 - 1) (ps_names ps1))
  | _ => None
  end.

(** ** Replacement templates *)

Inductive titem : Type :=
| TLit (c : ascii)
| TGroup (i : nat).

(** [parse_template]: the items of a replacement string, [None] where
    [re] raises (a bad escape, a reference to a group that is not there). *)
Fixpoint parse_template (fuel : nat) (rx : regex) (inp : list ascii)
    : option (list titem) :=
  match fuel with
  | 0 => None
  | S f =>
      let cont (it : list titem) (tl : list ascii) :=
        match parse_template f rx tl with
        | Some items => Some (it ++ items)%list
        | None => None
        end in
      let group_ref (g : nat) (tl : list ascii) :=
        if re_groups rx <? g then None else cont [TGroup g] tl in
      match inp with
      | [] => Some []
      | "\"%char :: [] => None
      | "\"%char :: c :: tl =>
          if Ascii.eqb c "g" then
            match tl with
            | "<"%char :: tl1 =>
                match get_until ">" tl1 with
                | Some (name, tl2) =>
                    if is_identifier name then
                      match find (fun p => String.eqb (fst p) (str name)) (re_names rx) with
                      | Some (_, g) => group_ref g tl2
                      | None => None
                      end
                    else if forallb is_digit name &&
                            negb (match name with [] => true | _ => false end)
                    then group_ref (int_of_digits name) tl2
                    else None
                | None => None
                end
            | _ => None
            end
          else if Ascii.eqb c "0" then
            let (ds, tl') := take_while 2 is_octal tl in
            cont [TLit (ascii_of_nat (octal_val ds))] tl'
          else if is_digit c then
            match tl with
            | d2 :: tl2 =>
                if is_digit d2 then
                  match tl2 with
                  | d3 :: tl3 =>
                      if is_octal c && is_octal d2 && is_octal d3 then
                        let v := octal_val [c; d2; d3] in
                        if 255 <? v then None else cont [TLit (ascii_of_nat v)] tl3
                      else group_ref (int_of_digits [c; d2]) tl2
                  | [] => group_ref (int_of_digits [c; d2]) tl2
                  end
                else group_ref (int_of_digits [c]) tl
            | [] => group_ref (int_of_digits [c]) tl
            end
          else
            match simple_escape c with
            | Some x => cont [TLit x] tl
            | None => if is_alpha c then None else cont [TLit "\"; TLit c] tl
            end
      | c :: tl => cont [TLit c] tl
      end
  end.

Definition expand (items : list titem) (mt : rmatch) : string :=
  concat (map (fun it =>
                 match it with
                 | TLit c => String c EmptyString
                 | TGroup 0 => group0 mt
                 | TGroup i => group_or_empty mt i
                 end) items).

(** [rx.sub(repl, text)] for a string [repl]. *)
Definition sub (rx : regex) (repl text : string) : option string :=
  match parse_template (S (String.length repl)) rx (chars repl) with
  | Some items => Some (sub_fn rx (expand items) text)
  | None => None
  end.

(** [re.escape] *)
Definition is_special (c : ascii) : bool :=
  char_in c "()[]{}?*+-|^$\.&~# " ||
  ((9 <=? code c) && (code c <=? 13)).

Definition escape (s : string) : string :=
  str (flat_map (fun c => if is_special c then ["\"%char; c] else [c]) (chars s)).

End Re.

(** A pattern of the program's own text, compiled once.  The type makes a
    pattern that does not compile an error of the definition that uses
    it. *)
Definition compiled (pattern : string) (flags : Z) : Type :=
  match Re.compile pattern flags with
  | Some _ => Re.regex
  | None => unit
  end.

Definition pattern_of (pattern : string) (flags : Z) : compiled pattern flags :=
  match Re.compile pattern flags as o
        return match o with Some _ => Re.regex | None => unit end with
  | Some rx => rx
  | None => tt
  end.

(* ================================================================== *)
(** * date_normalizer.py *)
(* ================================================================== *)

Module DateNormalizer.
Import PyStr.

(** ** [datetime] *)

Record datetime : Type := DateTime {
  year : Z; month : Z; day : Z;
  hour : Z; minute : Z; second : Z; microsecond : Z
}.

Definition is_leap (y : Z) : bool :=
  ((y mod 4 =? 0) && negb (y mod 100 =? 0) || (y mod 400 =? 0))%Z.

Definition days_in_month (y m : Z) : Z :=
  if (m =? 2)%Z then (if is_leap y then 29 else 28)%Z
  else if ((m =? 4) || (m =? 6) || (m =? 9) || (m =? 11))%Z then 30%Z
  else 31%Z.

(** [datetime(y, m, d)], which raises [ValueError] out of range. *)
Definition mk_date (y m d : Z) : result datetime :=
  if ((1 <=? y) && (y <=? 9999) && (1 <=? m) && (m <=? 12) &&
      (1 <=? d) && (d <=? days_in_month y m))%Z
  then Ok (DateTime y m d 0 0 0 0)
  else Raise ValueError.

(** Days from 1970-01-01 to a civil date, and back. *)
Definition days_from_civil (y m d : Z) : Z :=
  (let y' := if m <=? 2 then y - 1 else y in
   let era := y' / 400 in
   let yoe := y' - era * 400 in
   let mp := (m + 9) mod 12 in
   let doy := (153 * mp + 2) / 5 + d - 1 in
   let doe := yoe * 365 + yoe / 4 - yoe / 100 + doy in
   era * 146097 + doe - 719468)%Z.

Definition civil_from_days (z : Z) : Z * Z * Z :=
  (let z' := z + 719468 in
   let era := z' / 146097 in
   let doe := z' - era * 146097 in
   let yoe := (doe - doe / 1460 + doe / 36524 - doe / 146096) / 365 in
   let doy := doe - (365 * yoe + yoe / 4 - yoe / 100) in
   let mp := (5 * doy + 2) / 153 in
   let d := doy - (153 * mp + 2) / 5 + 1 in
   let m := if mp <? 10 then mp + 3 else mp - 9 in
   let y := yoe + era * 400 in
   (if m <=? 2 then y + 1 else y, m, d))%Z.

(** [dt + timedelta(days, microseconds)] for a [dt] at midnight; the
    result has to stay within the years 1..9999. *)
Definition add_timedelta (dt : datetime) (days micros : Z) : result datetime :=
  (let '(y, m, d) := civil_from_days (days_from_civil (year dt) (month dt) (day dt) + days) in
   if (1 <=? y) && (y <=? 9999) then
     let s := micros / 1000000 in
     Ok (DateTime y m d (s / 3600) ((s / 60) mod 60) (s mod 60) (micros mod 1000000))
   else Raise OverflowError)%Z.

Definition pad (w : nat) (z : Z) : string :=
  let t := str_of_Z z in
  str (repeat "0"%char (w - String.length t)) ++ t.

(** [dt.strftime(fmt)] for the directives [_to_strftime] produces; any
    other character pair is copied.  The year is written with four
    digits, which is what every platform does from the year 1000 on (the
    C library of Linux does not pad a smaller year). *)
Fixpoint strftime_chars (dt : datetime) (l : list ascii) : string :=
  match l with
  | [] => EmptyString
  | "%"%char :: c :: tl =>
      (if Ascii.eqb c "Y" then pad 4 (year dt)
       else if Ascii.eqb c "y" then pad 2 (year dt mod 100)
       else if Ascii.eqb c "m" then pad 2 (month dt)
       else if Ascii.eqb c "d" then pad 2 (day dt)
       else if Ascii.eqb c "H" then pad 2 (hour dt)
       else if Ascii.eqb c "M" then pad 2 (minute dt)
       else if Ascii.eqb c "S" then pad 2 (second dt)
       else if Ascii.eqb c "%" then "%"
       else str ["%"%char; c]) ++ strftime_chars dt tl
  | c :: tl => String c (strftime_chars dt tl)
  end.

Definition strftime (dt : datetime) (fmt : string) : string :=
  strftime_chars dt (chars fmt).

(** ** Values a cell can hold *)

(** What the interpreter and the libraries outside this repository
    provide: floating point numbers, and the date parsers. *)
Class DateLibs : Type := {
  float : Type;
  float_of_Z : Z -> float;
  float_le : float -> float -> bool;
  float_str : float -> string;                       (* str(x) *)
  float_timedelta : float -> Z * Z;                  (* whole days, microseconds *)
  (** [dateparser.parse(token, settings)] when the package is there
      ([_HAS_DATEPARSER]); the flag is [dayfirst]. *)
  dateparser_parse : option (string -> bool -> result (option datetime));
  (** [dateutil.parser.parse(token, dayfirst, fuzzy=True)] when the
      package is there ([_HAS_DATEUTIL]). *)
  dateutil_parse : option (string -> bool -> result datetime);
  (** [datetime.strptime(token, fmt)] *)
  strptime : string -> string -> result datetime
}.

Inductive pyvalue {L : DateLibs} : Type :=
| VNone
| VBool (b : bool)
| VInt (z : Z)
| VFloat (x : float)
| VStr (s : string).

Section Normalizer.
Context {L : DateLibs}.

(** [str(value)] *)
Definition py_str (v : pyvalue) : string :=
  match v with
  | VNone => "None"
  | VBool true => "True"
  | VBool false => "False"
  | VInt z => str_of_Z z
  | VFloat x => float_str x
  | VStr s => s
  end.

(** The names bound at the top of [date_normalizer.py], by its imports
    ([import re], [from datetime import datetime],
    [from typing import Optional, Tuple, Any], the two guarded imports)
    and by its definitions. *)
Definition module_globals : list string :=
  [ "re"; "datetime"; "Optional"; "Tuple"; "Any";
    "dateparser"; "_HAS_DATEPARSER"; "du_parser"; "_HAS_DATEUTIL";
    "DATE_TOKEN_RX"; "_ORDINAL_RX"; "_to_strftime"; "_compact8_to_iso";
    "_parse_one"; "guess_dayfirst"; "normalize_date_text";
    "normalize_cell_as_whole" ].

(** Evaluating a global name raises [NameError] when nothing binds it. *)
Definition global_name (name : string) : result unit :=
  if mem name module_globals then Ok tt else Raise NameError.

Definition _ORDINAL_RX : Re.regex :=
  Eval vm_compute in pattern_of "(\b\d{1,2})(st|nd|rd|th)\b" Re.IGNORECASE.

Definition _to_strftime (fmt : string) : string :=
  fold_left (fun out kv => replace out (fst kv) (snd kv))
    [ ("YYYY", "%Y"); ("YY", "%y"); ("MM", "%m"); ("DD", "%d");
      ("HH", "%H"); ("mm", "%M"); ("ss", "%S") ]
    fmt.

Definition rx_8digits : Re.regex := Eval vm_compute in pattern_of "\d{8}" 0.

Definition substring (a b : nat) (s : string) : string :=
  str (firstn (b - a) (skipn a (chars s))).

Definition _compact8_to_iso (s : string) : option datetime :=
  match Re.fullmatch rx_8digits s with
  | Some _ =>
      let y := Z.of_nat (int_of_digits (chars (substring 0 4 s))) in
      let m := Z.of_nat (int_of_digits (chars (substring 4 6 s))) in
      let d := Z.of_nat (int_of_digits (chars (substring 6 8 s))) in
      match mk_date y m d with
      | Ok dt => Some dt
      | Raise _ => None
      end
  | None => None
  end.

(** UTF-8 of the three CJK date markers. *)
Definition cjk_year : string := str (map ascii_of_nat [229; 185; 180]).
Definition cjk_month : string := str (map ascii_of_nat [230; 156; 136]).
Definition cjk_day : string := str (map ascii_of_nat [230; 151; 165]).

Definition fallback_formats : list string :=
  [ "%Y-%m-%d"; "%Y/%m/%d"; "%Y.%m.%d";
    "%d/%m/%Y"; "%m/%d/%Y";
    "%d/%m/%y"; "%m/%d/%y";
    "%d-%m-%Y"; "%m-%d-%Y";
    "%d-%b-%Y"; "%d-%B-%Y";
    "%b %d, %Y"; "%B %d, %Y" ].

Fixpoint first_strptime (token : string) (fmts : list string) : option datetime :=
  match fmts with
  | [] => None
  | fmt :: tl =>
      match strptime token fmt with
      | Ok dt => Some dt
      | Raise _ => first_strptime token tl
      end
  end.

(** [bool(dayfirst)] for the optional argument. *)
Definition truthy (dayfirst : option bool) : bool :=
  match dayfirst with Some true => true | _ => false end.

Definition _parse_one (token : string) (dayfirst : option bool) : option datetime :=
  let token :=
    match Re.sub _ORDINAL_RX "\1" token with Some t => t | None => token end in
  let token := replace (replace (replace token cjk_year "-") cjk_month "-")
                 cjk_day EmptyString in
  match _compact8_to_iso token with
  | Some dt => Some dt
  | None =>
      let by_dateparser :=
        match dateparser_parse with
        | Some parse =>
            match parse token (truthy dayfirst) with
            | Ok (Some d) => Some d
            | _ => None
            end
        | None => None
        end in
      match by_dateparser with
      | Some d => Some d
      | None =>
          let by_dateutil :=
            match dateutil_parse with
            | Some parse =>
                match parse token (truthy dayfirst) with
                | Ok d => Some d
                | Raise _ => None
                end
            | None => None
            end in
          match by_dateutil with
          | Some d => Some d
          | None => first_strptime token fallback_formats
          end
      end
  end.

Definition rx_ambiguous : Re.regex :=
  Eval vm_compute in pattern_of "\b(\d{1,2})[/-](\d{1,2})[/-](\d{2,4})\b" 0.

Definition rx_day_hint : Re.regex :=
  Eval vm_compute in pattern_of "\b(13|14|15|1[6-9]|2[0-9]|3[01])\b" 0.

Definition group_int (mt : Re.rmatch) (i : nat) : nat :=
  int_of_digits (chars (Re.group_or_empty mt i)).

(** One turn of the loop of [guess_dayfirst] on the counters
    [(ambiguous_hits, dayfirst_votes)]. *)
Definition guess_step (acc : nat * nat) (s : string) : nat * nat :=
  let (ambiguous_hits, dayfirst_votes) := acc in
  match Re.search rx_ambiguous s with
  | None => acc
  | Some mt =>
      let a := group_int mt 1 in
      let b := group_int mt 2 in
      if (a <=? 12) && (b <=? 12) then
        (S ambiguous_hits,
         match Re.search rx_day_hint s with
         | Some _ => S dayfirst_votes
         | None => dayfirst_votes
         end)
      else acc
  end.

Definition guess_dayfirst (samples : list string) : option bool :=
  let (ambiguous_hits, dayfirst_votes) :=
    fold_left guess_step (firstn 200 samples) (0, 0) in
  if ambiguous_hits =? 0 then None
  else if Nat.max 1 (ambiguous_hits / 3) <=? dayfirst_votes then Some true
  else None.

(** [float(value)] raises [OverflowError] for an integer beyond the
    range of a double. *)
Definition to_float (z : Z) : result float :=
  if (Z.abs z <? 2 ^ 1024 - 2 ^ 970)%Z then Ok (float_of_Z z)
  else Raise OverflowError.

Definition normalize_cell_as_whole (value : pyvalue) (out_fmt : string)
    (dayfirst : option bool) : result (string * nat) :=
  let fmt := _to_strftime out_fmt in
  let as_text :=
    let s := match value with VNone => EmptyString | _ => py_str value end in
    match _parse_one s dayfirst with
    | None => Ok (s, 0)
    | Some dt => Ok (strftime dt fmt, 1)
    end in
  let serial (n : float) :=
    if float_le (float_of_Z 10000) n && float_le n (float_of_Z 80000) then
      match mk_date 1899 12 30 with
      | Raise e => Raise e
      | Ok base =>
          let attempt :=
            _ <- global_name "timedelta" ;;
            let (days, micros) := float_timedelta n in
            dt <- add_timedelta base days micros ;;
            Ok (strftime dt fmt, 1) in
          try_except attempt as_text
      end
    else as_text in
  match value with
  | VInt z => n <- to_float z ;; serial n
  | VFloat x => serial x
  | _ => as_text
  end.

End Normalizer.

(** What the docstring of [normalize_cell_as_whole] and the comment at its
    range test describe: the day count from 1899-12-30, formatted. *)
Definition serial_date (n : Z) (out_fmt : string) : result (string * nat) :=
  dt <- add_timedelta (DateTime 1899 12 30 0 0 0 0) n 0 ;;
  Ok (strftime dt (_to_strftime out_fmt), 1).

(** ** [datetime.strptime] in the C locale

    As [_strptime] does it: the format becomes a regular expression, one
    named group for each directive, which has to match the whole text. *)

Definition month_abbrs : list string :=
  ["jan"; "feb"; "mar"; "apr"; "may"; "jun"; "jul"; "aug"; "sep"; "oct"; "nov"; "dec"].

Definition month_names : list string :=
  ["january"; "february"; "march"; "april"; "may"; "june"; "july"; "august";
   "september"; "october"; "november"; "december"].

(** The names longest first, as [__seqToRE] sorts them. *)
Definition month_names_by_length : list string :=
  ["september"; "february"; "november"; "december"; "january"; "october";
   "august"; "march"; "april"; "june"; "july"; "may"].

Definition directive_regex (c : ascii) : option string :=
  if Ascii.eqb c "d" then Some "(?P<d>3[0-1]|[1-2]\d|0[1-9]|[1-9]| [1-9])"
  else if Ascii.eqb c "m" then Some "(?P<m>1[0-2]|0[1-9]|[1-9])"
  else if Ascii.eqb c "Y" then Some "(?P<Y>\d\d\d\d)"
  else if Ascii.eqb c "y" then Some "(?P<y>\d\d)"
  else if Ascii.eqb c "b" then Some ("(?P<b>" ++ join "|" month_abbrs ++ ")")
  else if Ascii.eqb c "B" then Some ("(?P<B>" ++ join "|" month_names_by_length ++ ")")
  else None.

(** The regular expression of a format made of the directives above,
    blanks and other characters. *)
Fixpoint format_regex (l : list ascii) : option string :=
  match l with
  | [] => Some EmptyString
  | "%"%char :: c :: tl =>
      match directive_regex c, format_regex tl with
      | Some a, Some b => Some (a ++ b)
      | _, _ => None
      end
  | c :: tl =>
      match format_regex tl with
      | Some b =>
          Some ((if is_space c then "\s+"
                 else if char_in c "\.^$*+?(){}[]|" then str ["\"%char; c]
                 else String c EmptyString) ++ b)
      | None => None
      end
  end.

Fixpoint index_of (x : string) (l : list string) (i : nat) : option nat :=
  match l with
  | [] => None
  | y :: tl => if String.eqb x y then Some i else index_of x tl (S i)
  end.

Definition strptime_c (text fmt : string) : result datetime :=
  match format_regex (chars fmt) with
  | None => Raise ValueError
  | Some pattern =>
      match Re.compile pattern Re.IGNORECASE with
      | None => Raise ValueError
      | Some rx =>
          match Re.re_match rx text with
          | None => Raise ValueError
          | Some mt =>
              if negb (Re.m_end mt =? String.length text) then Raise ValueError
              else
                let field (name : string) : option string := Re.named rx mt name in
                let number (name : string) : option Z :=
                  option_map (fun t => Z.of_nat (int_of_digits (chars (strip t))))
                    (field name) in
                let y :=
                  match number "Y", number "y" with
                  | Some y, _ => y
                  | None, Some yy => (if yy <=? 68 then 2000 + yy else 1900 + yy)%Z
                  | None, None => 1900%Z
                  end in
                let by_name (name : string) (names : list string) : option Z :=
                  match field name with
                  | Some t => option_map (fun i => Z.of_nat i) (index_of (lower t) names 1)
                  | None => None
                  end in
                let mo :=
                  match number "m", by_name "b" month_abbrs, by_name "B" month_names with
                  | Some x, _, _ => x
                  | None, Some x, _ => x
                  | None, None, Some x => x
                  | None, None, None => 1%Z
                  end in
                let d := match number "d" with Some x => x | None => 1%Z end in
                mk_date y mo d
          end
      end
  end.

(** An installation with neither [dateparser] nor [dateutil]; floating
    point numbers are read as the rationals they denote, and printed only
    when they are whole. *)
#[export] Instance stdlib_only : DateLibs := {
  float := Q;
  float_of_Z := inject_Z;
  float_le := Qle_bool;
  float_str := fun x => str_of_Z (Qnum x / Z.pos (Qden x)) ++ ".0";
  float_timedelta := fun x => ((Qnum x / Z.pos (Qden x))%Z, 0%Z);
  dateparser_parse := None;
  dateutil_parse := None;
  strptime := strptime_c
}.

End DateNormalizer.

(* ================================================================== *)
(** * plan_v2.py: the plan, its normal form and its validator *)
(* ================================================================== *)

Module PlanV2.
Import PyStr.

Record RegexPlan : Type := Plan {
  intent : string;
  pattern : string;
  flags : string;
  columns : option (list string);
  replacement : option string;
  row_filter : option string
}.

Definition allowed : string := "imsluxUu".

(** The replacement strings that [normalize] refuses to pass on. *)
Definition na_like : list string := ["NA"; "N/A"; "NaN"; "nan"; "na"].

Definition safe_literal : string := "N/A (missing)".

Definition match_all : string := "^.*$".

(** [x or ""] for an optional string. *)
Definition or_empty (x : option string) : string :=
  match x with Some s => s | None => EmptyString end.

(** [s or None] *)
Definition none_if_empty (s : string) : option string :=
  if is_empty s then None else Some s.

(** [RegexPlan.normalize] *)
Definition normalize (self : RegexPlan) : RegexPlan :=
  let safe :=
    or_else (str (filter (fun ch => char_in ch allowed)
                         (chars (or_else (flags self) "i")))) "i" in
  let rep := none_if_empty (strip (or_empty (replacement self))) in
  let rep :=
    match rep with
    | Some r => if mem r na_like then Some safe_literal else rep
    | None => rep
    end in
  let pat := or_else (strip (pattern self)) match_all in
  Plan (intent self) pat safe (columns self) rep (row_filter self).

(** The messages of [_validate_plan], one constructor for each. *)
Inductive violation : Type :=
| BadIntent                              (* intent must be 'find' or 'replace'. *)
| PatternNotCompilable                   (* pattern not compilable: ... *)
| UnsupportedFlag (f : ascii)            (* unsupported flag '...' *)
| UnknownColumns (cs : list string)      (* unknown columns: [...] *)
| ReplacementRequired                    (* replacement is required for replace intent. *)
| UnknownFilterColumn (t : string).      (* row_filter references unknown column ... *)

Definition rx_backticked : Re.regex := Eval vm_compute in pattern_of "`([^`]+)`" 0.

(** The list [errors] that [_validate_plan] builds; the function raises
    [PlanValidationError(errors)] when the list is not empty. *)
Definition validation_errors (plan : RegexPlan) (headers : list string)
    : list violation :=
  (if mem (intent plan) ["find"; "replace"] then [] else [BadIntent])
  ++ (match Re.compile (pattern plan) 0 with
      | Some _ => []
      | None => [PatternNotCompilable]
      end)
  ++ flat_map (fun f => if char_in f allowed then [] else [UnsupportedFlag f])
       (chars (flags plan))
  ++ (match columns plan with
      | Some ((_ :: _) as cs) =>
          let legit := map lower headers in
          match filter (fun c => negb (mem (lower c) legit)) cs with
          | [] => []
          | unknown => [UnknownColumns unknown]
          end
      | _ => []
      end)
  ++ (if String.eqb (intent plan) "replace" && is_empty (or_empty (replacement plan))
      then [ReplacementRequired] else [])
  ++ (match row_filter plan with
      | Some rf =>
          flat_map (fun groups =>
                      match groups with
                      | t :: _ => if mem t headers then [] else [UnknownFilterColumn t]
                      | [] => []
                      end)
            (Re.findall rx_backticked rf)
      | None => []
      end).

Inductive validation : Type :=
| Valid
| PlanValidationError (errors : list violation).

Definition _validate_plan (plan : RegexPlan) (headers : list string) : validation :=
  match validation_errors plan headers with
  | [] => Valid
  | errors => PlanValidationError errors
  end.

(** ** The rule-based planner *)

(** [FALLBACKS], in the order of the dictionary. *)
Definition FALLBACKS : list (string * string) :=
  [ ("email", "[A-Za-z0-9._%+-]+@[A-Za-z0-9.-]+\.[A-Za-z]{2,7}");
    ("phone", "\+?\d[\d\-\s()]{7,}\d");
    ("date", "(?:\d{4}[/-]\d{1,2}[/-]\d{1,2}|\d{1,2}[/-]\d{1,2}[/-]\d{2,4}|\d{4}\.\d{1,2}\.\d{1,2})");
    ("url", "https?://[^\s]+");
    ("postcode", "\b\d{4,6}\b") ].

(** [FALLBACKS[k]] for a key of the dictionary. *)
Definition fallback (k : string) : string :=
  match find (fun kv => String.eqb (fst kv) k) FALLBACKS with
  | Some kv => snd kv
  | None => EmptyString
  end.

(** [k[:-1]] *)
Definition but_last (k : string) : string := str (removelast (chars k)).

Definition _guess_pattern (instr : string) : string :=
  let l := lower instr in
  match find (fun kv => contains l (fst kv)
                        || (endswith (fst kv) "s" && contains l (but_last (fst kv))))
             FALLBACKS with
  | Some kv => snd kv
  | None => fallback "email"
  end.

(** [any(k in text for k in keys)] *)
Definition any_in (keys : list string) (text : string) : bool :=
  existsb (fun k => contains text k) keys.

Definition date_sentinel : string := "__DATE_NORMALIZE__(YYYY-MM-DD; dayfirst=auto)".

Definition rx_where : Re.regex :=
  Eval vm_compute in
    pattern_of ("(?i)\bwhere\s+([A-Za-z0-9_ ]+)\s*(?:=|==|:|\bis\b|\bequals?\b)\s*(['"
                ++ dq ++ "].+?['" ++ dq ++ "]|\d+)") 0.

(** [cols or None] *)
Definition none_if_nil (cols : list string) : option (list string) :=
  match cols with [] => None | _ => Some cols end.

(** The key words of [_rule_plan]. *)
Definition replace_words : list string := ["replace"; "redact"; "mask"; "anonym"].

Definition date_words : list string :=
  ["normalize date"; "normalise date"; "standardize date"; "standardise date";
   "unify date"].

Definition _rule_plan (instruction : string) (headers : list string)
    : RegexPlan * string :=
  let l := lower instruction in
  let intent := if any_in replace_words l then "replace" else "find" in
  let pattern := _guess_pattern l in
  if any_in date_words l
  then
    let cols :=
      filter (fun h => any_in ["date"; "time"; "dob"; "birth"; "created"; "updated";
                               "dt"; "timestamp"] (lower h)) headers in
    (Plan "replace" (fallback "date") "i" (none_if_nil cols) (Some date_sentinel) None,
     "fallback")
  else
    let pattern := _guess_pattern l in
    let cols :=
      filter (fun h => any_in ["email"; "mail"; "phone"; "mobile"; "date"; "time";
                               "url"; "link"; "note"; "comment"] (lower h)) headers in
    let row_filter :=
      match Re.search rx_where instruction with
      | Some mt =>
          let col := strip (Re.group_or_empty mt 1) in
          let val := strip (Re.group_or_empty mt 2) in
          if existsb (fun h => String.eqb (lower col) (lower h)) headers
          then Some (col ++ " == " ++ val) else None
      | None => None
      end in
    (Plan intent pattern "i" (none_if_nil cols) None row_filter, "fallback").

(** ** [_align_columns] *)

(** [canonical.get(key)] for [canonical = {h.lower(): h for h in headers}]:
    of the headers with the same lower-case form the last one stays. *)
Definition canonical (headers : list string) (key : string) : option string :=
  find (fun h => String.eqb (lower h) key) (rev headers).

Definition resolve (headers : list string) (c : string) : list string :=
  match canonical headers (lower c) with
  | Some h => [h]
  | None => []
  end.

Definition _align_columns (plan : RegexPlan) (headers : list string) : RegexPlan :=
  match columns plan with
  | Some ((_ :: _) as cs) =>
      match flat_map (resolve headers) cs with
      | [] => plan
      | mapped =>
          Plan (intent plan) (pattern plan) (flags plan) (Some mapped)
            (replacement plan) (row_filter plan)
      end
  | _ => plan
  end.

End PlanV2.

(* ================================================================== *)
(** * regex_executor.py *)
(* ================================================================== *)

Module RegexExecutor.
Import PyStr.

(** ** Data frames *)

(** The values of cells that are neither text nor null, and [float64]:
    they belong to pandas and to the float arithmetic of the machine. *)
Class Scalars : Type := {
  scalar : Type;
  scalar_str : scalar -> string;          (* the text of [astype("string")] *)
  num : Type;                             (* float64 without NaN *)
  scalar_num : scalar -> option num;      (* pd.to_numeric, [None] for NaN *)
  text_num : string -> option num;        (* pd.to_numeric(errors="coerce") on text *)
  literal_num : string -> num;            (* float(val) for a decimal literal *)
  num_le : num -> num -> bool;
  num_lt : num -> num -> bool
}.

Inductive cell {Sc : Scalars} : Type :=
| CNull                                   (* None, NaN, pd.NA *)
| CStr (s : string)
| CScalar (v : scalar).
Arguments CNull {Sc}.
Arguments CStr {Sc} s.
Arguments CScalar {Sc} v.

Record column {Sc : Scalars} : Type := Column {
  col_name : string;
  col_dtype : string;                     (* str(df[c].dtype) *)
  col_cells : list cell
}.
Arguments Column {Sc} col_name col_dtype col_cells.

(** A frame over the default [RangeIndex]: row [i] has label [i].  The
    names of the columns are distinct, as [pd.read_csv] makes them. *)
Record DataFrame {Sc : Scalars} : Type := Frame {
  df_columns : list column;
  df_len : nat                            (* len(df) *)
}.
Arguments Frame {Sc} df_columns df_len.

(** A boolean series aligned with the rows of the frame. *)
Definition mask : Type := list bool.

(** The engine behind [df.query(q, engine="python")]: the labels of the
    rows it selects, or the exception it raises. *)
Class QueryEngine {Sc : Scalars} : Type := {
  df_query : DataFrame -> string -> result (list nat)
}.

Section Frames.
Context {Sc : Scalars}.

(** Every column has one cell for each row. *)
Definition well_formed (df : DataFrame) : Prop :=
  Forall (fun c => List.length (col_cells c) = df_len df) (df_columns df).

(** [df.columns] *)
Definition headers (df : DataFrame) : list string := map col_name (df_columns df).

(** [df[c]] *)
Definition get_column (df : DataFrame) (c : string) : option column :=
  find (fun col => String.eqb (col_name col) c) (df_columns df).

(** [out[c] = series] for a column that is there. *)
Definition set_column (df : DataFrame) (c : string) (dtype : string)
    (cells : list cell) : DataFrame :=
  Frame (map (fun col => if String.eqb (col_name col) c
                         then Column c dtype cells else col)
             (df_columns df))
        (df_len df).

(** [df.at[i, c]] *)
Definition cell_at (df : DataFrame) (i : nat) (c : string) : option cell :=
  match get_column df c with
  | Some col => nth_error (col_cells col) i
  | None => None
  end.

(** One cell of [s.astype("string")]; [None] is [pd.NA]. *)
Definition text_of (x : cell) : option string :=
  match x with
  | CNull => None
  | CStr s => Some s
  | CScalar v => Some (scalar_str v)
  end.

Definition cell_of_text (t : option string) : cell :=
  match t with
  | Some s => CStr s
  | None => CNull
  end.

(** [_to_string] *)
Definition _to_string (s : list cell) : list (option string) := map text_of s.

(** One cell of [pd.to_numeric(s, errors="coerce")]. *)
Definition numeric_of (x : cell) : option num :=
  match x with
  | CNull => None
  | CStr s => text_num s
  | CScalar v => scalar_num v
  end.

(** [_to_numeric] *)
Definition _to_numeric (s : list cell) : list (option num) := map numeric_of s.

Definition all_true (df : DataFrame) : mask := repeat true (df_len df).
Definition all_false (df : DataFrame) : mask := repeat false (df_len df).

(** [a & b] and [a | b] on aligned series. *)
Definition mask_and (a b : mask) : mask := map (fun p => fst p && snd p) (combine a b).
Definition mask_or (a b : mask) : mask := map (fun p => fst p || snd p) (combine a b).

(** [int(mask.sum())] *)
Definition mask_sum (mk : mask) : nat := List.length (filter (fun b => b) mk).

(** [list(df.index[mask])]: the labels of the selected rows, in order. *)
Fixpoint labels_from (i : nat) (mk : mask) : list nat :=
  match mk with
  | [] => []
  | b :: tl => if b then i :: labels_from (S i) tl else labels_from (S i) tl
  end.

Definition selected (mk : mask) : list nat := labels_from 0 mk.

(** [df.index.to_series().isin(labels)] *)
Definition isin (df : DataFrame) (labels : list nat) : mask :=
  map (fun i => existsb (Nat.eqb i) labels) (seq 0 (df_len df)).

(** ** Columns and flags *)

Definition text_columns (df : DataFrame) : list string :=
  map col_name
    (filter (fun c => String.eqb (col_dtype c) "object" || startswith (col_dtype c) "string")
            (df_columns df)).

Definition _auto_columns (df : DataFrame) (intent pattern : string)
    (columns : option (list string)) : list string :=
  match columns with
  | Some ((_ :: _) as cs) => cs
  | _ =>
      if String.eqb (lower intent) "replace" && String.eqb pattern "^.*$"
      then headers df
      else text_columns df
  end.

Definition flag_bit (ch : ascii) : Z :=
  if Ascii.eqb ch "i" then Re.IGNORECASE
  else if Ascii.eqb ch "m" then Re.MULTILINE
  else if Ascii.eqb ch "s" then Re.DOTALL
  else if Ascii.eqb ch "x" then Re.VERBOSE
  else 0%Z.

Definition _compile_flags (flags : string) : Z :=
  if is_empty flags then Re.IGNORECASE
  else
    let f := fold_left (fun f ch => Z.lor f (flag_bit ch)) (chars flags) 0%Z in
    if (f =? 0)%Z then Re.IGNORECASE else f.

(** ** Row-filter normalization *)

(** [sorted(headers, key=len, reverse=True)]: the sort is stable. *)
Fixpoint insert_by_length (h : string) (l : list string) : list string :=
  match l with
  | [] => [h]
  | x :: tl =>
      if String.length x <=? String.length h then h :: l
      else x :: insert_by_length h tl
  end.

Definition longest_first (hs : list string) : list string :=
  fold_right insert_by_length [] hs.

(** [re.sub(pattern, repl, q)] on pattern text: both the pattern and the
    template can be refused. *)
Definition re_sub (pattern repl q : string) : result string :=
  match Re.compile pattern 0 with
  | None => Raise ReError
  | Some rx =>
      match Re.sub rx repl q with
      | Some q' => Ok q'
      | None => Raise ReError
      end
  end.

Definition quoted_column_pattern (col : string) : string :=
  "(?<!`)([" ++ dq ++ "'])" ++ Re.escape col ++ "\1(?!`)".

Definition bare_column_pattern (col : string) : string :=
  "(?<![`" ++ dq ++ "\w])" ++ Re.escape col ++
  "(?=\s*(?:\.str\b|\.astype\b|\.isin\b|\)|\]|\b(?:in|not\s+in)\b|==|!=|>=|<=|>|<))".

Definition backticked (col : string) : string := "`" ++ col ++ "`".

Definition rx_raw_first_arg : Re.regex :=
  Eval vm_compute in
    pattern_of ("(\.str\.(?:contains|match|fullmatch|replace)\(\s*)(['" ++ dq ++ "])") 0.

Definition rx_astype_str : Re.regex :=
  Eval vm_compute in pattern_of "\.astype\(\s*str\s*\)" 0.

Definition rx_astype_quoted_str : Re.regex :=
  Eval vm_compute in
    pattern_of ("\.astype\(\s*[" ++ dq ++ "']str[" ++ dq ++ "']\s*\)") 0.

Definition rx_case_after : Re.regex :=
  Eval vm_compute in pattern_of "\s*,\s*case\s*=\s*(?:True|False)" 0.

Definition rx_case_before : Re.regex :=
  Eval vm_compute in pattern_of "case\s*=\s*(?:True|False)\s*,\s*" 0.

Definition rx_prefix_call : Re.regex :=
  Eval vm_compute in
    pattern_of "(?P<prefix>\.str\.(?:startswith|endswith))\(\s*(?P<inner>[^)]*?)\)" 0.

(** A substitution whose template is known to be accepted. *)
Definition sub_total (rx : Re.regex) (repl text : string) : string :=
  match Re.sub rx repl text with
  | Some t => t
  | None => text
  end.

Definition _strip_case_for_prefix (mt : Re.rmatch) : string :=
  let inner := Re.group_or_empty mt 2 in
  let inner2 := sub_total rx_case_after EmptyString inner in
  let inner2 := sub_total rx_case_before EmptyString inner2 in
  Re.group_or_empty mt 1 ++ "(" ++ inner2 ++ ")".

Fixpoint fold_subs (pat : string -> string) (cols : list string) (q : string)
    : result string :=
  match cols with
  | [] => Ok q
  | col :: tl => q' <- re_sub (pat col) (backticked col) q ;; fold_subs pat tl q'
  end.

Definition _normalize_row_filter (query : string) (hs : list string) : result string :=
  if is_empty query then Ok query
  else
    q <- fold_subs quoted_column_pattern (longest_first hs) query ;;
    q <- fold_subs bare_column_pattern (longest_first hs) q ;;
    let q := sub_total rx_raw_first_arg "\1r\2" q in
    let q := sub_total rx_astype_str ".astype('string')" q in
    let q := sub_total rx_astype_quoted_str ".astype('string')" q in
    Ok (Re.sub_fn rx_prefix_call _strip_case_for_prefix q).

End Frames.

(** ** The clause parser (third tier) *)

Section Clauses.
Context {Sc : Scalars}.

Definition rx_equality : Re.regex :=
  Eval vm_compute in pattern_of ("`([^`]+)`\s*==\s*(['" ++ dq ++ "])(.*?)\2") 0.

Definition rx_numeric : Re.regex :=
  Eval vm_compute in
    pattern_of "`([^`]+)`\s*(>=|<=|>|<)\s*([0-9]+(?:\.[0-9]+)?)" 0.

Definition str_op_pat : Re.regex :=
  Eval vm_compute in
    pattern_of
      ("`(?P<col>[^`]+)`\s*" ++
       "(?:\.astype\(\s*(?:str|[" ++ dq ++ "'](?:str|string)[" ++ dq ++ "'])\s*\))?\s*" ++
       "\.str\.(?P<op>contains|match|fullmatch|startswith|endswith)\(" ++
       "\s*r?(?P<q>[" ++ dq ++ "'])(?P<pat>.*?)(?P=q)" ++
       "(?:\s*,\s*case\s*=\s*(?P<case>True|False))?" ++
       "(?:\s*,\s*na\s*=\s*(?P<na>True|False))?" ++
       "\s*\)")
      Re.IGNORECASE.

(** [_and] *)
Definition _and (acc : option mask) (cur : mask) : mask :=
  match acc with
  | None => cur
  | Some a => mask_and a cur
  end.

(** [s.str.casefold().eq(val.casefold()).fillna(False)] *)
Definition eq_casefold (val : string) (s : list (option string)) : mask :=
  map (fun t => match t with
                | Some x => String.eqb (casefold x) (casefold val)
                | None => false
                end) s.

Definition equality_clause (df : DataFrame) (acc : option mask)
    (groups : list string) : option mask :=
  match groups with
  | [col; _; val] =>
      match get_column df col with
      | Some c => Some (_and acc (eq_casefold val (_to_string (col_cells c))))
      | None => acc
      end
  | _ => acc
  end.

(** [s.notna() & (s op float(val))] *)
Definition compare_num (op val : string) (s : list (option num)) : mask :=
  let v := literal_num val in
  map (fun t => match t with
                | Some x =>
                    if String.eqb op ">=" then num_le v x
                    else if String.eqb op "<=" then num_le x v
                    else if String.eqb op ">" then num_lt v x
                    else num_lt x v
                | None => false
                end) s.

Definition numeric_clause (df : DataFrame) (acc : option mask)
    (groups : list string) : option mask :=
  match groups with
  | [col; op; val] =>
      match get_column df col with
      | Some c => Some (_and acc (compare_num op val (_to_numeric (col_cells c))))
      | None => acc
      end
  | _ => acc
  end.

(** [s.str.contains], [s.str.match] and [s.str.fullmatch] with [case] and
    [na]: the pattern is compiled first, which can raise. *)
Definition str_regex_op (op pat : string) (case na : bool)
    (s : list (option string)) : result mask :=
  match Re.compile pat (if case then 0%Z else Re.IGNORECASE) with
  | None => Raise ReError
  | Some rx =>
      let test (x : string) : bool :=
        if String.eqb op "contains" then
          match Re.search rx x with Some _ => true | None => false end
        else if String.eqb op "match" then
          match Re.re_match rx x with Some _ => true | None => false end
        else
          match Re.fullmatch rx x with Some _ => true | None => false end in
      Ok (map (fun t => match t with Some x => test x | None => na end) s)
  end.

(** [s.str.startswith(pat, na=na)] and [endswith], on the series as it
    is or lower-cased. *)
Definition str_affix_op (ends case na : bool) (pat : string)
    (s : list (option string)) : mask :=
  let test (x : string) : bool :=
    let x := if case then x else lower x in
    let p := if case then pat else lower pat in
    if ends then endswith x p else startswith x p in
  map (fun t => match t with Some x => test x | None => na end) s.

Definition str_clause (df : DataFrame) (acc : option mask) (mt : Re.rmatch)
    : option mask :=
  let col := Re.group_or_empty mt 1 in
  let op := lower (Re.group_or_empty mt 2) in
  let pat := Re.group_or_empty mt 4 in
  let case_s := lower (Re.group_or_empty mt 5) in
  let na_s := lower (Re.group_or_empty mt 6) in
  match get_column df col with
  | None => acc
  | Some c =>
      let case := if is_empty case_s then false else String.eqb case_s "true" in
      let na := if is_empty na_s then false else String.eqb na_s "true" in
      let s := _to_string (col_cells c) in
      let cur :=
        if String.eqb op "contains" || String.eqb op "match" || String.eqb op "fullmatch"
        then str_regex_op op pat case na s
        else Ok (str_affix_op (String.eqb op "endswith") case na pat s) in
      match cur with
      | Ok cur => Some (_and acc cur)
      | Raise _ => acc                       (* the clause is skipped *)
      end
  end.

Definition _mask_from_clauses (df : DataFrame) (q : string) : option mask :=
  let mk := fold_left (equality_clause df) (Re.findall rx_equality q) None in
  let mk := fold_left (numeric_clause df) (Re.findall rx_numeric q) mk in
  fold_left (str_clause df) (Re.finditer str_op_pat q) mk.

Definition rx_has_equality : Re.regex :=
  Eval vm_compute in pattern_of ("`[^`]+`\s*==\s*(['" ++ dq ++ "])(.*?)\1") 0.

Definition _has_string_equality (q : string) : bool :=
  match Re.search rx_has_equality q with Some _ => true | None => false end.

End Clauses.

(** ** Splitting on the top-level [or] *)

Definition rx_or : Re.regex := Eval vm_compute in pattern_of "(?i)\bor\b" 0.
Definition rx_and : Re.regex := Eval vm_compute in pattern_of "(?i)\band\b" 0.

(** The variables of the loop of [_split_top_level]; [todo] is
    [expr[i:]], the buffer and the parts are kept newest first. *)
Record split_state : Type := SplitState {
  todo : list ascii;
  buf : list ascii;
  out : list string;
  depth : nat;
  in_s : bool;
  in_d : bool
}.

(** ["".join(buf).strip()] *)
Definition flush (b : list ascii) : string := str (strip_chars (rev b)).

(** One turn of the [while] loop. *)
Definition split_step (rx : Re.regex) (st : split_state) : split_state :=
  match todo st with
  | [] => st
  | ch :: tl =>
      let keep := SplitState tl (ch :: buf st) (out st) in
      match Ascii.eqb ch "\", tl with
      | true, c2 :: tl2 =>
          SplitState tl2 (c2 :: ch :: buf st) (out st) (depth st) (in_s st) (in_d st)
      | _, _ =>
          if negb (in_d st) && Ascii.eqb ch "'" then
            keep (depth st) (negb (in_s st)) (in_d st)
          else if negb (in_s st) && Ascii.eqb ch dquote then
            keep (depth st) (in_s st) (negb (in_d st))
          else if negb (in_s st) && negb (in_d st) then
            let depth' :=
              if Ascii.eqb ch "(" then S (depth st)
              else if Ascii.eqb ch ")" && (0 <? depth st) then depth st - 1
              else depth st in
            match Re.re_match rx (str (todo st)) with
            | Some mt =>
                if depth' =? 0
                then SplitState (skipn (Re.m_end mt) (todo st)) []
                       (flush (buf st) :: out st) depth' (in_s st) (in_d st)
                else keep depth' (in_s st) (in_d st)
            | None => keep depth' (in_s st) (in_d st)
            end
          else keep (depth st) (in_s st) (in_d st)
      end
  end.

Fixpoint split_loop (fuel : nat) (rx : Re.regex) (st : split_state) : split_state :=
  match fuel with
  | 0 => st
  | S f =>
      match todo st with
      | [] => st
      | _ => split_loop f rx (split_step rx st)
      end
  end.

(** [_split_top_level(expr, "or")] *)
Definition _split_top_level (expr : string) : list string :=
  let st := split_loop (String.length expr) rx_or
              (SplitState (chars expr) [] [] 0 false false) in
  filter (fun p => negb (is_empty p)) (rev (flush (buf st) :: out st)).

(** ** Query evaluators *)

Section Evaluators.
Context {Sc : Scalars} {Q : QueryEngine}.

(** [df.index.to_series().isin(df.query(q).index)], then the zero-hit
    fallback of the first two tiers. *)
Definition strict_tier (df : DataFrame) (q used path path_zero : string)
    (idx : list nat) : mask * string * string :=
  let mk := isin df idx in
  let plain := (mk, path, used) in
  if (mask_sum mk =? 0) && _has_string_equality q then
    match _mask_from_clauses df q with
    | Some m_ci => (m_ci, path_zero, used)
    | None => plain
    end
  else plain.

(** The [and]/[or] to [&]/[|] rewrite of the second tier. *)
Definition rewrite_operators (q : string) : string :=
  sub_total rx_or "|" (sub_total rx_and "&" q).

(** [_eval_basic_query]: (mask, path_tag, used_query). *)
Definition _eval_basic_query (df : DataFrame) (q : string) : mask * string * string :=
  match df_query df q with
  | Ok idx => strict_tier df q q "query" "query_zero_and_fallback" idx
  | Raise _ =>
      let rew := rewrite_operators q in
      match df_query df rew with
      | Ok idx =>
          strict_tier df q rew "query_rewrite" "query_rewrite_zero_and_fallback" idx
      | Raise _ =>
          match _mask_from_clauses df q with
          | Some mk => (mk, "fallback_and", q)
          | None => (all_true df, "all_false", q)
          end
      end
  end.

(** ** Row numbers *)

Definition _ROWNUM_RE : Re.regex :=
  Eval vm_compute in
    pattern_of "(?i)(?:`?__rownum__`?|row(?:_?number)?|index)\s*==\s*(\d+)" 0.

(** [int(m.group(1))], which the interpreter refuses beyond 4300 digits. *)
Definition rownum_of (mt : Re.rmatch) : list nat :=
  let digits := chars (Re.group_or_empty mt 1) in
  if 4300 <? List.length digits then [] else [int_of_digits digits].

Definition _remove_rownum_clauses (expr : string) : string * list nat :=
  (Re.sub_fn _ROWNUM_RE (fun _ => " True ") expr,
   flat_map rownum_of (Re.finditer _ROWNUM_RE expr)).

(** The rows at the 1-based positions [rownums] of [labels]; a position
    outside the list is skipped. *)
Definition pick (labels : list nat) (rownums : list nat) : list nat :=
  flat_map (fun n =>
              if 1 <=? n then
                match nth_error labels (n - 1) with
                | Some lbl => [lbl]
                | None => []
                end
              else []) rownums.

(** [df.index.to_series().isin(picks) if picks else pd.Series(False, ...)] *)
Definition picked_mask (df : DataFrame) (picks : list nat) : mask :=
  match picks with
  | [] => all_false df
  | _ => isin df picks
  end.

Definition _mask_group_with_rownum (df : DataFrame) (group_expr : string)
    : mask * string :=
  let (expr_wo_rn, rownums) := _remove_rownum_clauses group_expr in
  let expr_wo_rn := or_else (strip expr_wo_rn) "True" in
  let '(base_mask, path, _) := _eval_basic_query df expr_wo_rn in
  match rownums with
  | [] => (base_mask, path)
  | _ =>
      if String.eqb (lower expr_wo_rn) "true" then
        (picked_mask df (pick (seq 0 (df_len df)) rownums), "rownum_only")
      else
        (picked_mask df (pick (selected base_mask) rownums), path ++ "+rownum")
  end.

(** The union of the group masks, in the order of the groups. *)
Fixpoint union_groups (df : DataFrame) (acc : option mask) (parts : list string)
    : option mask :=
  match parts with
  | [] => acc
  | part :: tl =>
      let mk := fst (_mask_group_with_rownum df part) in
      union_groups df (Some (match acc with
                             | None => mk
                             | Some a => mask_or a mk
                             end)) tl
  end.

Definition _mask_from_query_with_rownum (df : DataFrame) (norm : string) : mask :=
  let parts :=
    match _split_top_level norm with
    | [] => [norm]
    | ps => ps
    end in
  match union_groups df None parts with
  | None => all_true df
  | Some acc => acc
  end.

Definition rx_single_equality : Re.regex :=
  Eval vm_compute in
    pattern_of ("\s*`?([A-Za-z0-9_ ]+)`?\s*==\s*['" ++ dq ++ "](.+?)['" ++ dq ++ "]\s*") 0.

(** The soft-recall pass: the whole query is one [col == 'value']. *)
Definition soft_recall (df : DataFrame) (query : string) : option mask :=
  match Re.fullmatch rx_single_equality query with
  | Some mt =>
      let col := strip (Re.group_or_empty mt 1) in
      let val := Re.group_or_empty mt 2 in
      match get_column df col with
      | Some c => Some (eq_casefold val (_to_string (col_cells c)))
      | None => None
      end
  | None => None
  end.

Definition _ensure_mask_from_query (df : DataFrame) (query : option string)
    : result mask :=
  match query with
  | None => Ok (all_true df)
  | Some query =>
      if is_empty (strip query) then Ok (all_true df)
      else
        norm <- _normalize_row_filter query (headers df) ;;
        let mk := _mask_from_query_with_rownum df norm in
        if mask_sum mk =? 0 then
          match soft_recall df query with
          | Some m => Ok m
          | None => Ok mk
          end
        else Ok mk
  end.

(** [_mask_from_expr_with_or]: the evaluator without row numbers. *)
Definition _mask_from_expr_with_or (df : DataFrame) (q : string) : option mask :=
  match _split_top_level q with
  | [] => Some (fst (fst (_eval_basic_query df q)))
  | parts =>
      let '(acc, any_part) :=
        fold_left
          (fun (st : option mask * bool) part =>
             let m := fst (fst (_eval_basic_query df (or_else (strip part) "True"))) in
             (Some (match fst st with
                    | None => m
                    | Some a => mask_or a m
                    end), true))
          parts (None, false) in
      if any_part then acc else None
  end.

End Evaluators.

(** ** The display regex derived from a row filter *)

Definition _MATCH_ALL_RE : Re.regex :=
  Eval vm_compute in pattern_of "^\s*\^?\.\*\$?\s*$" 0.

Definition is_match_all (pattern : string) : bool :=
  match Re.re_match _MATCH_ALL_RE pattern with Some _ => true | None => false end.

Definition rx_escaped_space : Re.regex := Eval vm_compute in pattern_of "\\\s+" 0.

Definition _loose_token_regex (token : string) : string :=
  sub_total rx_escaped_space "[-_.:/\\s]*" (Re.escape token).

(** The pattern of the string predicates as the function writes it: its
    back-reference is [\2], the group of the operator name. *)
Definition rx_display_str_op : Re.regex :=
  Eval vm_compute in
    pattern_of
      ("`([^`]+)`\s*" ++
       "(?:\.astype\(\s*(?:str|[" ++ dq ++ "'](?:str|string)[" ++ dq ++ "'])\s*\))?\s*" ++
       "\.str\.(contains|match|fullmatch|startswith|endswith)\(" ++
       "\s*(['" ++ dq ++ "])(.*?)\2.*?\)")
      0.

Definition rx_display_numeric : Re.regex :=
  Eval vm_compute in
    pattern_of "`([^`]+)`\s*(?:>=|<=|>|<)\s*([0-9]+(?:\.[0-9]+)?)" 0.

(** Order-preserving removal of duplicates. *)
Fixpoint dedup (seen l : list string) : list string :=
  match l with
  | [] => []
  | c :: tl => if mem c seen then dedup seen tl else c :: dedup (c :: seen) tl
  end.

Definition str_op_token (groups : list string) : list string :=
  match groups with
  | [_; op; _; val] =>
      if is_empty val then []
      else if String.eqb op "startswith" then ["^" ++ Re.escape val]
      else if String.eqb op "endswith" then [Re.escape val ++ "$"]
      else if String.eqb op "match" || String.eqb op "fullmatch" then [val]
      else [_loose_token_regex val]
  | _ => []
  end.

Definition equality_token (groups : list string) : list string :=
  match groups with
  | [_; _; val] => if is_empty val then [] else [Re.escape val]
  | _ => []
  end.

Definition first_group (groups : list string) : list string :=
  match groups with
  | col :: _ => [col]
  | [] => []
  end.

Definition _display_regex_and_columns_from_row_filter (row_filter : option string)
    : option string * list string :=
  match row_filter with
  | None => (None, [])
  | Some q =>
      if is_empty q then (None, [])
      else
        let ops := Re.findall rx_display_str_op q in
        let eqs := Re.findall rx_equality q in
        let nums := Re.findall rx_display_numeric q in
        let tokens := (flat_map str_op_token ops ++ flat_map equality_token eqs)%list in
        let cols := dedup [] (flat_map first_group (ops ++ eqs ++ nums)%list) in
        match tokens with
        | [] => (None, cols)
        | _ => (Some ("(?:" ++ join "|" tokens ++ ")"), cols)
        end
  end.

(** ** Highlighting *)

(** [html.escape] *)
Definition html_escape (s : string) : string :=
  concat (map (fun c =>
                 if Ascii.eqb c "&" then "&amp;"
                 else if Ascii.eqb c "<" then "&lt;"
                 else if Ascii.eqb c ">" then "&gt;"
                 else if Ascii.eqb c dquote then "&quot;"
                 else if Ascii.eqb c "'" then "&#x27;"
                 else String c EmptyString) (chars s)).

Fixpoint highlight_pieces (text : list ascii) (last : nat) (ms : list Re.rmatch)
    : list string :=
  match ms with
  | [] => [html_escape (str (skipn last text))]
  | mt :: tl =>
      html_escape (str (Re.slice text (last, Re.m_start mt)))
      :: "<mark>"
      :: html_escape (str (Re.slice text (Re.m_start mt, Re.m_end mt)))
      :: "</mark>"
      :: highlight_pieces text (Re.m_end mt) tl
  end.

Section Execution.
Context {Sc : Scalars} {Q : QueryEngine}.

(** [_highlight_html].  A null cell is the [None] or the float NaN of a
    frame as it is read from a file, which the function takes as missing;
    the [pd.NA] of a string column, which it would render as the text
    [<NA>], does not occur in such a frame. *)
Definition _highlight_html (text : option cell) (rx : Re.regex) : string * nat :=
  match text with
  | None | Some CNull => (EmptyString, 0)
  | Some x =>
      let s := match text_of x with Some t => t | None => EmptyString end in
      let ms := Re.finditer rx s in
      (concat (highlight_pieces (chars s) 0 ms), List.length ms)
  end.

(** ** The payload *)

Record example : Type := Example_ {
  ex_index : nat;
  ex_cells : list (string * (nat * string))   (* column, count, html *)
}.

Record payload : Type := Payload {
  mode : string;
  regex : string;
  regex_source : string;
  display_regex : option string;
  display_regex_source : option string;
  display_columns : option (list string);       (* replace only *)
  flags_applied : string;
  columns_applied : list string;
  row_filter_given : option string;
  row_filter_normalized : option string;
  mask_row_indices : list nat;
  total_count : nat;                            (* total_matches, replacements *)
  per_column : list (string * nat);
  changed_row_indices : list nat;
  head_hit_row_indices : list nat;
  examples : list example;                      (* find only *)
  head : list (list (string * cell));
  result_rows_description : string;
  result_rows_count : nat;
  result_rows_indices : list nat
}.

(** The [DATE_NORMALIZE] branch of [execute_plan], from its sentinel test
    to its [return]: it is kept apart from the properties below, which
    are about the other two branches. *)
Class DateBranch : Type := {
  date_normalize_replace :
    DataFrame -> string -> string -> option (list string) -> string ->
    option string -> option string -> nat -> result (DataFrame * payload)
}.
Context {D : DateBranch}.

Definition filter_and_pattern : string :=
  "Result rows = rows where row_filter is true AND at least one of the selected columns matches the pattern.".

Definition filter_only : string := "Result rows = rows where row_filter is true.".

(** [d[k] = v] on an insertion-ordered dictionary. *)
Fixpoint dict_set {V : Type} (d : list (string * V)) (k : string) (v : V)
    : list (string * V) :=
  match d with
  | [] => [(k, v)]
  | (k', v') :: tl =>
      if String.eqb k' k then (k, v) :: tl else (k', v') :: dict_set tl k v
  end.

(** [set.add] on a set of labels kept sorted. *)
Fixpoint set_add (x : nat) (l : list nat) : list nat :=
  match l with
  | [] => [x]
  | y :: tl =>
      if x <? y then x :: l
      else if x =? y then l
      else y :: set_add x tl
  end.

Definition set_update (l : list nat) (xs : list nat) : list nat :=
  fold_left (fun acc x => set_add x acc) xs l.

(** [df.head(n).to_dict(orient="records")] *)
Definition head_records (df : DataFrame) (n : nat) : list (list (string * cell)) :=
  map (fun i =>
         map (fun c => (col_name c, nth i (col_cells c) CNull)) (df_columns df))
      (seq 0 (Nat.min n (df_len df))).

(** [ser.str.count(rx).fillna(0)] on the rows of the mask: the count of
    every row, zero outside the mask. *)
Definition masked_counts (rx : Re.regex) (mk : mask) (cells : list cell) : list nat :=
  map (fun p : bool * cell =>
         if fst p then
           match text_of (snd p) with
           | Some t => Re.count rx t
           | None => 0
           end
         else 0)
      (combine mk cells).

Definition total_of (counts : list nat) : nat := fold_left Nat.add counts 0.

(** [counts[counts > 0].index] *)
Definition hit_rows (counts : list nat) : list nat :=
  selected (map (fun n => 0 <? n) counts).

(** ** The find branch *)

Record find_acc : Type := FindAcc {
  fa_total : nat;
  fa_per_col : list (string * nat);
  fa_changed : list nat
}.

Definition find_column (rx : Re.regex) (df : DataFrame) (mk : mask)
    (acc : find_acc) (c : string) : result find_acc :=
  match get_column df c with
  | None => Raise KeyError
  | Some col =>
      let counts := masked_counts rx mk (col_cells col) in
      let n := total_of counts in
      Ok (FindAcc (fa_total acc + n) (dict_set (fa_per_col acc) c n)
            (if 0 <? n then set_update (fa_changed acc) (hit_rows counts)
             else fa_changed acc))
  end.

Fixpoint foldM {A B : Type} (f : A -> B -> result A) (l : list B) (a : A) : result A :=
  match l with
  | [] => Ok a
  | x :: tl => a' <- f a x ;; foldM f tl a'
  end.

Definition example_of (rx : Re.regex) (df : DataFrame) (cols : list string)
    (ridx : nat) : list example :=
  let cells :=
    fold_left (fun ex c =>
                 let raw := if ridx <? df_len df then cell_at df ridx c else None in
                 let (html_text, cell_cnt) := _highlight_html raw rx in
                 if 0 <? cell_cnt then dict_set ex c (cell_cnt, html_text) else ex)
              cols [] in
  match cells with
  | [] => []
  | _ => [Example_ ridx cells]
  end.

(** ** Plain replacement *)

(** [s_mask.str.replace(rx_replace, rep, regex=True)] written back with
    [col_all.loc[mask] = ...]: a null cell stays null, a cell outside the
    mask keeps its text. *)
Definition replace_cell (rx : Re.regex) (rep : string) (p : bool * cell)
    : result cell :=
  match p with
  | (true, x) =>
      match text_of x with
      | Some t =>
          match Re.sub rx rep t with
          | Some t' => Ok (CStr t')
          | None => Raise ReError
          end
      | None => Ok CNull
      end
  | (false, x) => Ok (cell_of_text (text_of x))
  end.

Record replace_acc : Type := ReplaceAcc {
  ra_out : DataFrame;
  ra_total : nat;
  ra_per_col : list (string * nat);
  ra_changed : list nat
}.

Definition replace_column (rx : Re.regex) (rep : string) (mk : mask)
    (acc : replace_acc) (c : string) : result replace_acc :=
  match get_column (ra_out acc) c with
  | None => Raise KeyError
  | Some col =>
      let counts := masked_counts rx mk (col_cells col) in
      let n := total_of counts in
      let per_col := dict_set (ra_per_col acc) c n in
      if 0 <? n then
        cells <- mapM (replace_cell rx rep) (combine mk (col_cells col)) ;;
        Ok (ReplaceAcc (set_column (ra_out acc) c "string" cells)
              (ra_total acc + n) per_col
              (set_update (ra_changed acc) (hit_rows counts)))
      else Ok (ReplaceAcc (ra_out acc) (ra_total acc + n) per_col (ra_changed acc))
  end.

(** ** [execute_plan] *)

Definition is_date_sentinel (sentinel : string) : bool :=
  startswith sentinel "__DATE_NORMALIZE__(" && endswith sentinel ")".

(** [[c for c in disp_cols if c in df.columns]] *)
Definition known_columns (df : DataFrame) (cs : list string) : list string :=
  filter (fun c => mem c (headers df)) cs.

Definition is_none {A : Type} (x : option A) : bool :=
  match x with None => true | Some _ => false end.

Definition nonempty {A : Type} (l : list A) : bool :=
  match l with [] => false | _ => true end.

Definition execute_plan (df : DataFrame) (intent pattern flags : string)
    (columns : option (list string)) (replacement row_filter : option string)
    (head_n : nat) : result (DataFrame * payload) :=
  let is_find := String.eqb (lower intent) "find" in
  let is_replace := String.eqb (lower intent) "replace" in
  let pattern := if is_empty pattern && is_find then "^.*$" else pattern in
  mk <- _ensure_mask_from_query df row_filter ;;
  let cols := _auto_columns df intent pattern columns in
  norm_row_filter <-
    match row_filter with
    | Some rf =>
        if is_empty rf then Ok None
        else (n <- _normalize_row_filter rf (headers df) ;; Ok (Some n))
    | None => Ok None
    end ;;
  let sentinel := PlanV2.or_empty replacement in
  let is_date_normalize := is_date_sentinel sentinel in
  (* find: the regex and the columns may come from the row filter *)
  let '(disp_rx, disp_cols) :=
    _display_regex_and_columns_from_row_filter norm_row_filter in
  let adopt :=
    is_find && (is_empty pattern || is_match_all pattern) && negb (is_none disp_rx) in
  let row_filter_only_hits := adopt in
  let use_pattern :=
    match adopt, disp_rx with
    | true, Some rx => rx
    | _, _ => pattern
    end in
  let regex_source := if adopt then "row_filter-derived" else "regex" in
  let cols :=
    if adopt && is_none columns && nonempty disp_cols
    then known_columns df disp_cols else cols in
  let '(display_regex, display_regex_source) :=
    if is_find then
      match disp_rx with
      | Some rx => (Some rx, Some "row_filter-derived")
      | None => (Some use_pattern, Some regex_source)
      end
    else (None, None) in
  (* replace: only the display may come from the row filter *)
  let derive_display :=
    is_replace && negb is_date_normalize
    && negb (is_empty (PlanV2.or_empty norm_row_filter))
    && (is_empty pattern || is_match_all pattern) && negb (is_none disp_rx) in
  let '(display_regex, display_regex_source) :=
    if is_replace then
      if derive_display then (disp_rx, Some "row_filter-derived")
      else if is_empty use_pattern then (display_regex, display_regex_source)
      else (Some use_pattern, Some "regex")
    else (display_regex, display_regex_source) in
  let display_columns :=
    if derive_display && is_none columns && nonempty disp_cols
    then known_columns df disp_cols else cols in
  let use_pattern := if is_empty use_pattern then "^.*$" else use_pattern in
  match Re.compile use_pattern (_compile_flags flags) with
  | None => Raise ReError
  | Some rx =>
      let mask_idx_ints := firstn 2000 (selected mk) in
      if is_find then
        acc <- foldM (find_column rx df mk) cols (FindAcc 0 [] []) ;;
        let examples :=
          flat_map (example_of rx df cols) (firstn 50 (fa_changed acc)) in
        let changed_rows :=
          if row_filter_only_hits then selected mk else fa_changed acc in
        Ok (df,
            Payload "find" use_pattern regex_source display_regex display_regex_source
              None flags cols row_filter norm_row_filter mask_idx_ints
              (fa_total acc) (fa_per_col acc)
              (firstn 2000 changed_rows)
              (filter (fun i => i <? head_n) changed_rows)
              examples (head_records df head_n)
              (if row_filter_only_hits then filter_only else filter_and_pattern)
              (List.length changed_rows)
              (firstn 2000 changed_rows))
      else if is_replace && is_date_normalize then
        date_normalize_replace df pattern flags columns sentinel row_filter
          norm_row_filter head_n
      else
        let rep := PlanV2.or_empty replacement in
        acc <- foldM (replace_column rx rep mk) cols (ReplaceAcc df 0 [] []) ;;
        Ok (ra_out acc,
            Payload "replace" use_pattern regex_source display_regex
              display_regex_source (Some display_columns) flags cols row_filter
              norm_row_filter mask_idx_ints
              (ra_total acc) (ra_per_col acc)
              (firstn 2000 (ra_changed acc))
              (filter (fun i => i <? head_n) (ra_changed acc))
              [] (head_records (ra_out acc) head_n)
              filter_and_pattern
              (List.length (ra_changed acc))
              (firstn 2000 (ra_changed acc)))
  end.

End Execution.

(** ** A frame of text and integers, and a small strict engine

    They serve to run the model: integers for the scalars, rationals for
    their numeric values, and an engine that evaluates one comparison
    [`col` == 'text'] exactly and raises on any other expression. *)

Definition rx_decimal : Re.regex :=
  Eval vm_compute in pattern_of "([+-]?)(\d+)(?:\.(\d+))?" 0.

Definition decimal (s : string) : option Q :=
  match Re.fullmatch rx_decimal (strip s) with
  | Some mt =>
      let whole := Z.of_nat (int_of_digits (chars (Re.group_or_empty mt 2))) in
      let frac := chars (Re.group_or_empty mt 3) in
      let scale := Pos.pow 10 (Pos.of_nat (List.length frac)) in
      let q :=
        match frac with
        | [] => inject_Z whole
        | _ => Qmake (whole * Z.pos scale + Z.of_nat (int_of_digits frac)) scale
        end in
      Some (if String.eqb (Re.group_or_empty mt 1) "-" then Qopp q else q)
  | None => None
  end.

#[export] Instance integer_scalars : Scalars := {
  scalar := Z;
  scalar_str := str_of_Z;
  num := Q;
  scalar_num := fun z => Some (inject_Z z);
  text_num := decimal;
  literal_num := fun s => match decimal s with Some q => q | None => 0%Q end;
  num_le := Qle_bool;
  num_lt := fun a b => negb (Qle_bool b a)
}.

Definition rx_strict_equality : Re.regex :=
  Eval vm_compute in pattern_of "\s*`([^`]+)`\s*==\s*'([^']*)'\s*" 0.

Definition strict_equality (df : DataFrame) (q : string) : result (list nat) :=
  match Re.fullmatch rx_strict_equality q with
  | Some mt =>
      match get_column df (Re.group_or_empty mt 1) with
      | Some c =>
          Ok (selected (map (fun x => match x with
                                      | CStr t => String.eqb t (Re.group_or_empty mt 2)
                                      | _ => false
                                      end) (col_cells c)))
      | None => Raise KeyError
      end
  | None => Raise ValueError
  end.

#[export] Instance equality_engine : QueryEngine := {
  df_query := strict_equality
}.

(** A build without the date branch. *)
#[export] Instance no_date_branch : DateBranch := {
  date_normalize_replace := fun _ _ _ _ _ _ _ _ => Raise NameError
}.

(** A frame with a column named after a Windows directory, and a frame of
    two names. *)
Definition path_frame {Sc : Scalars} : DataFrame :=
  Frame [Column "C:\dir" "object" [CStr "1"; CStr "2"]] 2.

Definition names_frame {Sc : Scalars} : DataFrame :=
  Frame [Column "Name" "object" [CStr "Alice"; CStr "Bob"]] 2.

(** A small frame, with a null cell and a cell of two lines. *)
Definition people : DataFrame :=
  Frame
    [ Column "Name" "object"
        [CStr "Alice"; CStr "Bob"; CNull; CStr ("Car" ++ String newline "ol")];
      Column "Country" "object" [CStr "US"; CStr "UK"; CStr "US"; CStr "us"];
      Column "Age" "int64" [CScalar 30%Z; CScalar 41%Z; CScalar 35%Z; CScalar 12%Z] ]
    4.

(** ** A frame of text without a strict engine

    Every cell is text or null, [df.query] raises on every expression (so
    the clause parser evaluates the filters), and the date branch is left
    out. *)

Definition text_only : Scalars := {|
  scalar := Empty_set;
  scalar_str := fun v => match v with end;
  num := unit;
  scalar_num := fun _ => None;
  text_num := fun _ => None;
  literal_num := fun _ => tt;
  num_le := fun _ _ => true;
  num_lt := fun _ _ => false
|}.

Definition no_engine : @QueryEngine text_only := {|
  df_query := fun _ _ => Raise NameError
|}.

Definition no_date : @DateBranch text_only := {|
  date_normalize_replace := fun _ _ _ _ _ _ _ _ => Raise NameError
|}.

Definition notes : @DataFrame text_only :=
  @Frame text_only
    [ @Column text_only "Name" "object"
        [@CStr text_only "Ann"; @CStr text_only "Bob"; @CNull text_only;
         @CStr text_only "Anna"];
      @Column text_only "City" "object"
        [@CStr text_only "Oslo"; @CStr text_only "Rome"; @CStr text_only "Oslo";
         @CStr text_only "Bern"] ]
    4.

(** A frame with a column whose name ends in [or]. *)
Definition colors : @DataFrame integer_scalars :=
  Frame [ Column "Color" "object" [CStr "red"; CStr "blue"; CStr "green"] ] 3.

End RegexExecutor.

(* ================================================================== *)
(** * Definitions used to state the properties *)
(* ================================================================== *)

(** The loop of [_compile_flags] from an accumulator [a]. *)
Definition flag_fold (l : list ascii) (a : Z) : Z :=
  fold_left (fun f ch => Z.lor f (RegexExecutor.flag_bit ch)) l a.

(** The scan the specification describes for the OR-splitter: quote state
    and nesting depth followed along the text from left to right, a
    backslash protecting the character after it. *)
Record scan_state : Type := Scan {
  sc_single : bool;        (* inside single quotes *)
  sc_double : bool;        (* inside double quotes *)
  sc_depth : nat;          (* open parentheses *)
  sc_escaped : bool        (* the next character is protected *)
}.

Definition scan_char (st : scan_state) (ch : ascii) : scan_state :=
  if sc_escaped st then Scan (sc_single st) (sc_double st) (sc_depth st) false
  else if Ascii.eqb ch "\" then Scan (sc_single st) (sc_double st) (sc_depth st) true
  else if negb (sc_double st) && Ascii.eqb ch "'" then
    Scan (negb (sc_single st)) (sc_double st) (sc_depth st) false
  else if negb (sc_single st) && Ascii.eqb ch PyStr.dquote then
    Scan (sc_single st) (negb (sc_double st)) (sc_depth st) false
  else if negb (sc_single st) && negb (sc_double st) then
    Scan (sc_single st) (sc_double st)
      (if Ascii.eqb ch "(" then S (sc_depth st)
       else if Ascii.eqb ch ")" then sc_depth st - 1
       else sc_depth st)
      false
  else st.

Definition scan (l : list ascii) : scan_state :=
  fold_left scan_char l (Scan false false 0 false).

(** Outside quotes and parentheses, and not protected. *)
Definition top_level (st : scan_state) : bool :=
  negb (sc_single st) && negb (sc_double st) && (sc_depth st =? 0)
  && negb (sc_escaped st).

(** The indices [i] at which the loop of [_split_top_level] closes a part
    (its [out.append] inside the loop), for a text of length [n]. *)
Fixpoint split_points (fuel : nat) (rx : Re.regex) (n : nat)
    (st : RegexExecutor.split_state) : list nat :=
  match fuel with
  | 0 => []
  | S f =>
      match RegexExecutor.todo st with
      | [] => []
      | _ =>
          let st' := RegexExecutor.split_step rx st in
          (if List.length (RegexExecutor.out st) <? List.length (RegexExecutor.out st')
           then [n - List.length (RegexExecutor.todo st)] else [])
          ++ split_points f rx n st'
      end
  end.

Definition split_positions (expr : string) : list nat :=
  split_points (String.length expr) RegexExecutor.rx_or (String.length expr)
    (RegexExecutor.SplitState (PyStr.chars expr) [] [] 0 false false).

(** The state of the loop of [_split_top_level] agrees with the scan of
    the text it has consumed. *)
Definition agrees (pre : list ascii) (st : RegexExecutor.split_state) : Prop :=
  scan pre =
  Scan (RegexExecutor.in_s st) (RegexExecutor.in_d st) (RegexExecutor.depth st) false.

(** A mask under construction has one entry for each row. *)
Definition sized {Sc : RegexExecutor.Scalars} (df : RegexExecutor.DataFrame)
    (acc : option RegexExecutor.mask) : Prop :=
  match acc with
  | Some mk => List.length mk = RegexExecutor.df_len df
  | None => True
  end.

(** The masks of the groups, each evaluated on its own. *)
Definition group_masks {Sc : RegexExecutor.Scalars} {Q : RegexExecutor.QueryEngine}
    (df : RegexExecutor.DataFrame) (parts : list string) : list RegexExecutor.mask :=
  map (fun part => fst (RegexExecutor._mask_group_with_rownum df part)) parts.

(** The groups [_mask_from_query_with_rownum] evaluates. *)
Definition or_groups (norm : string) : list string :=
  match RegexExecutor._split_top_level norm with
  | [] => [norm]
  | ps => ps
  end.

(** ** The match-all pattern in a plain replace *)

(** The node [Re.compile] builds for [^.*$]. *)
Definition match_all_node : Re.node :=
  Re.NCat (Re.NAt Re.Bol) (Re.NCat (Re.NRep 0 None true Re.NAny) (Re.NAt Re.Eol)).

(** The loop of a greedy [.*], as [Re.m] runs it. *)
Definition star_any (fl : Re.mflags) (k : Re.mstate -> option Re.mstate) :=
  fix loop (n cnt : nat) (s0 : Re.mstate) {struct n} : option Re.mstate :=
    let stop := if 0 <=? cnt then k s0 else None in
    match n with
    | 0 => stop
    | S n' =>
        let more :=
          Re.m fl Re.NAny s0 (fun s1 =>
            if (cnt <? 0) || (List.length (Re.rest s1) <? List.length (Re.rest s0))
            then loop n' (S cnt) s1
            else k s1) in
        Re.or_else_opt more stop
    end.

(** A text of one line: no newline in it. *)
Definition single_line (t : list ascii) : Prop := ~ In PyStr.newline t.

(** A replacement [re.sub] copies as it is: no backslash in it. *)
Definition plain (l : list ascii) : Prop := ~ In "\"%char l.

(** What the plain replace with [^.*$] does to one cell of a selected
    column: [b] tells whether the row is in the mask, [x] is the cell
    before and [y] the cell after. *)
Definition cell_post {Sc : RegexExecutor.Scalars} (rep : string) (b : bool)
    (x y : RegexExecutor.cell) : Prop :=
  (b = true -> forall t, RegexExecutor.text_of x = Some t ->
     single_line (PyStr.chars t) -> y = RegexExecutor.CStr rep) /\
  (b = true -> x = RegexExecutor.CNull -> y = RegexExecutor.CNull) /\
  (b = false -> RegexExecutor.text_of y = RegexExecutor.text_of x).

(** Column [c] of [out] is column [c] of [df] after the replace. *)
Definition rewritten {Sc : RegexExecutor.Scalars} (rep : string)
    (mk : RegexExecutor.mask) (df out : RegexExecutor.DataFrame) (c : string) : Prop :=
  exists col col',
    RegexExecutor.get_column df c = Some col /\
    RegexExecutor.get_column out c = Some col' /\
    forall i b x, nth_error mk i = Some b ->
      nth_error (RegexExecutor.col_cells col) i = Some x ->
      exists y, nth_error (RegexExecutor.col_cells col') i = Some y /\
        cell_post rep b x y.

(* ================================================================== *)
(** * views.py: the JSON sanitizer *)
(* ================================================================== *)

Module Views.

(** Floating point numbers, with [math.isnan] and [math.isinf]. *)
Class PyFloat : Type := {
  pyfloat : Type;
  isnan : pyfloat -> bool;
  isinf : pyfloat -> bool
}.

(** The objects [sanitize_for_json] tells apart: a [float]; a [Mapping]
    (the items of a dict, in order); a [Sequence] that is neither [str] nor
    [bytes] nor [bytearray] (a list or a tuple); anything else. *)
#[local] Unset Elimination Schemes.
Inductive pyobj {F : PyFloat} : Type :=
| PNone
| PBool (b : bool)
| PInt (z : Z)
| PFloat (x : pyfloat)
| PStr (s : string)
| PBytes (s : string)
| PList (l : list pyobj)
| PTuple (l : list pyobj)
| PDict (items : list (pyobj * pyobj))
| POther (repr : string).
#[local] Set Elimination Schemes.

Section Sanitize.
Context {F : PyFloat}.

Fixpoint sanitize_for_json (obj : pyobj) : pyobj :=
  match obj with
  | PFloat x => if isnan x || isinf x then PNone else obj
  | PDict items =>
      PDict (map (fun kv : pyobj * pyobj => let (k, v) := kv in (k, sanitize_for_json v)) items)
  | PList l => PList (map sanitize_for_json l)
  | PTuple l => PList (map sanitize_for_json l)
  | _ => obj
  end.

End Sanitize.

End Views.

(** The first character, if any, is no white space. *)
Definition clean_head (l : list ascii) : Prop :=
  match l with
  | c :: _ => PyStr.is_space c = false
  | [] => True
  end.

(** What a plain replace over the mask [mk] and the columns [cols] keeps
    of the frame [df] in its result [out]: the shape, the text of the
    cells outside the mask, the cells of the other columns, and the null
    cells. *)
Definition cells_kept {Sc : RegexExecutor.Scalars} (mk : RegexExecutor.mask)
    (cols : list string) (df out : RegexExecutor.DataFrame) : Prop :=
  RegexExecutor.headers out = RegexExecutor.headers df /\
  RegexExecutor.df_len out = RegexExecutor.df_len df /\
  forall c i x, RegexExecutor.cell_at df i c = Some x ->
    exists y, RegexExecutor.cell_at out i c = Some y /\
      (nth i mk false = false ->
         RegexExecutor.text_of y = RegexExecutor.text_of x) /\
      (~ In c cols -> y = x) /\
      (x = RegexExecutor.CNull -> y = RegexExecutor.CNull).

(** Row [i] is in the mask and one of the columns [cols] has, in that
    row, a text in which [rx] matches. *)
Definition row_hit {Sc : RegexExecutor.Scalars} (rx : Re.regex)
    (mk : RegexExecutor.mask) (cols : list string) (df : RegexExecutor.DataFrame)
    (i : nat) : Prop :=
  nth i mk false = true /\
  exists c x t, In c cols /\ RegexExecutor.cell_at df i c = Some x /\
    RegexExecutor.text_of x = Some t /\ 0 < Re.count rx t.

(** The characters [_split_top_level] gives no special role: neither a
    quote, nor a backslash, nor a parenthesis. *)
Definition is_plain_char (c : ascii) : bool :=
  negb (Ascii.eqb c "'" || Ascii.eqb c PyStr.dquote || Ascii.eqb c "\"
        || Ascii.eqb c "(" || Ascii.eqb c ")").

(** [_split_top_level] with the parts already closed in front. *)
Definition with_out (st : RegexExecutor.split_state) (o : list string)
    : RegexExecutor.split_state :=
  RegexExecutor.SplitState (RegexExecutor.todo st) (RegexExecutor.buf st)
    (RegexExecutor.out st ++ o) (RegexExecutor.depth st)
    (RegexExecutor.in_s st) (RegexExecutor.in_d st).

(** No [or], in any case, starts at one of the first [n] characters. *)
Fixpoint or_free (n : nat) (l : list ascii) : bool :=
  match n, l with
  | S n', x :: tl =>
      negb (Ascii.eqb (PyStr.lower_char x) "o"
            && match tl with y :: _ => Ascii.eqb (PyStr.lower_char y) "r" | [] => false end)
      && or_free n' tl
  | _, _ => true
  end.

(** The value of the flags [i], [m], [s], [x] taken together. *)
Definition flag_bits (i m s x : bool) : Z :=
  Z.lor (if i then Re.IGNORECASE else 0)
    (Z.lor (if m then Re.MULTILINE else 0)
       (Z.lor (if s then Re.DOTALL else 0) (if x then Re.VERBOSE else 0))).


(** The number of occurrences of a character in a text. *)
Definition count_char (c : ascii) (s : string) : nat :=
  List.length (filter (Ascii.eqb c) (PyStr.chars s)).

(** An object [json.dumps] writes without [NaN] or [Infinity]: no float
    that is not finite at a value position, and every sequence a list. *)
Fixpoint json_safe {F : Views.PyFloat} (obj : Views.pyobj) : bool :=
  match obj with
  | Views.PFloat x => negb (Views.isnan x || Views.isinf x)
  | Views.PList l => forallb json_safe l
  | Views.PTuple _ => false
  | Views.PDict items => forallb (fun kv => json_safe (snd kv)) items
  | _ => true
  end.

(** The keys of a dict, at every depth of an object. *)
Fixpoint dict_keys {F : Views.PyFloat} (obj : Views.pyobj) : list Views.pyobj :=
  match obj with
  | Views.PList l | Views.PTuple l => flat_map dict_keys l
  | Views.PDict items => flat_map (fun kv => fst kv :: dict_keys (snd kv)) items
  | _ => []
  end.


(** [pad w z] is [w] digits that read back as [z]. *)
Definition digits_ok (w : nat) (z : Z) : bool :=
  (String.length (DateNormalizer.pad w z) =? w) &&
  forallb PyStr.is_digit (PyStr.chars (DateNormalizer.pad w z)) &&
  (Z.of_nat (PyStr.int_of_digits (PyStr.chars (DateNormalizer.pad w z))) =? z)%Z.


(** The characters [re.escape] protects. *)
Definition specials : list ascii :=
  Eval vm_compute in
    filter Re.is_special (map ascii_of_nat (seq 0 256)).

(* ================================================================== *)
(** * Properties *)
(* ================================================================== *)

Import PyStr.

(** ** Strings and lists *)

Lemma chars_str (l : list ascii) : chars (str l) = l.
Proof. apply list_ascii_of_string_of_list_ascii. Qed.

Lemma str_chars (s : string) : str (chars s) = s.
Proof. apply string_of_list_ascii_of_string. Qed.

Lemma is_empty_str (l : list ascii) : is_empty (str l) = true -> l = [].
Proof. destruct l; [reflexivity | discriminate]. Qed.

Lemma is_empty_true (s : string) : is_empty s = true -> s = EmptyString.
Proof. destruct s; [reflexivity | discriminate]. Qed.

Lemma or_else_not_empty (a b : string) :
  b <> EmptyString -> or_else a b <> EmptyString.
Proof.
  unfold or_else. destruct a; simpl; [auto | discriminate].
Qed.

(** ** [_compile_flags] *)

Section CompileFlags.
Import RegexExecutor.

Lemma flag_fold_acc (l : list ascii) (a : Z) :
  flag_fold l a = Z.lor a (flag_fold l 0).
Proof.
  unfold flag_fold. revert a.
  induction l as [|c l IH]; intro a; simpl.
  - now rewrite Z.lor_0_r.
  - rewrite IH, (IH (flag_bit c)). now rewrite Z.lor_assoc.
Qed.

Lemma flag_bit_other (ch : ascii) :
  char_in ch "imsx" = false -> flag_bit ch = 0%Z.
Proof.
  unfold char_in, flag_bit. simpl.
  destruct (Ascii.eqb ch "i"), (Ascii.eqb ch "m"), (Ascii.eqb ch "s"),
    (Ascii.eqb ch "x"); simpl; congruence.
Qed.

Lemma flag_fold_other (l : list ascii) :
  (forall ch, In ch l -> char_in ch "imsx" = false) -> flag_fold l 0 = 0%Z.
Proof.
  induction l as [|c l IH]; intro H; [reflexivity|].
  unfold flag_fold. simpl. fold (flag_fold l (flag_bit c)).
  rewrite flag_fold_acc, IH by (intros; apply H; now right).
  rewrite flag_bit_other by (apply H; now left). reflexivity.
Qed.

(** Without [m], [s] and [x] the flags fold to nothing or to IGNORECASE. *)
Lemma flag_fold_only_i (l : list ascii) :
  (forall ch, In ch l -> char_in ch "msx" = false) ->
  flag_fold l 0 = 0%Z \/ flag_fold l 0 = Re.IGNORECASE.
Proof.
  induction l as [|c l IH]; intro H; [now left|].
  unfold flag_fold. simpl. fold (flag_fold l (flag_bit c)).
  rewrite flag_fold_acc.
  assert (Hc : flag_bit c = 0%Z \/ flag_bit c = Re.IGNORECASE).
  { specialize (H c (or_introl eq_refl)). revert H.
    unfold char_in, flag_bit. simpl.
    destruct (Ascii.eqb c "i"), (Ascii.eqb c "m"), (Ascii.eqb c "s"),
      (Ascii.eqb c "x"); simpl; intro; try discriminate; auto. }
  destruct (IH (fun ch Hin => H ch (or_intror Hin))) as [E|E], Hc as [F|F];
    rewrite E, F; auto.
Qed.

Lemma compile_flags_only_i (flags : string) :
  (forall ch, In ch (chars flags) -> char_in ch "msx" = false) ->
  _compile_flags flags = Re.IGNORECASE.
Proof.
  intro H. unfold _compile_flags.
  destruct (is_empty flags); [reflexivity|].
  fold (flag_fold (chars flags) 0).
  destruct (flag_fold_only_i _ H) as [E|E]; rewrite E; reflexivity.
Qed.

(** The matcher flags of a compiled pattern are the bits of the flags
    given, with those of the inline groups. *)
Lemma compile_flags_of (pattern : string) (z : Z) (rx : Re.regex) :
  Re.compile pattern z = Some rx ->
  exists inl, Re.f_i (Re.re_flags rx) = Z.testbit (Z.lor z inl) 1.
Proof.
  unfold Re.compile.
  destruct (Re.leading_flags _ _) as [inl body].
  destruct (Re.parse_sub _ _ _) as [[[n ps1] r]|]; [|discriminate].
  destruct r; [|discriminate].
  intro H. inversion H. exists inl. reflexivity.
Qed.

End CompileFlags.

Section CompileFlagsClaim.
Import RegexExecutor.

(** C10.  When no character of the flags string is [i], [m], [s] or [x]
    (the empty string and the unicode flags [u] and [U] are such strings),
    [_compile_flags] returns [re.IGNORECASE] alone, so every pattern that
    [execute_plan] compiles with the result matches without regard to
    case.  A pattern compiled with the result of [_compile_flags] matches
    case-sensitively only when [m], [s] or [x] occurs in the flags. *)
Theorem compile_flags_defaults_to_ignorecase (flags : string)
    (H : forall ch, In ch (chars flags) -> char_in ch "imsx" = false) :
  _compile_flags flags = Re.IGNORECASE /\
  (forall pattern rx,
      Re.compile pattern (_compile_flags flags) = Some rx ->
      Re.f_i (Re.re_flags rx) = true) /\
  (forall flags' pattern rx,
      Re.compile pattern (_compile_flags flags') = Some rx ->
      Re.f_i (Re.re_flags rx) = false ->
      exists ch, In ch (chars flags') /\ char_in ch "msx" = true).
Proof.
  assert (E : _compile_flags flags = Re.IGNORECASE).
  { unfold _compile_flags. destruct (is_empty flags); [reflexivity|].
    fold (flag_fold (chars flags) 0). now rewrite flag_fold_other. }
  split; [exact E|]. split.
  - intros pattern rx Hc. rewrite E in Hc.
    destruct (compile_flags_of _ _ _ Hc) as [inl ->].
    rewrite Z.lor_spec. reflexivity.
  - intros flags' pattern rx Hc Hi.
    destruct (existsb (fun ch => char_in ch "msx") (chars flags')) eqn:Ex.
    + apply existsb_exists in Ex. exact Ex.
    + exfalso.
      assert (E' : _compile_flags flags' = Re.IGNORECASE).
      { apply compile_flags_only_i. intros ch Hin.
        destruct (char_in ch "msx") eqn:Hm; [|reflexivity].
        assert (existsb (fun ch => char_in ch "msx") (chars flags') = true)
          by (apply existsb_exists; eauto).
        congruence. }
      rewrite E' in Hc.
      destruct (compile_flags_of _ _ _ Hc) as [inl Hf].
      rewrite Hf, Z.lor_spec in Hi. discriminate.
Qed.

Lemma compile_flags_defaults_to_ignorecase_witness :
  (forall ch, In ch (chars "uU") -> char_in ch "imsx" = false) /\
  _compile_flags "uU" = Re.IGNORECASE.
Proof.
  assert (H : forall ch, In ch (chars "uU") -> char_in ch "imsx" = false).
  { intros ch [<-|[<-|[]]]; reflexivity. }
  split; [exact H|].
  exact (proj1 (compile_flags_defaults_to_ignorecase "uU" H)).
Defined.

End CompileFlagsClaim.

(** ** [normalize] and [_validate_plan] *)

Section PlanClaims.
Import PlanV2.

Lemma normalized_flags (plan : RegexPlan) :
  flags (normalize plan) <> EmptyString /\
  (forall ch, In ch (chars (flags (normalize plan))) -> char_in ch allowed = true) /\
  (filter (fun ch => char_in ch allowed) (chars (flags plan)) = [] ->
   flags (normalize plan) = "i").
Proof.
  unfold normalize. cbn [flags].
  set (kept := filter (fun ch => char_in ch allowed) (chars (or_else (flags plan) "i"))).
  repeat split.
  - apply or_else_not_empty. discriminate.
  - intros ch. unfold or_else.
    destruct (is_empty (str kept)) eqn:E.
    + intros [<-|[]]. reflexivity.
    + rewrite chars_str. unfold kept. intro Hin.
      apply filter_In in Hin. tauto.
  - intro Hnone. unfold kept, or_else at 2.
    destruct (is_empty (flags plan)) eqn:E.
    + reflexivity.
    + now rewrite Hnone.
Qed.

Lemma normalized_replacement (plan : RegexPlan) :
  (forall r, replacement (normalize plan) = Some r -> mem r na_like = false) /\
  (forall r, replacement plan = Some r -> mem (strip r) na_like = true ->
             replacement (normalize plan) = Some safe_literal).
Proof.
  unfold normalize. cbn [replacement]. split.
  - intros r. unfold none_if_empty.
    destruct (is_empty (strip (or_empty (replacement plan)))); [discriminate|].
    destruct (mem (strip (or_empty (replacement plan))) na_like) eqn:E.
    + intro H. inversion H. reflexivity.
    + intro H. inversion H. subst. exact E.
  - intros r Hr Hna. rewrite Hr. cbn [or_empty]. unfold none_if_empty.
    destruct (is_empty (strip r)) eqn:E.
    + apply is_empty_true in E. rewrite E in Hna. discriminate.
    + now rewrite Hna.
Qed.

(** C9.  On the plan that [normalize] returns, the validator reports
    nothing about the fields [normalize] has sanitized.  The flags are
    not empty and drawn from the recognized set (they are ["i"] when no
    given flag is recognized), so no unsupported-flag error is emitted.
    The pattern is not empty, and an empty or blank pattern has become
    [^.*$], which compiles, so no pattern-not-compilable error comes from
    it.  The replacement is never one of [NA], [N/A], [NaN], [nan], [na]:
    such a value has become [N/A (missing)]. *)
Theorem validate_after_normalize (plan : RegexPlan) (hs : list string) :
  (forall f, ~ In (UnsupportedFlag f) (validation_errors (normalize plan) hs)) /\
  flags (normalize plan) <> EmptyString /\
  (forall ch, In ch (chars (flags (normalize plan))) -> char_in ch allowed = true) /\
  (filter (fun ch => char_in ch allowed) (chars (flags plan)) = [] ->
   flags (normalize plan) = "i") /\
  pattern (normalize plan) <> EmptyString /\
  (strip (pattern plan) = EmptyString ->
   pattern (normalize plan) = "^.*$" /\
   ~ In PatternNotCompilable (validation_errors (normalize plan) hs)) /\
  (forall r, replacement (normalize plan) = Some r -> mem r na_like = false) /\
  (forall r, replacement plan = Some r -> mem (strip r) na_like = true ->
             replacement (normalize plan) = Some "N/A (missing)").
Proof.
  destruct (normalized_flags plan) as (Hne & Hall & Hdef).
  destruct (normalized_replacement plan) as (Hrep & Hna).
  assert (Hsegments : forall (v : violation) (b : bool) (w : violation),
             v <> w -> ~ In v (if b then [] else [w])).
  { intros v b w Hvw. destruct b; simpl; intuition congruence. }
  split; [|split; [exact Hne|split; [exact Hall|split; [exact Hdef|split;
           [|split; [|split; [exact Hrep|exact Hna]]]]]]].
  - intros f Hin. unfold validation_errors in Hin.
    repeat (apply in_app_or in Hin; destruct Hin as [Hin|Hin]).
    + now apply Hsegments in Hin.
    + destruct (Re.compile _ _); simpl in Hin; intuition congruence.
    + apply in_flat_map in Hin. destruct Hin as (ch & Hch & Hin).
      rewrite (Hall ch Hch) in Hin. destruct Hin.
    + destruct (columns (normalize plan)) as [[|c cs]|]; try destruct Hin.
      cbv zeta in Hin.
      destruct (filter _ (c :: cs)); simpl in Hin; intuition congruence.
    + destruct (_ && _); simpl in Hin; intuition congruence.
    + destruct (row_filter (normalize plan)); [|destruct Hin].
      apply in_flat_map in Hin. destruct Hin as (g & _ & Hin).
      destruct g as [|t g]; [destruct Hin|].
      destruct (mem t hs); simpl in Hin; intuition congruence.
  - unfold normalize. cbn [pattern]. apply or_else_not_empty. discriminate.
  - intro Hblank.
    assert (Hp : pattern (normalize plan) = "^.*$").
    { unfold normalize. cbn [pattern]. now rewrite Hblank. }
    split; [exact Hp|].
    intro Hin. unfold validation_errors in Hin. rewrite Hp in Hin.
    repeat (apply in_app_or in Hin; destruct Hin as [Hin|Hin]).
    + now apply Hsegments in Hin.
    + vm_compute in Hin. exact Hin.
    + apply in_flat_map in Hin. destruct Hin as (ch & _ & Hin).
      destruct (char_in ch allowed); simpl in Hin; intuition congruence.
    + destruct (columns (normalize plan)) as [[|c cs]|]; try destruct Hin.
      cbv zeta in Hin.
      destruct (filter _ (c :: cs)); simpl in Hin; intuition congruence.
    + destruct (_ && _); simpl in Hin; intuition congruence.
    + destruct (row_filter (normalize plan)); [|destruct Hin].
      apply in_flat_map in Hin. destruct Hin as (g & _ & Hin).
      destruct g as [|t g]; [destruct Hin|].
      destruct (mem t hs); simpl in Hin; intuition congruence.
Qed.

End PlanClaims.

(** ** The date normalizer *)

Section DateClaims.
Import DateNormalizer.

(** Nothing binds [timedelta] in [date_normalizer.py]. *)
Lemma timedelta_is_unbound : global_name "timedelta" = Raise NameError.
Proof. reflexivity. Qed.

(** The serial-date branch never returns: its [NameError] is swallowed by
    the [except] clause, and an integer is then handled as its text. *)
Lemma serial_branch_never_returns {L : DateLibs} (z : Z) (out_fmt : string)
    (dayfirst : option bool) :
  (Z.abs z <? 2 ^ 1024 - 2 ^ 970)%Z = true ->
  normalize_cell_as_whole (VInt z) out_fmt dayfirst =
  normalize_cell_as_whole (VStr (str_of_Z z)) out_fmt dayfirst.
Proof.
  intro Hz. unfold normalize_cell_as_whole, to_float. rewrite Hz.
  cbn [bind py_str].
  destruct (float_le (float_of_Z 10000) (float_of_Z z) &&
            float_le (float_of_Z z) (float_of_Z 80000)); [|reflexivity].
  change (mk_date 1899 12 30) with (Ok (DateTime 1899 12 30 0 0 0 0)).
  cbv beta iota. rewrite timedelta_is_unbound. reflexivity.
Qed.

(** C7.  [normalize_cell_as_whole(45292, "YYYY-MM-DD")] does not return
    the date 45292 days after 1899-12-30: the name [timedelta] is not
    bound in the module, the [NameError] is caught, and the number is
    parsed as the text ["45292"], whatever the installed parsers are.
    Where neither [dateparser] nor [dateutil] is installed the result is
    [("45292", 0)], while the date the documentation of the function
    describes is [("2024-01-01", 1)]. *)
Theorem serial_date_is_read_as_text :
  (forall (L : DateLibs) (out_fmt : string) (dayfirst : option bool),
      normalize_cell_as_whole (VInt 45292) out_fmt dayfirst =
      normalize_cell_as_whole (VStr "45292") out_fmt dayfirst) /\
  @normalize_cell_as_whole stdlib_only (VInt 45292) "YYYY-MM-DD" None
    = Ok ("45292", 0) /\
  serial_date 45292 "YYYY-MM-DD" = Ok ("2024-01-01", 1).
Proof.
  split; [|split].
  - intros L out_fmt dayfirst.
    exact (serial_branch_never_returns 45292 out_fmt dayfirst eq_refl).
  - vm_compute. reflexivity.
  - vm_compute. reflexivity.
Qed.

(** C8.  On the samples ["31/12/2020"] and ["15/01/2021"] the function
    [guess_dayfirst] returns [None], not [True]: a sample whose first
    number exceeds 12 is not counted as an ambiguous hit, so no hit and
    no vote is recorded, and the function answers that it cannot tell. *)
Theorem guess_dayfirst_on_day_first_samples :
  fold_left guess_step ["31/12/2020"; "15/01/2021"] (0, 0) = (0, 0) /\
  guess_dayfirst ["31/12/2020"; "15/01/2021"] = None.
Proof. split; vm_compute; reflexivity. Qed.

End DateClaims.

(** ** Masks *)

Section MaskFacts.
Import RegexExecutor.
Context {Sc : Scalars}.

Lemma isin_length (df : DataFrame) (labels : list nat) :
  List.length (isin df labels) = df_len df.
Proof. unfold isin. now rewrite length_map, length_seq. Qed.

Lemma isin_nth (df : DataFrame) (labels : list nat) (i : nat) :
  i < df_len df ->
  nth i (isin df labels) false = existsb (Nat.eqb i) labels.
Proof.
  intro Hi. unfold isin.
  rewrite (nth_indep _ false (existsb (Nat.eqb 0) labels))
    by (now rewrite length_map, length_seq).
  rewrite (map_nth (fun i => existsb (Nat.eqb i) labels)).
  now rewrite seq_nth.
Qed.

Lemma all_false_length (df : DataFrame) : List.length (all_false df) = df_len df.
Proof. apply repeat_length. Qed.

Lemma all_true_length (df : DataFrame) : List.length (all_true df) = df_len df.
Proof. apply repeat_length. Qed.

Lemma all_false_nth (df : DataFrame) (i : nat) : nth i (all_false df) false = false.
Proof.
  unfold all_false. generalize (df_len df) as n. revert i.
  induction i as [|i IH]; intros [|n]; simpl; auto.
Qed.

Lemma all_true_nth (df : DataFrame) (i : nat) :
  i < df_len df -> nth i (all_true df) false = true.
Proof.
  unfold all_true. generalize (df_len df) as n. revert i.
  induction i as [|i IH]; intros [|n] H; simpl; try lia; auto.
  apply IH. lia.
Qed.

Lemma picked_mask_length (df : DataFrame) (picks : list nat) :
  List.length (picked_mask df picks) = df_len df.
Proof.
  destruct picks; simpl; [apply all_false_length | apply isin_length].
Qed.

Lemma picked_mask_nth (df : DataFrame) (picks : list nat) (i : nat) :
  i < df_len df ->
  nth i (picked_mask df picks) false = existsb (Nat.eqb i) picks.
Proof.
  intro Hi. destruct picks as [|p picks].
  - simpl. apply all_false_nth.
  - unfold picked_mask. now apply isin_nth.
Qed.

(** The rows [pick] keeps are those at the requested 1-based positions. *)
Lemma in_pick (labels rownums : list nat) (x : nat) :
  In x (pick labels rownums) <->
  exists n, In n rownums /\ 1 <= n /\ nth_error labels (n - 1) = Some x.
Proof.
  unfold pick. rewrite in_flat_map. split.
  - intros (n & Hn & Hx). exists n. split; [exact Hn|].
    destruct (1 <=? n) eqn:E; [|destruct Hx].
    apply Nat.leb_le in E. split; [exact E|].
    destruct (nth_error labels (n - 1)); [|destruct Hx].
    destruct Hx as [->|[]]. reflexivity.
  - intros (n & Hn & H1 & Hx). exists n. split; [exact Hn|].
    apply Nat.leb_le in H1. rewrite H1, Hx. now left.
Qed.

Lemma existsb_eqb_in (i : nat) (l : list nat) :
  existsb (Nat.eqb i) l = true <-> In i l.
Proof.
  rewrite existsb_exists. split.
  - intros (x & Hx & E). apply Nat.eqb_eq in E. now subst.
  - intro H. exists i. split; [exact H | apply Nat.eqb_refl].
Qed.

Lemma nth_error_seq0 (len k x : nat) :
  nth_error (seq 0 len) k = Some x <-> k < len /\ x = k.
Proof.
  split.
  - intro H. assert (Hk : k < len).
    { rewrite <- (length_seq len 0). apply nth_error_Some. congruence. }
    split; [exact Hk|].
    rewrite (nth_error_nth' _ 0) in H by (now rewrite length_seq).
    rewrite seq_nth in H by exact Hk. inversion H. reflexivity.
  - intros [Hk ->]. rewrite (nth_error_nth' _ 0) by (now rewrite length_seq).
    now rewrite seq_nth.
Qed.

End MaskFacts.

(** ** Row-number clauses *)

Section RownumClaims.
Import RegexExecutor.

Lemma mask_group_with_rownum_eq {Sc : Scalars} {Q : QueryEngine}
    (df : DataFrame) (g e0 : string) (ns : list nat) :
  _remove_rownum_clauses g = (e0, ns) -> ns <> [] ->
  fst (_mask_group_with_rownum df g) =
  if String.eqb (lower (or_else (strip e0) "True")) "true"
  then picked_mask df (pick (seq 0 (df_len df)) ns)
  else picked_mask df
         (pick (selected (fst (fst (_eval_basic_query df (or_else (strip e0) "True"))))) ns).
Proof.
  intros Hr Hns. unfold _mask_group_with_rownum. rewrite Hr.
  destruct (_eval_basic_query df (or_else (strip e0) "True")) as [[base path] used].
  destruct ns as [|n ns]; [contradiction|].
  destruct (String.eqb _ "true"); reflexivity.
Qed.



End RownumClaims.

(** ** The OR-splitter *)

Section SplitFacts.
Import RegexExecutor.

Lemma lower_char_o (c : ascii) :
  Ascii.eqb (lower_char "o") (lower_char c) = true -> c = "o"%char \/ c = "O"%char.
Proof.
  destruct c as [[] [] [] [] [] [] [] []]; vm_compute; intro H; try discriminate; auto.
Qed.

Lemma lower_char_r (c : ascii) :
  Ascii.eqb (lower_char "r") (lower_char c) = true -> c = "r"%char \/ c = "R"%char.
Proof.
  destruct c as [[] [] [] [] [] [] [] []]; vm_compute; intro H; try discriminate; auto.
Qed.

Lemma rx_or_match (l : list ascii) (mt : Re.rmatch) :
  Re.re_match rx_or (str l) = Some mt ->
  exists c1 c2 tl, l = c1 :: c2 :: tl /\
    (c1 = "o"%char \/ c1 = "O"%char) /\ (c2 = "r"%char \/ c2 = "R"%char) /\
    Re.m_end mt = 2.
Proof.
  unfold Re.re_match, Re.match_here, Re.start_state. rewrite chars_str.
  destruct l as [|c1 [|c2 tl]].
  - vm_compute. discriminate.
  - cbn. destruct (is_word c1); [destruct (_ =? _)%char|]; discriminate.
  - cbn.
    destruct (is_word c1); [|discriminate].
    destruct (lower_char "o" =? lower_char c1)%char eqn:E1; [|discriminate].
    destruct (lower_char "r" =? lower_char c2)%char eqn:E2; [|discriminate].
    destruct (xorb _ _); cbn; try discriminate.
    intro H. inversion H. cbn.
    exists c1, c2, tl. repeat split; auto using lower_char_o, lower_char_r.
Qed.

Lemma scan_app (pre cs : list ascii) :
  scan (pre ++ cs) = fold_left scan_char cs (scan pre).
Proof. unfold scan. apply fold_left_app. Qed.

Lemma split_step_cases (pre : list ascii) (st : split_state) (ch : ascii)
    (tl : list ascii) :
  todo st = ch :: tl -> agrees pre st ->
  exists cs, cs <> [] /\ ch :: tl = (cs ++ todo (split_step rx_or st))%list /\
    ((out (split_step rx_or st) = out st /\
      (todo (split_step rx_or st) = [] \/ agrees (pre ++ cs) (split_step rx_or st)))
     \/
     (out (split_step rx_or st) = flush (buf st) :: out st /\
      top_level (scan pre) = true /\
      agrees (pre ++ cs) (split_step rx_or st))).
Proof.
  intros Htodo Hag. unfold agrees in *. unfold split_step. rewrite Htodo.
  destruct (Ascii.eqb ch "\") eqn:Ebs.
  - apply Ascii.eqb_eq in Ebs. subst ch.
    destruct tl as [|c2 tl2].
    + exists ["\"%char]. split; [discriminate|]. 
      change (Ascii.eqb "\" "'") with false.
      change (Ascii.eqb "\" dquote) with false.
      rewrite !andb_false_r.
      destruct (negb (in_s st) && negb (in_d st)).
      * destruct (Re.re_match rx_or (str ["\"%char])) eqn:Em.
        { apply rx_or_match in Em. destruct Em as (? & ? & ? & E & _). discriminate. }
        cbn. split; [reflexivity|]. left. auto.
      * cbn. split; [reflexivity|]. left. auto.
    + exists ["\"%char; c2]. split; [discriminate|]. cbn.
      split; [reflexivity|]. left. split; [reflexivity|]. right.
      rewrite scan_app, Hag. reflexivity.
  - destruct (negb (in_d st) && Ascii.eqb ch "'") eqn:Ea.
    { exists [ch]. split; [discriminate|]. cbn. split; [reflexivity|].
      left. split; [reflexivity|]. right.
      rewrite scan_app, Hag. cbn [fold_left]. unfold scan_char.
      cbn [sc_escaped sc_single sc_double sc_depth]. now rewrite Ebs, Ea. }
    destruct (negb (in_s st) && Ascii.eqb ch dquote) eqn:Eb.
    { exists [ch]. split; [discriminate|]. cbn. split; [reflexivity|].
      left. split; [reflexivity|]. right.
      rewrite scan_app, Hag. cbn [fold_left]. unfold scan_char.
      cbn [sc_escaped sc_single sc_double sc_depth]. now rewrite Ebs, Ea, Eb. }
    destruct (negb (in_s st) && negb (in_d st)) eqn:Ec.
    2:{ exists [ch]. split; [discriminate|]. cbn. split; [reflexivity|].
        left. split; [reflexivity|]. right.
        rewrite scan_app, Hag. cbn [fold_left]. unfold scan_char.
      cbn [sc_escaped sc_single sc_double sc_depth]. now rewrite Ebs, Ea, Eb, Ec. }
    assert (Hkeep : forall d',
       d' = (if Ascii.eqb ch "(" then S (depth st)
             else if Ascii.eqb ch ")" && (0 <? depth st) then depth st - 1
             else depth st) ->
       scan (pre ++ [ch]) = Scan (in_s st) (in_d st) d' false).
    { intros d' ->. rewrite scan_app, Hag. cbn [fold_left]. unfold scan_char.
      cbn [sc_escaped sc_single sc_double sc_depth].
      rewrite Ebs, Ea, Eb, Ec. f_equal.
      destruct (Ascii.eqb ch "("); [reflexivity|].
      destruct (Ascii.eqb ch ")"); [|reflexivity].
      destruct (depth st); reflexivity. }
    destruct (Re.re_match rx_or (str (ch :: tl))) as [mt|] eqn:Em.
    2:{ exists [ch]. split; [discriminate|]. cbn. split; [reflexivity|].
        left. split; [reflexivity|]. right. now apply Hkeep. }
    destruct ((if Ascii.eqb ch "(" then S (depth st)
               else if Ascii.eqb ch ")" && (0 <? depth st) then depth st - 1
               else depth st) =? 0) eqn:Ed.
    2:{ exists [ch]. split; [discriminate|]. cbn. split; [reflexivity|].
        left. split; [reflexivity|]. right. now apply Hkeep. }
    apply rx_or_match in Em.
    destruct Em as (c1 & c2 & tl2 & E & H1 & H2 & Hend).
    inversion E. subst c1 tl. rewrite Hend.
    apply andb_prop in Ec. destruct Ec as [Es Ed'].
    apply negb_true_iff in Es, Ed'.
    assert (Hd : depth st = 0).
    { destruct H1 as [-> | ->]; cbn in Ed; now apply Nat.eqb_eq in Ed. }
    exists [ch; c2]. split; [discriminate|]. cbn. split; [reflexivity|].
    right. split; [reflexivity|]. split.
    + rewrite Hag, Es, Ed', Hd. reflexivity.
    + rewrite scan_app, Hag, Es, Ed', Hd.
      destruct H1 as [-> | ->], H2 as [-> | ->]; reflexivity.
Qed.

Lemma split_points_empty (fuel n : nat) (st : split_state) :
  todo st = [] -> split_points fuel rx_or n st = [].
Proof. intro H. destruct fuel; simpl; [reflexivity|]. now rewrite H. Qed.

Lemma split_points_top_level (fuel n : nat) :
  forall (pre : list ascii) (st : split_state),
    agrees pre st -> n = List.length pre + List.length (todo st) ->
    forall i, In i (split_points fuel rx_or n st) ->
      top_level (scan (firstn i (pre ++ todo st))) = true.
Proof.
  induction fuel as [|f IH]; intros pre st Hag Hn i Hin; [destruct Hin|].
  simpl in Hin. destruct (todo st) as [|ch tl] eqn:Htodo; [destruct Hin|].
  destruct (split_step_cases pre st ch tl Htodo Hag)
    as (cs & Hcs & Hsplit & [[Hout Hnext] | (Hout & Htop & Hnext)]).
  - rewrite Hout, Nat.ltb_irrefl in Hin. simpl in Hin.
    destruct Hnext as [Hnil | Hag'].
    + rewrite split_points_empty in Hin by exact Hnil. destruct Hin.
    + rewrite Hsplit, app_assoc. apply (IH (pre ++ cs)%list _ Hag'); [|exact Hin].
      rewrite length_app, Hn, Hsplit, length_app. lia.
  - rewrite Hout in Hin. cbn [List.length] in Hin.
    rewrite (proj2 (Nat.ltb_lt _ _) (Nat.lt_succ_diag_r _)) in Hin.
    destruct Hin as [<- | Hin].
    + replace (n - S (List.length tl)) with (List.length pre)
        by (rewrite Hn; simpl; lia).
      rewrite firstn_app, firstn_all, Nat.sub_diag. simpl. now rewrite app_nil_r.
    + rewrite Hsplit, app_assoc. apply (IH (pre ++ cs)%list _ Hnext); [|exact Hin].
      rewrite length_app, Hn, Hsplit, length_app. lia.
Qed.

End SplitFacts.

(** ** Group masks and their union *)

Section UnionFacts.
Import RegexExecutor.
Context {Sc : Scalars}.

Lemma mask_or_length (a b : mask) :
  List.length a = List.length b -> List.length (mask_or a b) = List.length a.
Proof.
  intro H. unfold mask_or. rewrite length_map, length_combine. lia.
Qed.

Lemma mask_and_length (a b : mask) :
  List.length a = List.length b -> List.length (mask_and a b) = List.length a.
Proof.
  intro H. unfold mask_and. rewrite length_map, length_combine. lia.
Qed.

Lemma mask_or_nth (a b : mask) (i : nat) :
  List.length a = List.length b ->
  nth i (mask_or a b) false = nth i a false || nth i b false.
Proof.
  revert b i. induction a as [|x a IH]; intros [|y b] i H; try discriminate.
  - destruct i; reflexivity.
  - destruct i as [|i]; [reflexivity|]. simpl. apply IH. simpl in H. lia.
Qed.

Lemma get_column_in (df : DataFrame) (c : string) (col : column) :
  get_column df c = Some col -> In col (df_columns df) /\ col_name col = c.
Proof.
  unfold get_column. intro H. apply find_some in H.
  destruct H as [Hin E]. apply String.eqb_eq in E. auto.
Qed.

Lemma column_length (df : DataFrame) (c : string) (col : column) :
  well_formed df -> get_column df c = Some col ->
  List.length (col_cells col) = df_len df.
Proof.
  intros Hwf H. apply get_column_in in H. destruct H as [Hin _].
  unfold well_formed in Hwf. rewrite Forall_forall in Hwf. now apply Hwf.
Qed.

Lemma and_sized (df : DataFrame) (acc : option mask) (cur : mask) :
  sized df acc -> List.length cur = df_len df -> sized df (Some (_and acc cur)).
Proof.
  destruct acc as [a|]; simpl; intros Ha Hc; [|exact Hc].
  rewrite mask_and_length; congruence.
Qed.

Lemma fold_left_sized {A : Type} (df : DataFrame)
    (f : option mask -> A -> option mask) (l : list A) (acc : option mask) :
  (forall a x, sized df a -> sized df (f a x)) ->
  sized df acc -> sized df (fold_left f l acc).
Proof.
  intro Hf. revert acc. induction l as [|x l IH]; intros acc Ha; simpl; auto.
Qed.

Lemma mask_from_clauses_sized (df : DataFrame) (q : string) :
  well_formed df -> sized df (_mask_from_clauses df q).
Proof.
  intro Hwf. unfold _mask_from_clauses.
  apply fold_left_sized; [|apply fold_left_sized; [|apply fold_left_sized; [|exact I]]].
  - intros a mt Ha. unfold str_clause.
    destruct (get_column df _) as [col|] eqn:Hc; [|exact Ha].
    pose proof (column_length df _ col Hwf Hc) as Hlen.
    match goal with |- sized df (match ?c with _ => _ end) =>
      destruct c as [cur|] eqn:Ecur end; [|exact Ha].
    apply and_sized; [exact Ha|].
    destruct (_ || _) in Ecur.
    + unfold str_regex_op in Ecur. destruct (Re.compile _ _); [|discriminate].
      inversion Ecur. unfold _to_string. now rewrite !length_map.
    + inversion Ecur. unfold str_affix_op, _to_string. now rewrite !length_map.
  - intros a g Ha. unfold numeric_clause.
    destruct g as [|col [|op [|val [|? ?]]]]; try exact Ha.
    destruct (get_column df col) as [c|] eqn:Hc; [|exact Ha].
    apply and_sized; [exact Ha|].
    unfold compare_num, _to_numeric. rewrite !length_map.
    exact (column_length df _ c Hwf Hc).
  - intros a g Ha. unfold equality_clause.
    destruct g as [|col [|op [|val [|? ?]]]]; try exact Ha.
    destruct (get_column df col) as [c|] eqn:Hc; [|exact Ha].
    apply and_sized; [exact Ha|].
    unfold eq_casefold, _to_string. rewrite !length_map.
    exact (column_length df _ c Hwf Hc).
Qed.

Context {Q : QueryEngine}.

Lemma strict_tier_length (df : DataFrame) (q used path path_zero : string)
    (idx : list nat) :
  well_formed df ->
  List.length (fst (fst (strict_tier df q used path path_zero idx))) = df_len df.
Proof.
  intro Hwf. unfold strict_tier.
  destruct (_ && _); [|apply isin_length].
  pose proof (mask_from_clauses_sized df q Hwf) as Hs.
  destruct (_mask_from_clauses df q); [exact Hs | apply isin_length].
Qed.

Lemma eval_basic_query_length (df : DataFrame) (q : string) :
  well_formed df ->
  List.length (fst (fst (_eval_basic_query df q))) = df_len df.
Proof.
  intro Hwf. unfold _eval_basic_query.
  destruct (df_query df q); [now apply strict_tier_length|].
  destruct (df_query df (rewrite_operators q)); [now apply strict_tier_length|].
  pose proof (mask_from_clauses_sized df q Hwf) as Hs.
  destruct (_mask_from_clauses df q); [exact Hs | apply all_true_length].
Qed.

Lemma group_mask_length (df : DataFrame) (g : string) :
  well_formed df ->
  List.length (fst (_mask_group_with_rownum df g)) = df_len df.
Proof.
  intro Hwf. unfold _mask_group_with_rownum.
  destruct (_remove_rownum_clauses g) as [e0 ns].
  pose proof (eval_basic_query_length df (or_else (strip e0) "True") Hwf) as Hb.
  destruct (_eval_basic_query df _) as [[base path] used].
  destruct ns as [|n ns]; [exact Hb|].
  destruct (String.eqb _ _); apply picked_mask_length.
Qed.

Lemma union_groups_fold (df : DataFrame) (parts : list string) (acc : mask) :
  union_groups df (Some acc) parts = Some (fold_left mask_or (group_masks df parts) acc).
Proof.
  revert acc. induction parts as [|p parts IH]; intro acc; simpl; [reflexivity|].
  apply IH.
Qed.

Lemma fold_mask_or_nth (ms : list mask) (acc : mask) (i n : nat) :
  List.length acc = n -> Forall (fun mk => List.length mk = n) ms ->
  List.length (fold_left mask_or ms acc) = n /\
  nth i (fold_left mask_or ms acc) false =
  nth i acc false || existsb (fun mk => nth i mk false) ms.
Proof.
  revert acc. induction ms as [|mk ms IH]; intros acc Ha Hms; simpl.
  - now rewrite orb_false_r.
  - inversion Hms as [|? ? Hmk Hrest]. subst.
    destruct (IH (mask_or acc mk)) as [Hl Hn]; [|exact Hrest|].
    + rewrite mask_or_length; congruence.
    + split; [exact Hl|]. rewrite Hn, mask_or_nth by congruence.
      now rewrite orb_assoc.
Qed.

End UnionFacts.

Section SplitRun.
Import RegexExecutor.

Lemma split_loop_empty (fuel : nat) (st : split_state) :
  todo st = [] -> split_loop fuel rx_or st = st.
Proof. intro H. destruct fuel; simpl; [reflexivity|]. now rewrite H. Qed.

(** With fuel for every character the loop consumes the whole text, and it
    closes one part at each of its split points. *)
Lemma split_loop_run (fuel n : nat) :
  forall (pre : list ascii) (st : split_state),
    agrees pre st -> List.length (todo st) <= fuel ->
    todo (split_loop fuel rx_or st) = [] /\
    List.length (out (split_loop fuel rx_or st)) =
    List.length (out st) + List.length (split_points fuel rx_or n st).
Proof.
  induction fuel as [|f IH]; intros pre st Hag Hlen.
  - simpl. destruct (todo st); [split; [reflexivity | lia] | simpl in Hlen; lia].
  - simpl. destruct (todo st) as [|ch tl] eqn:Htodo; [split; [exact Htodo |]|].
    { simpl; lia. }
    destruct (split_step_cases pre st ch tl Htodo Hag)
      as (cs & Hcs & Hsplit & [[Hout Hnext] | (Hout & Htop & Hnext)]).
    + rewrite Hout, Nat.ltb_irrefl. simpl.
      destruct Hnext as [Hnil | Hag'].
      * rewrite split_loop_empty, split_points_empty by exact Hnil.
        split; [exact Hnil | rewrite Hout; simpl; lia].
      * destruct (IH _ _ Hag') as [H1 H2].
        { assert (List.length (ch :: tl) = List.length cs + List.length (todo (split_step rx_or st)))
            by (rewrite Hsplit; apply length_app).
          destruct cs; [contradiction|]. simpl in *. lia. }
        split; [exact H1|]. rewrite H2, Hout. reflexivity.
    + rewrite Hout. cbn [List.length].
      rewrite (proj2 (Nat.ltb_lt _ _) (Nat.lt_succ_diag_r _)).
      destruct (IH _ _ Hnext) as [H1 H2].
      { assert (List.length (ch :: tl) = List.length cs + List.length (todo (split_step rx_or st)))
          by (rewrite Hsplit; apply length_app).
        destruct cs; [contradiction|]. simpl in *. lia. }
      split; [exact H1|]. rewrite H2, Hout. simpl. lia.
Qed.

Lemma string_length_chars (s : string) : List.length (chars s) = String.length s.
Proof. induction s; simpl; auto. Qed.

End SplitRun.

(** ** The union of the OR-groups *)

Section OrGroupClaims.
Import RegexExecutor.
Context {Sc : Scalars} {Q : QueryEngine}.

Lemma mask_group_without_rownum (df : DataFrame) (g e0 : string) :
  _remove_rownum_clauses g = (e0, []) ->
  fst (_mask_group_with_rownum df g) =
  fst (fst (_eval_basic_query df (or_else (strip e0) "True"))).
Proof.
  intro Hr. unfold _mask_group_with_rownum. rewrite Hr.
  destruct (_eval_basic_query df _) as [[base path] used]. reflexivity.
Qed.

Lemma mask_from_query_fold (df : DataFrame) (norm : string) :
  exists m0 ms,
    group_masks df (or_groups norm) = m0 :: ms /\
    _mask_from_query_with_rownum df norm = fold_left mask_or ms m0.
Proof.
  unfold _mask_from_query_with_rownum. fold (or_groups norm).
  assert (Hne : or_groups norm <> []).
  { unfold or_groups. destruct (_split_top_level norm); discriminate. }
  destruct (or_groups norm) as [|p ps]; [contradiction|].
  exists (fst (_mask_group_with_rownum df p)), (group_masks df ps).
  split; [reflexivity|]. simpl. now rewrite union_groups_fold.
Qed.

(** The mask [_mask_from_query_with_rownum] returns for a row filter is
    the union of the masks of the parts [_split_top_level] returns, each
    evaluated on its own: row by row, the logical OR of their masks.  No
    cut is made inside single quotes, double quotes or parentheses, as one scan
    from left to right tracks them, a backslash protecting the character
    after it; one part is closed at each cut.  In particular the mask of
    [`Country` == 'US' or __rownum__ == 1] is the union of the rows the
    interpreter selects for [`Country` == 'US'] and of the first row. *)
Theorem or_groups_are_unioned (df : DataFrame) (norm : string)
    (Hwf : well_formed df) :
  (exists m0 ms,
      group_masks df (or_groups norm) = m0 :: ms /\
      _mask_from_query_with_rownum df norm = fold_left mask_or ms m0) /\
  List.length (_mask_from_query_with_rownum df norm) = df_len df /\
  (forall i,
      nth i (_mask_from_query_with_rownum df norm) false =
      existsb (fun mk => nth i mk false) (group_masks df (or_groups norm))) /\
  (forall i, In i (split_positions norm) ->
      top_level (scan (firstn i (chars norm))) = true) /\
  (exists raw,
      _split_top_level norm = filter (fun p => negb (is_empty p)) raw /\
      List.length raw = S (List.length (split_positions norm))) /\
  (forall df' : DataFrame, well_formed df' ->
     _mask_from_query_with_rownum df' "`Country` == 'US' or __rownum__ == 1" =
     mask_or (fst (fst (_eval_basic_query df' "`Country` == 'US'")))
             (picked_mask df' (pick (seq 0 (df_len df')) [1])) /\
     forall i, i < df_len df' ->
       nth i (_mask_from_query_with_rownum df' "`Country` == 'US' or __rownum__ == 1") false =
       nth i (fst (fst (_eval_basic_query df' "`Country` == 'US'"))) false || (i =? 0)).
Proof.
  assert (Hsizes : forall (d : DataFrame) parts, well_formed d ->
            Forall (fun mk => List.length mk = df_len d) (group_masks d parts)).
  { intros d parts Hd. unfold group_masks. apply Forall_forall. intros mk Hin.
    apply in_map_iff in Hin. destruct Hin as (p & <- & _).
    now apply group_mask_length. }
  split; [apply mask_from_query_fold|].
  destruct (mask_from_query_fold df norm) as (m0 & ms & Hg & Hfold).
  pose proof (Hsizes df (or_groups norm) Hwf) as Hall. rewrite Hg in Hall.
  inversion Hall as [|? ? Hm0 Hms]. subst.
  split; [|split; [|split; [|split]]].
  - rewrite Hfold. now apply (fold_mask_or_nth ms m0 0).
  - intro i. rewrite Hfold, Hg. simpl.
    now apply (fold_mask_or_nth ms m0 i (df_len df)).
  - intros i Hin. unfold split_positions in Hin.
    apply (split_points_top_level _ _ [] _) in Hin; [exact Hin|reflexivity|].
    simpl. now rewrite string_length_chars.
  - unfold _split_top_level.
    destruct (split_loop_run (String.length norm) (String.length norm) []
                (SplitState (chars norm) [] [] 0 false false)) as [_ Hcount].
    + reflexivity.
    + simpl. now rewrite string_length_chars.
    + eexists. split; [reflexivity|].
      rewrite length_rev. simpl. rewrite Hcount. reflexivity.
  - intros df' Hwf'.
    assert (E : _mask_from_query_with_rownum df' "`Country` == 'US' or __rownum__ == 1" =
                mask_or (fst (fst (_eval_basic_query df' "`Country` == 'US'")))
                  (picked_mask df' (pick (seq 0 (df_len df')) [1]))).
    { unfold _mask_from_query_with_rownum.
      change (_split_top_level "`Country` == 'US' or __rownum__ == 1")
        with ["`Country` == 'US'"; "__rownum__ == 1"].
      cbn [union_groups].
      rewrite (mask_group_with_rownum_eq df' "__rownum__ == 1" " True " [1])
        by (reflexivity || discriminate).
      change (String.eqb (lower (or_else (strip " True ") "True")) "true") with true.
      cbv iota. f_equal.
      now rewrite (mask_group_without_rownum df' _ "`Country` == 'US'"). }
    split; [exact E|].
    intros i Hi. rewrite E, mask_or_nth.
    + f_equal. rewrite picked_mask_nth by exact Hi.
      destruct (i =? 0) eqn:E0.
      * apply Nat.eqb_eq in E0. subst i. apply existsb_eqb_in, in_pick.
        exists 1. split; [now left|]. split; [lia|].
        apply nth_error_seq0. split; [exact Hi | reflexivity].
      * destruct (existsb _ _) eqn:Ex; [|reflexivity].
        apply existsb_eqb_in, in_pick in Ex. destruct Ex as (n & [<-|[]] & _ & Hx).
        apply nth_error_seq0 in Hx. destruct Hx as [_ ->]. discriminate.
    + rewrite eval_basic_query_length, picked_mask_length; auto.
Qed.

End OrGroupClaims.

Section OrGroupWitness.
Import RegexExecutor.

Lemma people_well_formed : well_formed people.
Proof. repeat constructor. Qed.

Lemma or_groups_are_unioned_witness :
  well_formed people /\
  List.length
    (_mask_from_query_with_rownum people
       "`Country` == 'US' or __rownum__ == 2")
  = df_len people.
Proof.
  split; [exact people_well_formed|].
  exact (proj1 (proj2 (or_groups_are_unioned people
                         "`Country` == 'US' or __rownum__ == 2"
                         people_well_formed))).
Defined.

End OrGroupWitness.

(** ** The zero-hit fallback *)

Section ZeroHitClaims.
Import RegexExecutor.
Context {Sc : Scalars} {Q : QueryEngine}.

Lemma strict_tier_zero (df : DataFrame) (q used path path_zero : string)
    (idx : list nat) :
  _has_string_equality q = true -> mask_sum (isin df idx) = 0 ->
  fst (fst (strict_tier df q used path path_zero idx)) =
  match _mask_from_clauses df q with
  | Some m_ci => m_ci
  | None => isin df idx
  end.
Proof.
  intros Heq Hz. unfold strict_tier. rewrite Heq, Hz. cbn [Nat.eqb andb].
  destruct (_mask_from_clauses df q); reflexivity.
Qed.

Lemma clauses_name_alice (df : DataFrame) (col : column) :
  get_column df "Name" = Some col ->
  _mask_from_clauses df "`Name` == 'alice'" =
  Some (eq_casefold "alice" (_to_string (col_cells col))).
Proof.
  intro Hcol. unfold _mask_from_clauses.
  replace (Re.findall rx_equality "`Name` == 'alice'") with [["Name"; "'"; "alice"]]
    by (vm_compute; reflexivity).
  replace (Re.findall rx_numeric "`Name` == 'alice'") with (@nil (list string))
    by (vm_compute; reflexivity).
  replace (Re.finditer str_op_pat "`Name` == 'alice'") with (@nil Re.rmatch)
    by (vm_compute; reflexivity).
  cbn [fold_left equality_clause]. now rewrite Hcol.
Qed.

Lemma eq_casefold_alice (cells : list cell) (i : nat) :
  nth_error cells i = Some (CStr "Alice") ->
  nth i (eq_casefold "alice" (_to_string cells)) false = true.
Proof.
  intro H. unfold eq_casefold, _to_string. rewrite map_map.
  apply (map_nth_error (fun x => match text_of x with
                                 | Some t => String.eqb (casefold t) (casefold "alice")
                                 | None => false
                                 end)) in H.
  now rewrite (nth_error_nth _ _ false H).
Qed.

Lemma mask_sum_pos (mk : mask) (i : nat) :
  nth i mk false = true -> (mask_sum mk =? 0) = false.
Proof.
  revert i. induction mk as [|b mk IH]; intros i H.
  - destruct i; discriminate.
  - unfold mask_sum. simpl. destruct b; [reflexivity|].
    destruct i as [|i]; [discriminate|]. exact (IH i H).
Qed.

(** Let the filter hold an equality with a quoted literal.  When the
    strict evaluation of the first tier, or that of the second tier after
    the first has failed, succeeds and selects no row, the interpreter
    runs the clause matcher, whose equalities compare case-folded text,
    and returns its mask whenever it produces one.  In particular, on a
    frame whose [Name] column holds ["Alice"] in a row, the filter
    [`Name` == 'alice'] selects that row as soon as the strict engine
    finds no row for it, in [_eval_basic_query] and, when the
    normalization leaves the filter as it is written, in
    [_ensure_mask_from_query]. *)
Lemma zero_hit_fallback_masks (df : DataFrame) (q : string)
    (Heq : _has_string_equality q = true) :
  (forall idx,
      df_query df q = Ok idx -> mask_sum (isin df idx) = 0 ->
      fst (fst (_eval_basic_query df q)) =
      match _mask_from_clauses df q with
      | Some m_ci => m_ci
      | None => isin df idx
      end) /\
  (forall e idx,
      df_query df q = Raise e ->
      df_query df (rewrite_operators q) = Ok idx -> mask_sum (isin df idx) = 0 ->
      fst (fst (_eval_basic_query df q)) =
      match _mask_from_clauses df q with
      | Some m_ci => m_ci
      | None => isin df idx
      end) /\
  (forall (df' : DataFrame) (col : column) (i : nat),
      get_column df' "Name" = Some col ->
      nth_error (col_cells col) i = Some (CStr "Alice") ->
      (forall idx, df_query df' "`Name` == 'alice'" = Ok idx ->
                   mask_sum (isin df' idx) = 0) ->
      nth i (fst (fst (_eval_basic_query df' "`Name` == 'alice'"))) false = true /\
      (_normalize_row_filter "`Name` == 'alice'" (headers df') = Ok "`Name` == 'alice'" ->
       exists mk, _ensure_mask_from_query df' (Some "`Name` == 'alice'") = Ok mk /\
                  nth i mk false = true)).
Proof.
  split; [|split].
  - intros idx Hq Hz. unfold _eval_basic_query. rewrite Hq.
    now apply strict_tier_zero.
  - intros e idx Hq Hrew Hz. unfold _eval_basic_query. rewrite Hq, Hrew.
    now apply strict_tier_zero.
  - intros df' col i Hcol Hcell Hzero.
    assert (Hbase : nth i (fst (fst (_eval_basic_query df' "`Name` == 'alice'"))) false = true).
    { unfold _eval_basic_query.
      change (rewrite_operators "`Name` == 'alice'") with "`Name` == 'alice'".
      destruct (df_query df' "`Name` == 'alice'") as [idx|e] eqn:Hq.
      - rewrite strict_tier_zero by (reflexivity || now apply Hzero).
        rewrite (clauses_name_alice df' col Hcol). now apply eq_casefold_alice.
      - rewrite (clauses_name_alice df' col Hcol). now apply eq_casefold_alice. }
    split; [exact Hbase|].
    intro Hnorm. unfold _ensure_mask_from_query.
    change (is_empty (strip "`Name` == 'alice'")) with false. cbv iota.
    rewrite Hnorm. cbn [bind].
    assert (E : _mask_from_query_with_rownum df' "`Name` == 'alice'" =
                fst (fst (_eval_basic_query df' "`Name` == 'alice'"))).
    { unfold _mask_from_query_with_rownum.
      change (_split_top_level "`Name` == 'alice'") with ["`Name` == 'alice'"].
      cbn [union_groups].
      now rewrite (mask_group_without_rownum df' _ "`Name` == 'alice'"). }
    rewrite E, (mask_sum_pos _ i Hbase). eauto.
Qed.

End ZeroHitClaims.

(** ** Totality of the interpreter *)

Section TotalityClaims.
Import RegexExecutor.
Context {Sc : Scalars} {Q : QueryEngine}.

Lemma ensure_mask_returns (df : DataFrame) (rf norm : string) :
  _normalize_row_filter rf (headers df) = Ok norm ->
  exists mk, _ensure_mask_from_query df (Some rf) = Ok mk.
Proof.
  intro Hn. unfold _ensure_mask_from_query.
  destruct (is_empty (strip rf)); [eauto|].
  rewrite Hn. cbn [bind].
  destruct (mask_sum _ =? 0); [|eauto].
  destruct (soft_recall df rf); eauto.
Qed.

(** C5.  The interpreter is not total.  On a frame with a column named
    [C:\dir] every non-blank filter makes [_ensure_mask_from_query] raise
    [re.error]: [_normalize_row_filter] hands the column name between
    backticks to [re.sub] as the replacement template, where [\d] is a bad
    escape, and nothing catches the exception.  The rest of the claim
    holds: when both strict evaluations raise and the clause matcher
    recognizes nothing, the mask of the expression is all true; and the
    interpreter returns a mask whenever the normalization returns. *)
Theorem malformed_header_breaks_the_interpreter :
  _ensure_mask_from_query path_frame (Some "x == 1") = Raise ReError /\
  (forall (df : DataFrame) (q : string) e1 e2,
      df_query df q = Raise e1 ->
      df_query df (rewrite_operators q) = Raise e2 ->
      _mask_from_clauses df q = None ->
      _eval_basic_query df q = (all_true df, "all_false", q)) /\
  (forall (df : DataFrame) (rf norm : string),
      _normalize_row_filter rf (headers df) = Ok norm ->
      exists mk, _ensure_mask_from_query df (Some rf) = Ok mk).
Proof.
  split; [|split].
  - unfold _ensure_mask_from_query.
    change (is_empty (strip "x == 1")) with false. cbv iota.
    replace (_normalize_row_filter "x == 1" (headers path_frame))
      with (@Raise string ReError) by (vm_compute; reflexivity).
    reflexivity.
  - intros df q e1 e2 H1 H2 H3. unfold _eval_basic_query.
    now rewrite H1, H2, H3.
  - apply ensure_mask_returns.
Qed.

End TotalityClaims.

(** ** Find with a pattern derived from the row filter *)

Section DerivedPatternClaims.
Import RegexExecutor.
Context {Sc : Scalars} {Q : QueryEngine} {D : DateBranch}.

(** The find on [names_frame], whatever the query engine answers. *)
Lemma find_contains_on_names (head_n : nat) :
  exists p,
    execute_plan names_frame "find" "^.*$" "i" None None
      (Some "`Name`.str.contains('ali')") head_n = Ok (names_frame, p) /\
    regex p = "^.*$" /\ regex_source p = "regex" /\
    result_rows_description p = filter_and_pattern.
Proof.
  destruct (ensure_mask_returns names_frame "`Name`.str.contains('ali')"
              "`Name`.str.contains(r'ali')") as [mk Hmk].
  { vm_compute. reflexivity. }
  unfold execute_plan. rewrite Hmk. cbn [bind].
  change (String.eqb (lower "find") "find") with true.
  change (String.eqb (lower "find") "replace") with false.
  change (is_empty "^.*$") with false.
  change (is_empty "`Name`.str.contains('ali')") with false.
  cbv iota. cbn [andb].
  replace (_normalize_row_filter "`Name`.str.contains('ali')" (headers names_frame))
    with (Ok "`Name`.str.contains(r'ali')") by (vm_compute; reflexivity).
  cbn [bind].
  replace (_display_regex_and_columns_from_row_filter (Some "`Name`.str.contains(r'ali')"))
    with (@None string, @nil string) by (vm_compute; reflexivity).
  cbn [is_none negb andb orb].
  rewrite !andb_false_r. cbv iota. cbn [andb].
  change (is_empty "^.*$") with false. cbv iota.
  destruct (Re.compile "^.*$" (_compile_flags "i")) as [rx|] eqn:Hrx;
    [|vm_compute in Hrx; discriminate].
  change (_auto_columns names_frame "find" "^.*$" None) with ["Name"].
  cbn [foldM bind find_column].
  change (get_column names_frame "Name")
    with (Some (Column "Name" "object" [CStr "Alice"; CStr "Bob"])).
  cbn [bind]. eexists. split; [reflexivity|]. cbn. auto.
Qed.

(** C2.  A find with the match-all pattern and a row filter made of a
    [contains] literal does not adopt a regex derived from the filter:
    for every query engine the regex stays [^.*$] with source ["regex"]
    and the description is the one of "filter AND pattern match".  The
    function that derives the regex finds no token in the normalized
    filter (nor in a [startswith] filter), while it does for an equality.
    With the columns given as [Name], the filter selects the row of the
    two-line name and the result rows are empty: they are not the rows of
    the mask. *)
Theorem contains_filter_is_not_adopted (head_n : nat) :
  (exists p,
      execute_plan names_frame "find" "^.*$" "i" None None
        (Some "`Name`.str.contains('ali')") head_n = Ok (names_frame, p) /\
      regex p = "^.*$" /\ regex_source p = "regex" /\
      result_rows_description p = filter_and_pattern) /\
  _display_regex_and_columns_from_row_filter
    (Some "`Name`.str.contains(r'ali')") = (None, []) /\
  _display_regex_and_columns_from_row_filter
    (Some "`Name`.str.startswith('A')") = (None, []) /\
  _display_regex_and_columns_from_row_filter
    (Some "`Name` == 'Alice'") = (Some "(?:Alice)", ["Name"]) /\
  match @execute_plan integer_scalars equality_engine no_date_branch
          people "find" "^.*$" "i" (Some ["Name"]) None
          (Some "`Name`.str.contains('ol')") 1000 with
  | Ok (_, p') =>
      mask_row_indices p' = [3] /\ result_rows_indices p' = [] /\
      regex_source p' = "regex" /\
      result_rows_description p' = filter_and_pattern
  | Raise _ => False
  end.
Proof.
  split; [apply find_contains_on_names|].
  split; [vm_compute; reflexivity|].
  split; [vm_compute; reflexivity|].
  split; [vm_compute; reflexivity|].
  vm_compute. repeat split; reflexivity.
Qed.

End DerivedPatternClaims.

(** ** The plain replace with the match-all pattern *)

Section MatchAllFacts.
Import RegexExecutor.

Lemma m_star_any (fl : Re.mflags) (s : Re.mstate) (k : Re.mstate -> option Re.mstate) :
  Re.m fl (Re.NRep 0 None true Re.NAny) s k =
  star_any fl k (0 + List.length (Re.rest s)) 0 s.
Proof. reflexivity. Qed.

Lemma star_any_takes_all (fl : Re.mflags) (k : Re.mstate -> option Re.mstate)
    (caps : list (nat * Re.span)) :
  forall (r b : list ascii) (n cnt : nat),
    single_line r -> List.length r <= n ->
    (forall b', k (Re.MState b' [] caps) = Some (Re.MState b' [] caps)) ->
    star_any fl k n cnt (Re.MState b r caps) = Some (Re.MState (rev r ++ b) [] caps).
Proof.
  induction r as [|c r IH]; intros b n cnt Hsl Hn Hk.
  - destruct n; simpl; apply Hk.
  - destruct n as [|n]; [simpl in Hn; lia|].
    cbn [star_any]. cbn [Re.m Re.rest].
    assert (Hc : Ascii.eqb c newline = false).
    { apply Ascii.eqb_neq. intro E. apply Hsl. now left. }
    rewrite Hc. cbn [negb]. rewrite orb_true_r.
    unfold Re.advance. cbn [Re.rest Re.before Re.caps List.length].
    rewrite (proj2 (Nat.ltb_lt _ _) (Nat.lt_succ_diag_r _)). rewrite orb_true_r.
    fold (star_any fl k).
    rewrite IH.
    + cbn [Re.or_else_opt]. simpl. now rewrite <- app_assoc.
    + intro E. apply Hsl. now right.
    + simpl in Hn. lia.
    + exact Hk.
Qed.

Lemma search_from_here (rx : Re.regex) (b r : list ascii) (ma : bool)
    (s1 : Re.mstate) :
  Re.match_here rx (Re.MState b r []) ma (fun _ => true) = Some s1 ->
  Re.search_from rx b r ma = Some (Re.MState b r [], s1).
Proof. intro H. destruct r; simpl; now rewrite H. Qed.

Lemma search_from_end (rx : Re.regex) (b : list ascii) (ma : bool) :
  Re.match_here rx (Re.MState b [] []) ma (fun _ => true) = None ->
  Re.search_from rx b [] ma = None.
Proof. intro H. simpl. now rewrite H. Qed.

Lemma m_cat (fl : Re.mflags) (a b : Re.node) (s : Re.mstate)
    (k : Re.mstate -> option Re.mstate) :
  Re.m fl (Re.NCat a b) s k = Re.m fl a s (fun s1 => Re.m fl b s1 k).
Proof. reflexivity. Qed.

Lemma m_at (fl : Re.mflags) (w : Re.at_code) (s : Re.mstate)
    (k : Re.mstate -> option Re.mstate) :
  Re.m fl (Re.NAt w) s k = if Re.at_matches fl w s then k s else None.
Proof. reflexivity. Qed.

Lemma match_all_at_start (rx : Re.regex) (t : list ascii) :
  Re.re_node rx = match_all_node -> single_line t ->
  Re.match_here rx (Re.MState [] t []) false (fun _ => true) =
  Some (Re.MState (rev t) [] []).
Proof.
  intros Hnode Hsl. unfold Re.match_here. rewrite Hnode. unfold match_all_node.
  rewrite m_cat, m_at. cbn [Re.at_matches Re.before].
  rewrite m_cat, m_star_any.
  cbn [Re.rest]. rewrite star_any_takes_all.
  - now rewrite app_nil_r.
  - exact Hsl.
  - simpl. lia.
  - intro b'. reflexivity.
Qed.

Lemma match_all_not_at_end (rx : Re.regex) (t : list ascii) :
  Re.re_node rx = match_all_node -> single_line t ->
  Re.match_here rx (Re.MState (rev t) [] []) (List.length (rev t) =? 0)
    (fun _ => true) = None.
Proof.
  intros Hnode Hsl. unfold Re.match_here. rewrite Hnode. unfold match_all_node.
  destruct (rev t) as [|c b] eqn:Hrev.
  - reflexivity.
  - rewrite m_cat, m_at. cbn [Re.at_matches Re.before].
    assert (Hc : Ascii.eqb c newline = false).
    { apply Ascii.eqb_neq. intro E. apply Hsl. apply in_rev. rewrite Hrev, E. now left. }
    rewrite Hc, andb_false_r. reflexivity.
Qed.

Lemma finditer_match_all (rx : Re.regex) (text : string) :
  Re.re_node rx = match_all_node -> single_line (chars text) ->
  Re.finditer rx text = [Re.RMatch (chars text) 0 (String.length text) []].
Proof.
  intros Hnode Hsl. unfold Re.finditer.
  replace (2 * String.length text + 2) with (S (S (2 * String.length text))) by lia.
  cbn [Re.finditer_from].
  rewrite (search_from_here rx [] (chars text) false _ (match_all_at_start rx _ Hnode Hsl)).
  cbn [Re.before Re.rest Re.pos List.length].
  rewrite (search_from_end rx (rev (chars text)) _ (match_all_not_at_end rx _ Hnode Hsl)).
  unfold Re.mk_match, Re.subject, Re.pos. cbn [Re.before Re.rest Re.caps List.length rev_append].
  now rewrite length_rev, string_length_chars.
Qed.

Lemma compile_match_all (z : Z) :
  exists rx, Re.compile "^.*$" z = Some rx /\ Re.re_node rx = match_all_node.
Proof.
  unfold Re.compile.
  change (Re.leading_flags (List.length (chars "^.*$")) (chars "^.*$"))
    with (0%Z, chars "^.*$").
  cbv iota beta.
  destruct (Z.testbit (Z.lor z 0) 6).
  - eexists. split; [vm_compute; reflexivity | reflexivity].
  - eexists. split; [vm_compute; reflexivity | reflexivity].
Qed.

Lemma parse_template_plain (rx : Re.regex) :
  forall (l : list ascii) (fuel : nat),
    plain l -> List.length l < fuel ->
    Re.parse_template fuel rx l = Some (map Re.TLit l).
Proof.
  induction l as [|c l IH]; intros fuel Hp Hf.
  - destruct fuel; [lia | reflexivity].
  - destruct fuel as [|fuel]; [lia|].
    assert (Hc : c <> "\"%char) by (intro E; apply Hp; now left).
    assert (Hl : plain l) by (intro E; apply Hp; now right).
    simpl in Hf.
    cbn [Re.parse_template].
    destruct c as [b0 b1 b2 b3 b4 b5 b6 b7].
    destruct b0, b1, b2, b3, b4, b5, b6, b7;
      try (exfalso; apply Hc; reflexivity);
      rewrite IH by (exact Hl || lia); reflexivity.
Qed.

Lemma concat_singletons (l : list ascii) :
  concat (map (fun c => String c EmptyString) l) = str l.
Proof. induction l as [|c l IH]; simpl; [reflexivity | now rewrite IH]. Qed.

Lemma expand_plain (l : list ascii) (mt : Re.rmatch) :
  Re.expand (map Re.TLit l) mt = str l.
Proof.
  unfold Re.expand. rewrite map_map. apply concat_singletons.
Qed.

Lemma string_append_empty (s : string) : (s ++ EmptyString)%string = s.
Proof. induction s; simpl; [reflexivity | now rewrite IHs]. Qed.

Lemma sub_match_all (rx : Re.regex) (rep text : string) :
  Re.re_node rx = match_all_node -> plain (chars rep) -> single_line (chars text) ->
  Re.sub rx rep text = Some rep.
Proof.
  intros Hnode Hp Hsl. unfold Re.sub.
  rewrite parse_template_plain by (exact Hp || (rewrite string_length_chars; lia)).
  unfold Re.sub_fn. rewrite finditer_match_all by assumption.
  cbn [Re.sub_pieces Re.m_start Re.m_end]. rewrite expand_plain, str_chars.
  unfold Re.slice. cbn [fst snd]. rewrite Nat.sub_diag. cbn [firstn].
  rewrite <- string_length_chars, skipn_all.
  cbn [concat fold_right str string_of_list_ascii String.append].
  now rewrite string_append_empty.
Qed.

Lemma count_match_all (rx : Re.regex) (text : string) :
  Re.re_node rx = match_all_node -> single_line (chars text) ->
  Re.count rx text = 1.
Proof.
  intros Hnode Hsl. unfold Re.count. now rewrite finditer_match_all.
Qed.

(** A template without a backslash is always accepted. *)
Lemma sub_plain_returns (rx : Re.regex) (rep text : string) :
  plain (chars rep) -> exists t, Re.sub rx rep text = Some t.
Proof.
  intro Hp. unfold Re.sub.
  rewrite parse_template_plain by (exact Hp || (rewrite string_length_chars; lia)).
  eauto.
Qed.

End MatchAllFacts.

Section ReplaceColumns.
Import RegexExecutor.
Context {Sc : Scalars}.

Lemma text_of_cell_of_text (x : cell) : text_of (cell_of_text (text_of x)) = text_of x.
Proof. destruct x; reflexivity. Qed.

Lemma replace_cell_post (rx : Re.regex) (rep : string) (b : bool) (x : cell) :
  Re.re_node rx = match_all_node -> plain (chars rep) ->
  exists y, replace_cell rx rep (b, x) = Ok y /\ cell_post rep b x y.
Proof.
  intros Hnode Hp. unfold replace_cell. destruct b.
  - destruct (text_of x) as [t|] eqn:Ht.
    + destruct (sub_plain_returns rx rep t Hp) as [t' Hsub]. rewrite Hsub.
      eexists. split; [reflexivity|]. repeat split; try discriminate.
      * intros _ t0 E Hsl. rewrite Ht in E. injection E as <-.
        rewrite (sub_match_all rx rep t Hnode Hp Hsl) in Hsub. now inversion Hsub.
      * intros _ E. subst x. discriminate.
    + eexists. split; [reflexivity|]. repeat split; try discriminate; auto.
      intros _ t E. congruence.
  - eexists. split; [reflexivity|]. repeat split; try discriminate.
    intros _. apply text_of_cell_of_text.
Qed.

Lemma mapM_pointwise {A B : Type} (f : A -> result B) (P : A -> B -> Prop)
    (l : list A) :
  (forall a, exists y, f a = Ok y /\ P a y) ->
  exists ys, mapM f l = Ok ys /\
    forall i a, nth_error l i = Some a -> exists y, nth_error ys i = Some y /\ P a y.
Proof.
  intro Hf. induction l as [|a l (ys & Hys & Hnth)].
  - exists []. split; [reflexivity|]. intros [|i] a H; discriminate.
  - destruct (Hf a) as (y & Hy & HP). exists (y :: ys). split.
    + simpl. rewrite Hy. cbn [bind]. rewrite Hys. reflexivity.
    + intros [|i] a' H; simpl in *.
      * inversion H. subst. eauto.
      * now apply Hnth.
Qed.

Lemma nth_error_combine {A B : Type} (l : list A) (l' : list B) (i : nat) (a : A) (b : B) :
  nth_error l i = Some a -> nth_error l' i = Some b ->
  nth_error (combine l l') i = Some (a, b).
Proof.
  revert l' i. induction l as [|x l IH]; intros [|y l'] [|i] Ha Hb; simpl in *;
    try discriminate.
  - now inversion Ha; inversion Hb.
  - now apply IH.
Qed.

Lemma total_of_acc (l : list nat) (a : nat) : fold_left Nat.add l a = a + total_of l.
Proof.
  unfold total_of. revert a. induction l as [|x l IH]; intro a; simpl; [lia|].
  rewrite IH, (IH x). lia.
Qed.

Lemma total_of_zero (l : list nat) (i x : nat) :
  total_of l = 0 -> nth_error l i = Some x -> x = 0.
Proof.
  revert i. induction l as [|y l IH]; intros i Ht Hn.
  - destruct i; discriminate.
  - unfold total_of in Ht. simpl in Ht. rewrite total_of_acc in Ht.
    destruct i as [|i]; simpl in Hn.
    + inversion Hn. lia.
    + apply (IH i); [lia | exact Hn].
Qed.

Lemma get_set_same (df : DataFrame) (c dt : string) (cells : list cell) (col : column) :
  get_column df c = Some col ->
  get_column (set_column df c dt cells) c = Some (Column c dt cells).
Proof.
  unfold get_column, set_column. cbn [df_columns].
  induction (df_columns df) as [|x l IH]; [discriminate|].
  simpl. destruct (String.eqb (col_name x) c) eqn:E.
  - intros _. cbn [col_name]. now rewrite String.eqb_refl.
  - rewrite E. exact IH.
Qed.

Lemma get_set_other (df : DataFrame) (c c' dt : string) (cells : list cell) :
  c' <> c ->
  get_column (set_column df c dt cells) c' = get_column df c'.
Proof.
  intro Hne. unfold get_column, set_column. cbn [df_columns].
  induction (df_columns df) as [|x l IH]; [reflexivity|].
  simpl. destruct (String.eqb (col_name x) c) eqn:E.
  - cbn [col_name]. apply String.eqb_eq in E.
    assert (E1 : String.eqb c c' = false) by (apply String.eqb_neq; congruence).
    rewrite E1. rewrite E, E1. exact IH.
  - destruct (String.eqb (col_name x) c'); [reflexivity | exact IH].
Qed.

Lemma replace_column_rewrites (rx : Re.regex) (rep : string) (mk : mask)
    (df : DataFrame) (acc : replace_acc) (c : string) :
  Re.re_node rx = match_all_node -> plain (chars rep) ->
  get_column df c <> None -> get_column (ra_out acc) c = get_column df c ->
  exists acc', replace_column rx rep mk acc c = Ok acc' /\
    rewritten rep mk df (ra_out acc') c /\
    forall c', c' <> c -> get_column (ra_out acc') c' = get_column (ra_out acc) c'.
Proof.
  intros Hnode Hp Hsome Hsame. unfold replace_column. rewrite Hsame.
  destruct (get_column df c) as [col|] eqn:Hcol; [|contradiction].
  destruct (0 <? total_of (masked_counts rx mk (col_cells col))) eqn:Hn.
  - destruct (mapM_pointwise (replace_cell rx rep)
                (fun p y => cell_post rep (fst p) (snd p) y)
                (combine mk (col_cells col))) as (cells' & Hm & Hpost).
    { intros [b x]. now apply replace_cell_post. }
    rewrite Hm. cbn [bind]. eexists. split; [reflexivity|].
    cbn [ra_out]. split.
    + exists col, (Column c "string" cells'). split; [exact Hcol|]. split.
      * apply (get_set_same _ _ _ _ col). exact Hsame.
      * intros i b x Hb Hx. cbn [col_cells].
        exact (Hpost i (b, x) (nth_error_combine _ _ _ _ _ Hb Hx)).
    + intros c' Hne. now apply get_set_other.
  - eexists. split; [reflexivity|]. cbn [ra_out]. split; [|reflexivity].
    exists col, col. split; [exact Hcol|]. split; [exact Hsame|].
    intros i b x Hb Hx. exists x. split; [exact Hx|].
    apply Nat.ltb_ge in Hn. assert (Hz : total_of (masked_counts rx mk (col_cells col)) = 0) by lia.
    repeat split; auto.
    intros -> t Ht Hsl. exfalso.
    assert (Hc : nth_error (masked_counts rx mk (col_cells col)) i = Some 1).
    { unfold masked_counts.
      rewrite (nth_error_map _ i), (nth_error_combine _ _ _ _ _ Hb Hx). cbn [option_map fst snd].
      rewrite Ht. now rewrite count_match_all. }
    pose proof (total_of_zero _ _ _ Hz Hc). discriminate.
Qed.

Lemma fold_replace_rewrites (rx : Re.regex) (rep : string) (mk : mask) (df : DataFrame) :
  Re.re_node rx = match_all_node -> plain (chars rep) ->
  forall (todo_cols : list string) (acc : replace_acc),
    NoDup todo_cols ->
    (forall c, In c todo_cols ->
       get_column df c <> None /\ get_column (ra_out acc) c = get_column df c) ->
    exists acc', foldM (replace_column rx rep mk) todo_cols acc = Ok acc' /\
      (forall c, In c todo_cols -> rewritten rep mk df (ra_out acc') c) /\
      (forall c, ~ In c todo_cols -> get_column (ra_out acc') c = get_column (ra_out acc) c).
Proof.
  intros Hnode Hp. induction todo_cols as [|c cs IH]; intros acc Hnd Hin.
  - exists acc. split; [reflexivity|]. split; [intros c []|reflexivity].
  - inversion Hnd as [|? ? Hnotin Hnd']. subst.
    destruct (Hin c (or_introl eq_refl)) as [Hsome Hsame].
    destruct (replace_column_rewrites rx rep mk df acc c Hnode Hp Hsome Hsame)
      as (acc1 & Hstep & Hrw & Hother).
    destruct (IH acc1 Hnd') as (acc' & Hfold & Hdone & Hrest).
    { intros c' Hc'. destruct (Hin c' (or_intror Hc')) as [H1 H2].
      split; [exact H1|]. rewrite Hother; [exact H2|]. intro E. subst. contradiction. }
    exists acc'. split; [simpl; rewrite Hstep; exact Hfold|]. split.
    + intros c' [<-|Hc']; [|now apply Hdone].
      destruct Hrw as (col & col' & H1 & H2 & H3).
      exists col, col'. split; [exact H1|]. split; [|exact H3].
      now rewrite Hrest.
    + intros c' Hc'. rewrite Hrest by (intro; apply Hc'; now right).
      apply Hother. intro E. apply Hc'. now left.
Qed.

End ReplaceColumns.

Section MatchAllReplaceClaims.
Import RegexExecutor.
Context {Sc : Scalars} {Q : QueryEngine} {D : DateBranch}.

Lemma mask_from_query_length (df : DataFrame) (norm : string) :
  well_formed df ->
  List.length (_mask_from_query_with_rownum df norm) = df_len df.
Proof.
  intro Hwf. destruct (mask_from_query_fold df norm) as (m0 & ms & Hg & ->).
  assert (Hall : Forall (fun mk => List.length mk = df_len df) (m0 :: ms)).
  { rewrite <- Hg. unfold group_masks. apply Forall_forall. intros mk Hin.
    apply in_map_iff in Hin. destruct Hin as (p & <- & _).
    now apply group_mask_length. }
  inversion Hall as [|? ? Hm0 Hms]. subst.
  now apply (fold_mask_or_nth ms m0 0).
Qed.

Lemma ensure_mask_length (df : DataFrame) (row_filter : option string) (mk : mask) :
  well_formed df ->
  _ensure_mask_from_query df row_filter = Ok mk ->
  List.length mk = df_len df.
Proof.
  intros Hwf. unfold _ensure_mask_from_query.
  destruct row_filter as [rf|]; [|intro E; inversion E; apply all_true_length].
  destruct (is_empty (strip rf)); [intro E; inversion E; apply all_true_length|].
  destruct (_normalize_row_filter rf (headers df)) as [norm|e]; [|discriminate].
  cbn [bind].
  pose proof (mask_from_query_length df norm Hwf) as Hl.
  destruct (mask_sum _ =? 0); [|intro E; inversion E; subst; exact Hl].
  unfold soft_recall.
  destruct (Re.fullmatch rx_single_equality rf) as [mt|];
    [|intro E; inversion E; subst; exact Hl].
  destruct (get_column df _) as [c|] eqn:Hc; [|intro E; inversion E; subst; exact Hl].
  intro E. inversion E. unfold eq_casefold, _to_string. rewrite !length_map.
  exact (column_length df _ c Hwf Hc).
Qed.

Lemma ensure_mask_ok (df : DataFrame) (row_filter : option string) :
  (forall rf, row_filter = Some rf ->
     is_ok (_normalize_row_filter rf (headers df)) = true) ->
  exists mk, _ensure_mask_from_query df row_filter = Ok mk.
Proof.
  intro Hn. destruct row_filter as [rf|]; [|eexists; reflexivity].
  specialize (Hn rf eq_refl).
  destruct (_normalize_row_filter rf (headers df)) as [norm|e] eqn:E; [|discriminate].
  exact (ensure_mask_returns df rf norm E).
Qed.

(** What a replace with the pattern [^.*$] does overwrite.  With explicit
    columns that are distinct and exist, a replacement without backslash
    that is not the date sentinel, and a row filter that normalizes, it
    returns; the regex it compiles is the supplied pattern with source
    ["regex"], whatever regex the row filter lets derive for the display,
    and the columns are the given ones.  In those columns, in the rows of the mask, every cell
    whose text has no newline becomes the replacement and every null cell
    stays null; in the rows outside the mask a cell keeps its text; and in
    the other columns every cell is unchanged. *)
Theorem replace_match_all_overwrites (df : DataFrame) (intent flags rep : string)
    (columns : list string) (row_filter : option string) (head_n : nat) :
  lower intent = "replace" ->
  well_formed df ->
  columns <> [] -> NoDup columns ->
  (forall c, In c columns -> get_column df c <> None) ->
  plain (chars rep) -> is_date_sentinel rep = false ->
  (forall rf, row_filter = Some rf ->
     is_ok (_normalize_row_filter rf (headers df)) = true) ->
  exists mk out p,
    _ensure_mask_from_query df row_filter = Ok mk /\
    execute_plan df intent "^.*$" flags (Some columns) (Some rep) row_filter head_n
      = Ok (out, p) /\
    regex p = "^.*$" /\ regex_source p = "regex" /\ columns_applied p = columns /\
    forall c i x, cell_at df i c = Some x ->
      exists y, cell_at out i c = Some y /\
        (In c columns -> nth i mk false = true ->
           (forall t, text_of x = Some t -> single_line (chars t) -> y = CStr rep) /\
           (x = CNull -> y = CNull)) /\
        (In c columns -> nth i mk false = false -> text_of y = text_of x) /\
        (~ In c columns -> y = x).
Proof.
  intros Hintent Hwf Hne Hnd Hcols Hp Hsent Hnorm.
  destruct (ensure_mask_ok df row_filter Hnorm) as [mk Hmk].
  pose proof (ensure_mask_length df row_filter mk Hwf Hmk) as Hlen.
  destruct (compile_match_all (_compile_flags flags)) as (rx & Hrx & Hnode).
  destruct (fold_replace_rewrites rx rep mk df Hnode Hp columns (ReplaceAcc df 0 [] []) Hnd)
    as (acc & Hfold & Hdone & Hrest).
  { intros c Hc. split; [now apply Hcols | reflexivity]. }
  assert (Hcells : forall c i x, cell_at df i c = Some x ->
            exists y, cell_at (ra_out acc) i c = Some y /\
              (In c columns -> nth i mk false = true ->
                 (forall t, text_of x = Some t -> single_line (chars t) -> y = CStr rep) /\
                 (x = CNull -> y = CNull)) /\
              (In c columns -> nth i mk false = false -> text_of y = text_of x) /\
              (~ In c columns -> y = x)).
  { intros c i x Hx. unfold cell_at in Hx |- *.
    destruct (get_column df c) as [col|] eqn:Hc; [|discriminate].
    destruct (in_dec string_dec c columns) as [Hin|Hnin].
    - destruct (Hdone c Hin) as (col0 & col' & H1 & H2 & H3).
      rewrite Hc in H1. injection H1 as <-. rewrite H2.
      assert (Hi : i < List.length mk).
      { rewrite Hlen, <- (column_length df c col Hwf Hc).
        apply nth_error_Some. congruence. }
      destruct (H3 i _ x (nth_error_nth' mk false Hi) Hx) as (y & Hy & P1 & P2 & P3).
      exists y. split; [exact Hy|]. split; [|split].
      + intros _ Hm. split; [now apply P1 | now apply P2].
      + intros _ Hm. now apply P3.
      + intro. contradiction.
    - rewrite (Hrest c Hnin). cbn [ra_out]. rewrite Hc. exists x.
      split; [exact Hx|]. split; [|split]; try (intro; contradiction). reflexivity. }
  exists mk, (ra_out acc).
  unfold execute_plan. rewrite Hintent, Hmk. cbn [bind]. cbv zeta.
  change (String.eqb "replace" "find") with false.
  change (String.eqb "replace" "replace") with true.
  change (is_empty "^.*$") with false.
  cbv iota. cbn [andb].
  change (is_empty "^.*$") with false. cbv iota.
  change (PlanV2.or_empty (Some rep)) with rep. rewrite Hsent, Hrx.
  assert (Hcs : _auto_columns df intent "^.*$" (Some columns) = columns).
  { unfold _auto_columns. destruct columns; [contradiction | reflexivity]. }
  rewrite Hcs.
  assert (Hnrf : exists nrf,
            match row_filter with
            | Some rf =>
                if is_empty rf then Ok None
                else (n <- _normalize_row_filter rf (headers df) ;; Ok (Some n))
            | None => Ok None
            end = Ok nrf).
  { destruct row_filter as [rf|]; [|eexists; reflexivity].
    destruct (is_empty rf); [eexists; reflexivity|].
    specialize (Hnorm rf eq_refl).
    destruct (_normalize_row_filter rf (headers df)); [|discriminate].
    eexists; reflexivity. }
  destruct Hnrf as [nrf ->]. cbn [bind].
  destruct (_display_regex_and_columns_from_row_filter nrf) as [disp_rx disp_cols].
  rewrite Hfold. cbn [bind].
  match goal with |- context [if ?b then (disp_rx, _) else _] => destruct b end;
    (eexists; split; [reflexivity|]; split; [reflexivity|]; cbn [regex regex_source columns_applied];
     auto).
Qed.

End MatchAllReplaceClaims.

Section MatchAllReplaceWitness.
Import RegexExecutor.

Lemma x_is_plain : plain (chars "X").
Proof. intros [H|[]]. discriminate. Qed.

Lemma replace_match_all_overwrites_witness :
  exists mk out p,
    _ensure_mask_from_query people (Some "`Country` == 'US'") = Ok mk /\
    execute_plan people "Replace" "^.*$" "i" (Some ["Name"]) (Some "X")
      (Some "`Country` == 'US'") 10 = Ok (out, p) /\
    regex p = "^.*$" /\ regex_source p = "regex" /\ columns_applied p = ["Name"] /\
    forall c i x, cell_at people i c = Some x ->
      exists y, cell_at out i c = Some y /\
        (In c ["Name"] -> nth i mk false = true ->
           (forall t, text_of x = Some t -> single_line (chars t) -> y = CStr "X") /\
           (x = CNull -> y = CNull)) /\
        (In c ["Name"] -> nth i mk false = false -> text_of y = text_of x) /\
        (~ In c ["Name"] -> y = x).
Proof.
  apply (replace_match_all_overwrites people "Replace" "i" "X" ["Name"]
           (Some "`Country` == 'US'") 10).
  - reflexivity.
  - exact people_well_formed.
  - discriminate.
  - repeat constructor. intros [].
  - intros c [<-|[]]. discriminate.
  - exact x_is_plain.
  - reflexivity.
  - intros rf E. injection E as <-. vm_compute. reflexivity.
Defined.

(** On the frame [people], with all rows selected, a replace of [^.*$] by
    [X] in the column [Name] overwrites neither the null cell of row 2
    (its text is [None] before and after) nor the two-line cell of row 3,
    while it does overwrite the cell of row 0. *)
Lemma replace_match_all_skips_null_and_multiline_cells :
  match @execute_plan integer_scalars equality_engine no_date_branch
          people "replace" "^.*$" "i" (Some ["Name"]) (Some "X") None 10 with
  | Ok (out, p) =>
      mask_row_indices p = [0; 1; 2; 3] /\
      option_map text_of (cell_at people 2 "Name") = Some None /\
      option_map text_of (cell_at out 2 "Name") = Some None /\
      option_map text_of (cell_at people 3 "Name")
        = Some (Some ("Car" ++ String newline "ol")) /\
      option_map text_of (cell_at out 3 "Name")
        = Some (Some ("Car" ++ String newline "ol")) /\
      option_map text_of (cell_at out 0 "Name") = Some (Some "X")
  | Raise _ => False
  end.
Proof. vm_compute. repeat split; reflexivity. Qed.

End MatchAllReplaceWitness.

(** ** Plans: normal form, alignment and the rule-based planner *)

Section PlanFacts.
Import PlanV2.

Lemma lstrip_clean (l : list ascii) : clean_head (lstrip_chars l).
Proof.
  induction l as [|c l IH]; simpl; [exact I|].
  destruct (is_space c) eqn:E; [exact IH | exact E].
Qed.

Lemma lstrip_fixed (l : list ascii) : clean_head l -> lstrip_chars l = l.
Proof. destruct l as [|c l]; simpl; [reflexivity|]. now intros ->. Qed.

Lemma lstrip_split (l : list ascii) :
  exists sp, l = (sp ++ lstrip_chars l)%list.
Proof.
  induction l as [|c l [sp IH]]; [now exists []|]. simpl.
  destruct (is_space c).
  - exists (c :: sp). simpl. now rewrite <- IH.
  - now exists [].
Qed.

Lemma strip_chars_fixed (l : list ascii) : strip_chars (strip_chars l) = strip_chars l.
Proof.
  unfold strip_chars.
  set (L := lstrip_chars l). set (R := lstrip_chars (rev L)).
  assert (HR : clean_head R) by apply lstrip_clean.
  assert (Hrev : lstrip_chars (rev R) = rev R).
  { apply lstrip_fixed. destruct (lstrip_split (rev L)) as [sp Hsp]. fold R in Hsp.
    assert (HL : L = (rev R ++ rev sp)%list).
    { rewrite <- (rev_involutive L), Hsp, rev_app_distr. reflexivity. }
    pose proof (lstrip_clean l) as Hc. fold L in Hc. rewrite HL in Hc.
    destruct (rev R); [exact I | exact Hc]. }
  rewrite Hrev, rev_involutive. now rewrite (lstrip_fixed R HR).
Qed.

Lemma strip_fixed (s : string) : strip (strip s) = strip s.
Proof. unfold strip. now rewrite chars_str, strip_chars_fixed. Qed.

Lemma filter_fixed {A : Type} (f : A -> bool) (l : list A) :
  filter f (filter f l) = filter f l.
Proof.
  induction l as [|x l IH]; [reflexivity|]. simpl.
  destruct (f x) eqn:E; [|exact IH]. simpl. now rewrite E, IH.
Qed.

Lemma is_empty_false_str (l : list ascii) : is_empty (str l) = false -> l <> [].
Proof. destruct l; [discriminate | discriminate]. Qed.

(** X1.  [normalize] is idempotent: a normalized plan is its own normal
    form. *)
Theorem normalize_idempotent (plan : RegexPlan) :
  normalize (normalize plan) = normalize plan.
Proof.
  destruct plan as [i p f c r rf]. unfold normalize.
  cbn [intent pattern flags columns replacement row_filter]. f_equal.
  - destruct (is_empty (strip p)) eqn:E.
    + assert (H : or_else (strip p) match_all = match_all)
        by (unfold or_else; now rewrite E).
      rewrite H. reflexivity.
    + assert (H : or_else (strip p) match_all = strip p)
        by (unfold or_else; now rewrite E).
      rewrite H, strip_fixed. exact H.
  - set (k := filter (fun ch => char_in ch allowed) (chars (or_else f "i"))).
    destruct (is_empty (str k)) eqn:E.
    + assert (H : or_else (str k) "i" = "i") by (unfold or_else; now rewrite E).
      rewrite H. reflexivity.
    + assert (H : or_else (str k) "i" = str k) by (unfold or_else; now rewrite E).
      rewrite H, H, chars_str. unfold k at 1. rewrite filter_fixed. exact H.
  - unfold none_if_empty.
    destruct (is_empty (strip (or_empty r))) eqn:E; [reflexivity|].
    destruct (mem (strip (or_empty r)) na_like) eqn:Hna.
    + reflexivity.
    + cbn [or_empty]. rewrite strip_fixed, E, Hna. reflexivity.
Qed.

(** ** What the validator accepts *)

Lemma nil_app_inv {A : Type} (a b : list A) : (a ++ b)%list = [] <-> a = [] /\ b = [].
Proof. split; [apply app_eq_nil | intros [-> ->]; reflexivity]. Qed.

Lemma flat_map_nil {A B : Type} (f : A -> list B) (l : list A) :
  flat_map f l = [] <-> forall x, In x l -> f x = [].
Proof.
  induction l as [|x l IH]; simpl.
  - split; [intros _ y [] | reflexivity].
  - rewrite nil_app_inv, IH. split.
    + intros [H1 H2] y [<-|Hy]; auto.
    + intro H. split; [apply H; now left | intros y Hy; apply H; now right].
Qed.

Lemma filter_nil {A : Type} (f : A -> bool) (l : list A) :
  filter f l = [] <-> forall x, In x l -> f x = false.
Proof.
  induction l as [|x l IH]; simpl.
  - split; [intros _ y [] | reflexivity].
  - destruct (f x) eqn:E.
    + split; [discriminate|]. intro H. specialize (H x (or_introl eq_refl)). congruence.
    + rewrite IH. split.
      * intros H y [<-|Hy]; auto.
      * intros H y Hy. apply H. now right.
Qed.

Lemma valid_iff_no_error (plan : RegexPlan) (hs : list string) :
  _validate_plan plan hs = Valid <-> validation_errors plan hs = [].
Proof.
  unfold _validate_plan. destruct (validation_errors plan hs); split; congruence.
Qed.

Lemma valid_columns_known (plan : RegexPlan) (hs : list string) :
  _validate_plan plan hs = Valid ->
  forall cs c, columns plan = Some cs -> In c cs ->
    mem (lower c) (map lower hs) = true.
Proof.
  rewrite valid_iff_no_error. unfold validation_errors. rewrite !nil_app_inv.
  intros (_ & _ & _ & H4 & _) cs c Hcs Hc. rewrite Hcs in H4.
  destruct cs as [|c0 cs0]; [destruct Hc|]. cbv zeta in H4.
  destruct (filter _ (c0 :: cs0)) eqn:Ef; [|discriminate].
  rewrite filter_nil in Ef. specialize (Ef c Hc).
  now apply negb_false_iff in Ef.
Qed.

(** ** [_align_columns] *)

Lemma canonical_some (hs : list string) (key h : string) :
  canonical hs key = Some h -> In h hs /\ lower h = key.
Proof.
  unfold canonical. intro H. apply find_some in H. destruct H as [Hin E].
  apply String.eqb_eq in E. split; [now apply in_rev | exact E].
Qed.

Lemma canonical_found (hs : list string) (c : string) :
  mem (lower c) (map lower hs) = true -> exists h, canonical hs (lower c) = Some h.
Proof.
  unfold mem, canonical. intro H. apply existsb_exists in H.
  destruct H as (k & Hk & E). apply String.eqb_eq in E. subst k.
  apply in_map_iff in Hk. destruct Hk as (h & Hh & Hin).
  destruct (find (fun h0 => String.eqb (lower h0) (lower c)) (rev hs)) as [h'|] eqn:F;
    [eauto|].
  exfalso. pose proof (find_none _ _ F h (proj1 (in_rev hs h) Hin)) as Hn.
  cbv beta in Hn. rewrite Hh, String.eqb_refl in Hn. discriminate.
Qed.

Lemma canonical_none (hs : list string) (c : string) :
  canonical hs (lower c) = None -> mem (lower c) (map lower hs) = false.
Proof.
  intro H. destruct (mem (lower c) (map lower hs)) eqn:E; [|reflexivity].
  destruct (canonical_found hs c E) as [h Hh]. congruence.
Qed.

Lemma mem_lower_in (hs : list string) (c : string) :
  In c hs -> mem (lower c) (map lower hs) = true.
Proof.
  intro H. unfold mem. apply existsb_exists. exists (lower c).
  split; [now apply in_map | apply String.eqb_refl].
Qed.

Lemma resolve_in (hs cs : list string) (h : string) :
  In h (flat_map (resolve hs) cs) ->
  In h hs /\ resolve hs h = [h] /\ exists c, In c cs /\ lower h = lower c.
Proof.
  intro H. apply in_flat_map in H. destruct H as (c & Hc & Hin).
  unfold resolve in Hin. destruct (canonical hs (lower c)) as [h'|] eqn:E;
    [|destruct Hin].
  destruct Hin as [<-|[]]. destruct (canonical_some _ _ _ E) as [Hin Hl].
  split; [exact Hin|]. split; [|eauto].
  unfold resolve. now rewrite Hl, E.
Qed.

Lemma flat_map_fixed {A : Type} (f : A -> list A) (l : list A) :
  (forall x, In x l -> f x = [x]) -> flat_map f l = l.
Proof.
  induction l as [|x l IH]; intro H; [reflexivity|]. simpl.
  rewrite (H x (or_introl eq_refl)), IH by (intros; apply H; now right).
  reflexivity.
Qed.

Lemma find_first {A : Type} (f : A -> bool) (l : list A) (x : A) :
  find f l = Some x ->
  exists l1 l2, l = (l1 ++ x :: l2)%list /\ forall y, In y l1 -> f y = false.
Proof.
  induction l as [|a l IH]; [discriminate|]. cbn [find].
  destruct (f a) eqn:Ea.
  - intros [= <-]. exists [], l. split; [reflexivity | intros y []].
  - intro H. destruct (IH H) as (l1 & l2 & -> & Hl1).
    exists (a :: l1), l2. split; [reflexivity|].
    intros y [<-|Hy]; [exact Ea | now apply Hl1].
Qed.

(** The canonical spelling of a key is the last header that equals it up
    to case. *)
Lemma canonical_last (hs : list string) (key h : string) :
  canonical hs key = Some h ->
  exists before after,
    hs = (before ++ h :: after)%list /\ forall h', In h' after -> lower h' <> key.
Proof.
  unfold canonical. intro H. destruct (find_first _ _ _ H) as (l1 & l2 & Hrev & Hl1).
  exists (rev l2), (rev l1). split.
  - rewrite <- (rev_involutive hs), Hrev, rev_app_distr. cbn [rev].
    now rewrite <- app_assoc.
  - intros h' Hin E. apply in_rev in Hin. specialize (Hl1 h' Hin).
    cbv beta in Hl1. rewrite E, String.eqb_refl in Hl1. discriminate.
Qed.

(** Up to case, the columns written are the given columns that are
    headers up to case, in the order given. *)
Lemma resolve_keeps_known (hs cs : list string) :
  map lower (flat_map (resolve hs) cs) =
  filter (fun k => mem k (map lower hs)) (map lower cs).
Proof.
  induction cs as [|c cs IH]; [reflexivity|].
  cbn [flat_map map filter]. rewrite map_app, IH. unfold resolve at 1.
  destruct (canonical hs (lower c)) as [h|] eqn:E.
  - destruct (canonical_some _ _ _ E) as [Hin Hl].
    pose proof (mem_lower_in hs h Hin) as Hm. rewrite Hl in Hm. rewrite Hm.
    cbn [map app]. now rewrite Hl.
  - now rewrite (canonical_none _ _ E).
Qed.

(** X3.  [_align_columns] is idempotent.  When a given column is a header
    up to case, the columns it writes are, in the order given, the given
    columns that are headers up to case (the others are dropped), each in
    its canonical spelling: the last header that equals it up to case.
    When no given column is a header up to case, or none is given, the
    plan is returned as it is. *)
Theorem align_columns_canonical (plan : RegexPlan) (hs : list string) :
  _align_columns (_align_columns plan hs) hs = _align_columns plan hs /\
  (forall cs, columns plan = Some cs ->
     (exists c, In c cs /\ mem (lower c) (map lower hs) = true) ->
     exists mapped, columns (_align_columns plan hs) = Some mapped /\
       mapped <> [] /\
       map lower mapped = filter (fun k => mem k (map lower hs)) (map lower cs) /\
       (forall h, In h mapped ->
          In h hs /\ (exists c, In c cs /\ lower h = lower c) /\
          exists before after,
            hs = (before ++ h :: after)%list /\
            forall h', In h' after -> lower h' <> lower h)) /\
  (forall cs, columns plan = Some cs ->
     (forall c, In c cs -> mem (lower c) (map lower hs) = false) ->
     _align_columns plan hs = plan) /\
  (columns plan = None -> _align_columns plan hs = plan).
Proof.
  split; [|split; [|split]].
  - unfold _align_columns at 2 3.
    destruct (columns plan) as [[|c0 cs0]|] eqn:Ecs;
      try (unfold _align_columns; now rewrite Ecs).
    destruct (flat_map (resolve hs) (c0 :: cs0)) as [|m ms] eqn:Em;
      [unfold _align_columns; now rewrite Ecs, Em|].
    unfold _align_columns. cbn [columns intent pattern flags replacement row_filter].
    assert (Hfix : flat_map (resolve hs) (m :: ms) = m :: ms).
    { apply flat_map_fixed. intros h Hh. rewrite <- Em in Hh.
      now destruct (resolve_in _ _ _ Hh) as (_ & E & _). }
    now rewrite Hfix.
  - intros cs Hcs (c & Hc & Hmem). unfold _align_columns. rewrite Hcs.
    destruct cs as [|c0 cs0]; [destruct Hc|].
    destruct (canonical_found hs c Hmem) as [h Hh].
    assert (Hin : In h (flat_map (resolve hs) (c0 :: cs0))).
    { apply in_flat_map. exists c. split; [exact Hc|]. unfold resolve.
      rewrite Hh. now left. }
    pose proof (resolve_keeps_known hs (c0 :: cs0)) as Hkeep.
    destruct (flat_map (resolve hs) (c0 :: cs0)) as [|m ms] eqn:Em; [destruct Hin|].
    exists (m :: ms). cbn [columns]. split; [reflexivity|]. split; [discriminate|].
    split; [exact Hkeep|].
    intros h' Hh'. rewrite <- Em in Hh'.
    destruct (resolve_in _ _ _ Hh') as (H1 & _ & H3).
    split; [exact H1|]. split; [exact H3|].
    apply in_flat_map in Hh'. destruct Hh' as (c' & _ & Hr). unfold resolve in Hr.
    destruct (canonical hs (lower c')) as [h''|] eqn:E'; [|destruct Hr].
    destruct Hr as [<-|[]]. destruct (canonical_some _ _ _ E') as [_ Hl].
    rewrite Hl. exact (canonical_last _ _ _ E').
  - intros cs Hcs Hnone. unfold _align_columns. rewrite Hcs.
    destruct cs as [|c0 cs0]; [reflexivity|].
    assert (E : flat_map (resolve hs) (c0 :: cs0) = []).
    { apply flat_map_nil. intros c Hc. unfold resolve.
      destruct (canonical hs (lower c)) as [h|] eqn:Eh; [|reflexivity].
      destruct (canonical_some _ _ _ Eh) as [Hin Hl].
      pose proof (mem_lower_in hs h Hin) as Hm. rewrite Hl in Hm.
      rewrite (Hnone c Hc) in Hm. discriminate. }
    now rewrite E.
  - intro Hnone. unfold _align_columns. now rewrite Hnone.
Qed.

(** X4.  After [_align_columns], a plan that [_validate_plan] accepts
    names only columns that are headers, in the spelling of the headers:
    the columns [execute_plan] then looks up exist. *)
Theorem aligned_valid_columns_exist (plan : RegexPlan) (hs : list string)
    (Hvalid : _validate_plan (_align_columns plan hs) hs = Valid) :
  forall cs c, columns (_align_columns plan hs) = Some cs -> In c cs -> In c hs.
Proof.
  intros cs c Hcs Hc.
  destruct (columns plan) as [[|c0 cs0]|] eqn:Ecs.
  - unfold _align_columns in Hcs. rewrite Ecs in Hcs. rewrite Ecs in Hcs.
    inversion Hcs. subst. destruct Hc.
  - destruct (flat_map (resolve hs) (c0 :: cs0)) as [|m ms] eqn:Em.
    + exfalso.
      assert (Hsame : _align_columns plan hs = plan).
      { unfold _align_columns. now rewrite Ecs, Em. }
      rewrite Hsame in Hvalid. pose proof (valid_columns_known _ _ Hvalid) as Hknown.
      rewrite flat_map_nil in Em. specialize (Em c0 (or_introl eq_refl)).
      unfold resolve in Em.
      destruct (canonical hs (lower c0)) eqn:Ec; [discriminate|].
      apply canonical_none in Ec.
      rewrite (Hknown _ c0 Ecs (or_introl eq_refl)) in Ec. discriminate.
    + unfold _align_columns in Hcs. rewrite Ecs, Em in Hcs. cbn [columns] in Hcs.
      inversion Hcs. subst cs. rewrite <- Em in Hc.
      now destruct (resolve_in _ _ _ Hc).
  - unfold _align_columns in Hcs. rewrite Ecs in Hcs. congruence.
Qed.

Lemma aligned_valid_columns_exist_witness :
  _validate_plan
    (_align_columns (Plan "find" "a+" "i" (Some ["name"; "zip"]) None None)
       ["Name"; "Age"]) ["Name"; "Age"] = Valid /\
  (forall cs c,
     columns (_align_columns (Plan "find" "a+" "i" (Some ["name"; "zip"]) None None)
                ["Name"; "Age"]) = Some cs ->
     In c cs -> In c ["Name"; "Age"]).
Proof.
  split; [vm_compute; reflexivity|].
  apply aligned_valid_columns_exist. vm_compute. reflexivity.
Defined.

(** ** The rule-based planner *)

Lemma guess_pattern_in (instr : string) : In (_guess_pattern instr) (map snd FALLBACKS).
Proof.
  unfold _guess_pattern.
  destruct (find _ FALLBACKS) as [kv|] eqn:E.
  - apply find_some in E. apply in_map. tauto.
  - left. reflexivity.
Qed.

Lemma fallbacks_compile (v : string) :
  In v (map snd FALLBACKS) -> Re.compile v 0 <> None.
Proof.
  intros [<-|[<-|[<-|[<-|[<-|[]]]]]]; vm_compute; discriminate.
Qed.

Lemma fallbacks_stripped (v : string) :
  In v (map snd FALLBACKS) -> or_else (strip v) match_all = v.
Proof.
  intros [<-|[<-|[<-|[<-|[<-|[]]]]]]; vm_compute; reflexivity.
Qed.

Lemma none_if_nil_some (cols cs : list string) :
  none_if_nil cols = Some cs -> cs = cols /\ cs <> [].
Proof.
  destruct cols; [discriminate|]. intro H. inversion H. split; [reflexivity|discriminate].
Qed.

(** X5.  For every instruction and header list the rule-based planner
    returns, with the source tag ["fallback"], a plan in normal form:
    its intent is [find] or [replace], its pattern is one of the five
    [FALLBACKS], its flags are ["i"], its columns, if any, are headers,
    and its row filter, if any, compares a header (up to case) that the
    instruction names after [where]. *)
Theorem rule_plan_shape (instruction : string) (hs : list string) :
  let p := fst (_rule_plan instruction hs) in
  snd (_rule_plan instruction hs) = "fallback" /\
  (intent p = "find" \/ intent p = "replace") /\
  In (pattern p) (map snd FALLBACKS) /\
  flags p = "i" /\
  (forall cs, columns p = Some cs -> cs <> [] /\ incl cs hs) /\
  (forall rf, row_filter p = Some rf ->
     exists col val, rf = col ++ " == " ++ val /\
       existsb (fun h => String.eqb (lower col) (lower h)) hs = true) /\
  normalize p = p.
Proof.
  unfold _rule_plan.
  destruct (any_in date_words (lower instruction)).
  - cbn [fst snd intent pattern flags columns row_filter].
    split; [reflexivity|]. split; [now right|]. split; [right; right; now left|].
    split; [reflexivity|]. split; [|split; [discriminate|]].
    + intros cs Hcs. apply none_if_nil_some in Hcs. destruct Hcs as [-> Hne].
      split; [exact Hne|]. intros c Hc. apply filter_In in Hc. tauto.
    + reflexivity.
  - cbn [fst snd intent pattern flags columns row_filter].
    split; [reflexivity|]. split; [destruct (any_in replace_words _); auto|].
    split; [apply guess_pattern_in|]. split; [reflexivity|].
    split; [|split].
    + intros cs Hcs. apply none_if_nil_some in Hcs. destruct Hcs as [-> Hne].
      split; [exact Hne|]. intros c Hc. apply filter_In in Hc. tauto.
    + intros rf. destruct (Re.search rx_where instruction) as [mt|]; [|discriminate].
      destruct (existsb _ hs) eqn:Ex; [|discriminate].
      intro H. inversion H. eexists _, _. split; [reflexivity | exact Ex].
    + unfold normalize.
      cbn [intent pattern flags columns replacement row_filter].
      rewrite (fallbacks_stripped _ (guess_pattern_in _)). reflexivity.
Qed.

(** X6.  What the validator says of the plans of the rule-based planner.
    An instruction with one of the date phrases gives a replace plan whose
    replacement is the sentinel [execute_plan] recognizes, and the plan is
    valid.  Any other instruction gives a plan without replacement: with
    one of the words [replace], [redact], [mask], [anonym] it is a replace
    plan, which the validator refuses for its missing replacement;
    without them it is a find plan, to which the validator can only object
    a name between backticks in the row filter. *)
Theorem rule_plan_validity (instruction : string) (hs : list string) :
  let p := fst (_rule_plan instruction hs) in
  (any_in date_words (lower instruction) = true ->
     intent p = "replace" /\ replacement p = Some date_sentinel /\
     RegexExecutor.is_date_sentinel date_sentinel = true /\
     _validate_plan p hs = Valid) /\
  (any_in date_words (lower instruction) = false ->
     replacement p = None /\
     (any_in replace_words (lower instruction) = true ->
        intent p = "replace" /\ In ReplacementRequired (validation_errors p hs)) /\
     (any_in replace_words (lower instruction) = false ->
        intent p = "find" /\
        forall v, In v (validation_errors p hs) -> exists t, v = UnknownFilterColumn t)).
Proof.
  assert (Hcols : forall (f : string -> bool),
            match none_if_nil (filter f hs) with
            | Some ((_ :: _) as cs) =>
                match filter (fun c => negb (mem (lower c) (map lower hs))) cs with
                | [] => []
                | unknown => [UnknownColumns unknown]
                end
            | _ => []
            end = []).
  { intro f. destruct (filter f hs) as [|c0 cs0] eqn:Ef; [reflexivity|].
    cbn [none_if_nil].
    assert (E : filter (fun c => negb (mem (lower c) (map lower hs))) (c0 :: cs0) = []).
    { apply filter_nil. intros c Hc. rewrite <- Ef in Hc. apply filter_In in Hc.
      rewrite (mem_lower_in hs c (proj1 Hc)). reflexivity. }
    cbv beta iota zeta. now rewrite E. }
  unfold _rule_plan. split.
  - intros ->. cbn [fst intent replacement].
    split; [reflexivity|]. split; [reflexivity|]. split; [reflexivity|].
    apply valid_iff_no_error. unfold validation_errors.
    cbn [intent pattern flags columns replacement row_filter].
    rewrite Hcols. vm_compute. reflexivity.
  - intros ->. cbn [fst intent replacement]. split; [reflexivity|]. split.
    + intros ->. split; [reflexivity|]. unfold validation_errors.
      cbn [intent pattern flags columns replacement row_filter].
      rewrite !in_app_iff. do 4 right. left. now left.
    + intros ->. split; [reflexivity|]. intros v. unfold validation_errors.
      cbn [intent pattern flags columns replacement row_filter].
      rewrite Hcols. rewrite !in_app_iff.
      intros [H|[H|[H|[H|[H|H]]]]].
      * destruct H.
      * pose proof (fallbacks_compile _ (guess_pattern_in (lower instruction))) as Hc.
        destruct (Re.compile _ _); [destruct H | contradiction].
      * vm_compute in H. tauto.
      * destruct H.
      * destruct H.
      * destruct (match Re.search rx_where instruction with Some _ => _ | None => _ end)
          as [rf|]; [|destruct H].
        apply in_flat_map in H. destruct H as (g & _ & H).
        destruct g as [|t rest]; [destruct H|].
        destruct (mem t hs); [destruct H|]. destruct H as [<-|[]]. eauto.
Qed.

End PlanFacts.

(** ** Lists of labels *)

Section LabelFacts.
Import RegexExecutor.

Lemma mapM_inv {A B : Type} (f : A -> result B) (l : list A) (ys : list B) :
  mapM f l = Ok ys ->
  List.length ys = List.length l /\
  forall i a, nth_error l i = Some a ->
    exists y, nth_error ys i = Some y /\ f a = Ok y.
Proof.
  revert ys. induction l as [|a l IH]; intros ys H.
  - inversion H. split; [reflexivity|]. intros [|i] a E; discriminate.
  - simpl in H. destruct (f a) as [y|e] eqn:Ea; [|discriminate]. cbn [bind] in H.
    destruct (mapM f l) as [ys'|e] eqn:El; [|discriminate]. cbn [bind] in H.
    inversion H. subst ys. destruct (IH ys' eq_refl) as [Hlen Hnth].
    split; [simpl; now rewrite Hlen|].
    intros [|i] a' E; simpl in *.
    + inversion E. subst. eauto.
    + now apply Hnth.
Qed.

Lemma labels_from_in (m : mask) (k i : nat) :
  In i (labels_from k m) <-> k <= i /\ nth (i - k) m false = true.
Proof.
  revert k. induction m as [|b m IH]; intro k; simpl.
  - split; [intros [] | intros [_ H]; destruct (i - k); discriminate].
  - assert (Hrec : In i (labels_from (S k) m) <->
                   k <= i /\ i <> k /\ nth (i - k) (b :: m) false = true).
    { rewrite IH. split.
      - intros [Hk Hn]. split; [lia|]. split; [lia|].
        replace (i - k) with (S (i - S k)) by lia. exact Hn.
      - intros (Hk & Hne & Hn). split; [lia|].
        replace (i - k) with (S (i - S k)) in Hn by lia. exact Hn. }
    destruct b; simpl; rewrite Hrec; split.
    + intros [<-|H]; [split; [lia|]; now rewrite Nat.sub_diag | tauto].
    + intros [Hk Hn]. destruct (Nat.eq_dec i k) as [->|Hne]; [now left | right; tauto].
    + tauto.
    + intros [Hk Hn]. split; [exact Hk|]. split; [|exact Hn].
      intros ->. now rewrite Nat.sub_diag in Hn.
Qed.

Lemma selected_in (m : mask) (i : nat) :
  In i (selected m) <-> nth i m false = true.
Proof.
  unfold selected. rewrite labels_from_in, Nat.sub_0_r. split; [tauto|].
  intro H. split; [lia | exact H].
Qed.

Lemma set_add_in (x : nat) (l : list nat) (i : nat) :
  In i (set_add x l) <-> i = x \/ In i l.
Proof.
  induction l as [|y l IH]; simpl.
  - intuition.
  - destruct (x <? y); [simpl; intuition|].
    destruct (x =? y) eqn:E.
    + apply Nat.eqb_eq in E. subst. simpl. intuition.
    + simpl. rewrite IH. intuition.
Qed.

Lemma set_update_in (xs l : list nat) (i : nat) :
  In i (set_update l xs) <-> In i l \/ In i xs.
Proof.
  unfold set_update. revert l. induction xs as [|x xs IH]; intro l; simpl.
  - intuition.
  - rewrite IH, set_add_in. intuition.
Qed.

Lemma hit_rows_in (counts : list nat) (i : nat) :
  In i (hit_rows counts) <-> 0 < nth i counts 0.
Proof.
  unfold hit_rows. rewrite selected_in.
  change false with ((fun n => 0 <? n) 0). rewrite map_nth.
  apply Nat.ltb_lt.
Qed.

Lemma in_firstn {A : Type} (n : nat) (l : list A) (x : A) :
  In x (firstn n l) -> In x l.
Proof.
  revert l. induction n as [|n IH]; intros [|y l] H; simpl in *; try contradiction.
  destruct H as [->|H]; [now left | right; now apply IH].
Qed.

Lemma dict_set_fresh {V : Type} (d : list (string * V)) (k : string) (v : V) :
  ~ In k (map fst d) -> dict_set d k v = (d ++ [(k, v)])%list.
Proof.
  induction d as [|[k' v'] d IH]; intro H; simpl; [reflexivity|].
  destruct (String.eqb k' k) eqn:E.
  - apply String.eqb_eq in E. subst. exfalso. apply H. now left.
  - rewrite IH; [reflexivity|]. intro Hin. apply H. now right.
Qed.

End LabelFacts.

(** ** Columns of a frame *)

Section ColumnFacts.
Import RegexExecutor.
Context {Sc : Scalars}.

Lemma headers_set_column (df : DataFrame) (c dt : string) (cells : list cell) :
  headers (set_column df c dt cells) = headers df.
Proof.
  unfold headers, set_column. cbn [df_columns]. rewrite map_map.
  apply map_ext_in. intros col _.
  destruct (String.eqb (col_name col) c) eqn:E; [|reflexivity].
  apply String.eqb_eq in E. now rewrite E.
Qed.

Lemma well_formed_set_column (df : DataFrame) (c dt : string) (cells : list cell) :
  well_formed df -> List.length cells = df_len df ->
  well_formed (set_column df c dt cells).
Proof.
  unfold well_formed, set_column. cbn [df_columns df_len]. intros Hwf Hlen.
  apply Forall_map. revert Hwf. apply Forall_impl. intros col Hcol.
  destruct (String.eqb (col_name col) c); [exact Hlen | exact Hcol].
Qed.

Lemma get_column_known (df : DataFrame) (c : string) :
  In c (headers df) -> get_column df c <> None.
Proof.
  unfold headers, get_column. intros Hin Hnone.
  apply in_map_iff in Hin. destruct Hin as (col & Hname & Hcol).
  pose proof (find_none _ _ Hnone col Hcol) as H. cbv beta in H.
  rewrite Hname, String.eqb_refl in H. discriminate.
Qed.

Lemma text_columns_known (df : DataFrame) (c : string) :
  In c (text_columns df) -> In c (headers df).
Proof.
  unfold text_columns, headers. intro H. apply in_map_iff in H.
  destruct H as (col & Hname & Hcol). apply filter_In in Hcol.
  apply in_map_iff. exists col. tauto.
Qed.

Lemma masked_counts_nth (rx : Re.regex) (mk : mask) (cells : list cell) (i : nat) :
  0 < nth i (masked_counts rx mk cells) 0 <->
  nth i mk false = true /\
  exists x t, nth_error cells i = Some x /\ text_of x = Some t /\ 0 < Re.count rx t.
Proof.
  unfold masked_counts.
  destruct (nth_error (combine mk cells) i) as [[b x]|] eqn:E.
  - assert (Hb : nth_error mk i = Some b /\ nth_error cells i = Some x).
    { clear -E. revert cells i E. induction mk as [|b0 mk IH]; intros [|x0 cells] i E;
        try (destruct i; discriminate).
      destruct i as [|i]; simpl in *; [inversion E; auto | now apply IH]. }
    destruct Hb as [Hb Hx].
    match goal with |- context [map ?f (combine mk cells)] =>
      assert (Hn : nth_error (map f (combine mk cells)) i = Some (f (b, x)))
        by (rewrite nth_error_map, E; reflexivity)
    end.
    rewrite (nth_error_nth _ _ 0 Hn). cbn [fst snd].
    rewrite (nth_error_nth _ _ false Hb).
    split.
    + destruct b; [|lia]. destruct (text_of x) as [t|] eqn:Et; [|lia].
      intro H. split; [reflexivity|]. exists x, t. auto.
    + intros [-> (x' & t & Hx' & Ht & Hc)]. rewrite Hx in Hx'. inversion Hx'. subst x'.
      now rewrite Ht.
  - rewrite nth_overflow.
    2:{ rewrite length_map. apply nth_error_None. exact E. }
    split; [lia|]. intros [Hm (x & t & Hx & _)]. exfalso.
    assert (Hi : i < List.length mk).
    { destruct (Nat.lt_ge_cases i (List.length mk)) as [H|H]; [exact H|].
      rewrite nth_overflow in Hm by exact H. discriminate. }
    assert (Hj : i < List.length cells) by (apply nth_error_Some; congruence).
    apply nth_error_None in E. rewrite length_combine in E. lia.
Qed.

Lemma total_of_pos (l : list nat) : 0 < total_of l <-> exists i, 0 < nth i l 0.
Proof.
  induction l as [|x l IH].
  - split; [unfold total_of; simpl; lia | intros [[|i] H]; simpl in H; lia].
  - unfold total_of. simpl. rewrite total_of_acc. split.
    + intro H. destruct (Nat.eq_dec x 0) as [->|Hx].
      * assert (Hl : 0 < total_of l) by lia. apply IH in Hl. destruct Hl as [i Hi].
        now exists (S i).
      * exists 0. simpl. lia.
    + intros [[|i] Hi]; simpl in Hi; [lia|].
      assert (0 < total_of l) by (apply IH; eauto). lia.
Qed.

End ColumnFacts.

(** ** The plain replace, for every pattern *)

Section ReplaceFacts.
Import RegexExecutor.
Context {Sc : Scalars}.

Lemma replace_cell_inv (rx : Re.regex) (rep : string) (b : bool) (x y : cell) :
  replace_cell rx rep (b, x) = Ok y ->
  (b = false -> text_of y = text_of x) /\ (x = CNull -> y = CNull).
Proof.
  unfold replace_cell. destruct b.
  - destruct (text_of x) as [t|] eqn:Et.
    + destruct (Re.sub rx rep t); [|discriminate]. intro H. split; [discriminate|].
      intros ->. discriminate.
    + intro H. inversion H. split; [discriminate | reflexivity].
  - intro H. inversion H. split.
    + intros _. destruct x; reflexivity.
    + intros ->. reflexivity.
Qed.

Lemma replace_column_inv (rx : Re.regex) (rep : string) (mk : mask)
    (acc acc' : replace_acc) (c : string) :
  replace_column rx rep mk acc c = Ok acc' ->
  exists col,
    get_column (ra_out acc) c = Some col /\
    ra_total acc' = ra_total acc + total_of (masked_counts rx mk (col_cells col)) /\
    ra_per_col acc' =
      dict_set (ra_per_col acc) c (total_of (masked_counts rx mk (col_cells col))) /\
    ((total_of (masked_counts rx mk (col_cells col)) = 0 /\
      ra_out acc' = ra_out acc /\ ra_changed acc' = ra_changed acc) \/
     (0 < total_of (masked_counts rx mk (col_cells col)) /\
      ra_changed acc' =
        set_update (ra_changed acc) (hit_rows (masked_counts rx mk (col_cells col))) /\
      exists cells,
        mapM (replace_cell rx rep) (combine mk (col_cells col)) = Ok cells /\
        ra_out acc' = set_column (ra_out acc) c "string" cells)).
Proof.
  unfold replace_column. destruct (get_column (ra_out acc) c) as [col|]; [|discriminate].
  destruct (0 <? total_of (masked_counts rx mk (col_cells col))) eqn:En.
  - apply Nat.ltb_lt in En.
    destruct (mapM _ _) as [cells|e] eqn:Em; [|discriminate]. cbn [bind].
    intro H. inversion H. exists col. cbn [ra_out ra_total ra_per_col ra_changed].
    split; [reflexivity|]. split; [reflexivity|]. split; [reflexivity|].
    right. split; [exact En|]. split; [reflexivity|]. exists cells.
    split; [exact Em | reflexivity].
  - apply Nat.ltb_ge in En. intro H. inversion H. exists col.
    cbn [ra_out ra_total ra_per_col ra_changed].
    split; [reflexivity|]. split; [reflexivity|]. split; [reflexivity|].
    left. split; [lia|]. split; reflexivity.
Qed.

(** One column rewritten: what the step keeps. *)
Lemma replace_step_kept (rx : Re.regex) (rep : string) (mk : mask)
    (acc acc' : replace_acc) (c : string) :
  well_formed (ra_out acc) -> List.length mk = df_len (ra_out acc) ->
  replace_column rx rep mk acc c = Ok acc' ->
  well_formed (ra_out acc') /\ cells_kept mk [c] (ra_out acc) (ra_out acc').
Proof.
  intros Hwf Hlen H. apply replace_column_inv in H.
  destruct H as (col & Hcol & _ & _ & [(_ & Hout & _) | (_ & _ & cells & Hm & Hout)]).
  - rewrite Hout. split; [exact Hwf|]. split; [reflexivity|]. split; [reflexivity|].
    intros c' i x Hx. exists x. auto.
  - rewrite Hout. apply mapM_inv in Hm. destruct Hm as [Hclen Hnth].
    pose proof (column_length _ _ _ Hwf Hcol) as Hcl.
    assert (Hcells : List.length cells = df_len (ra_out acc)).
    { rewrite Hclen, length_combine. lia. }
    split; [now apply well_formed_set_column|].
    split; [apply headers_set_column|]. split; [reflexivity|].
    intros c' i x Hx. unfold cell_at in *.
    destruct (String.eqb c' c) eqn:E.
    + apply String.eqb_eq in E. subst c'. rewrite Hcol in Hx.
      rewrite (get_set_same _ _ _ _ col Hcol). cbn [col_cells].
      assert (Hi : i < List.length mk).
      { rewrite Hlen, <- Hcl. apply nth_error_Some. congruence. }
      assert (Hc : nth_error (combine mk (col_cells col)) i = Some (nth i mk false, x)).
      { clear -Hx Hi. revert i Hx Hi. generalize (col_cells col) as l.
        induction mk as [|b m IH]; intros [|x0 l] i Hx Hi; simpl in *; try lia;
          try (destruct i; discriminate).
        destruct i as [|i]; simpl in *; [now inversion Hx|]. apply IH; [exact Hx | lia]. }
      destruct (Hnth _ _ Hc) as (y & Hy & Hr). exists y. split; [exact Hy|].
      apply replace_cell_inv in Hr. destruct Hr as [H1 H2].
      split; [exact H1|]. split; [|exact H2]. intro Hn. exfalso. apply Hn. now left.
    + apply String.eqb_neq in E. rewrite (get_set_other _ _ _ _ _ E).
      destruct (get_column (ra_out acc) c') as [col'|]; [|discriminate].
      exists x. split; [exact Hx|]. auto.
Qed.

Lemma cells_kept_trans (mk : mask) (c : string) (cols : list string)
    (a b d : DataFrame) :
  cells_kept mk [c] a b -> cells_kept mk cols b d -> cells_kept mk (c :: cols) a d.
Proof.
  intros (Hh1 & Hl1 & H1) (Hh2 & Hl2 & H2).
  split; [congruence|]. split; [congruence|].
  intros c' i x Hx. destruct (H1 _ _ _ Hx) as (y & Hy & Ha & Hb & Hc).
  destruct (H2 _ _ _ Hy) as (z & Hz & Ha' & Hb' & Hc').
  exists z. split; [exact Hz|]. split; [|split].
  - intro Hm. rewrite (Ha' Hm). now apply Ha.
  - intro Hn.
    assert (E1 : y = x) by (apply Hb; intros [<-|[]]; apply Hn; now left).
    assert (E2 : z = y) by (apply Hb'; intro Hin; apply Hn; now right).
    congruence.
  - intro E. apply Hc', Hc, E.
Qed.

Lemma replace_fold_kept (rx : Re.regex) (rep : string) (mk : mask) (cols : list string) :
  forall acc acc',
    well_formed (ra_out acc) -> List.length mk = df_len (ra_out acc) ->
    foldM (replace_column rx rep mk) cols acc = Ok acc' ->
    well_formed (ra_out acc') /\ cells_kept mk cols (ra_out acc) (ra_out acc').
Proof.
  induction cols as [|c cols IH]; intros acc acc' Hwf Hlen H.
  - inversion H. subst. split; [exact Hwf|]. split; [reflexivity|].
    split; [reflexivity|]. intros c i x Hx. exists x. auto.
  - simpl in H. destruct (replace_column rx rep mk acc c) as [acc1|e] eqn:E1;
      [|discriminate]. cbn [bind] in H.
    destruct (replace_step_kept _ _ _ _ _ _ Hwf Hlen E1) as [Hwf1 Hk1].
    assert (Hlen1 : List.length mk = df_len (ra_out acc1)).
    { destruct Hk1 as (_ & Hl & _). congruence. }
    destruct (IH _ _ Hwf1 Hlen1 H) as [Hwf2 Hk2].
    split; [exact Hwf2|]. eapply cells_kept_trans; eassumption.
Qed.

Lemma replace_fold_totals (rx : Re.regex) (rep : string) (mk : mask)
    (cols : list string) :
  forall acc acc',
    foldM (replace_column rx rep mk) cols acc = Ok acc' ->
    ra_total acc <= ra_total acc' /\
    (ra_total acc' = ra_total acc ->
       ra_out acc' = ra_out acc /\ ra_changed acc' = ra_changed acc) /\
    (forall i, In i (ra_changed acc') ->
       In i (ra_changed acc) \/ nth i mk false = true).
Proof.
  induction cols as [|c cols IH]; intros acc acc' H.
  - inversion H. subst. auto.
  - simpl in H. destruct (replace_column rx rep mk acc c) as [acc1|e] eqn:E1;
      [|discriminate]. cbn [bind] in H.
    destruct (IH _ _ H) as (Hle & Hsame & Hin).
    apply replace_column_inv in E1.
    destruct E1 as (col & Hcol & Ht & _ & Hcases).
    split; [lia|]. split.
    + intro E. destruct Hcases as [(Hz & Ho & Hc) | (Hpos & _)]; [|lia].
      destruct Hsame as [Ho' Hc']; [lia|]. split; congruence.
    + intros i Hi. destruct (Hin i Hi) as [Hi1 | Hm]; [|now right].
      destruct Hcases as [(_ & _ & Hc) | (_ & Hc & _)].
      * left. congruence.
      * rewrite Hc in Hi1. apply set_update_in in Hi1.
        destruct Hi1 as [Hi1 | Hi1]; [now left|]. right.
        apply hit_rows_in, masked_counts_nth in Hi1. tauto.
Qed.

Lemma replace_fold_per_col (rx : Re.regex) (rep : string) (mk : mask)
    (cols : list string) :
  forall acc acc',
    NoDup cols -> (forall c, In c cols -> ~ In c (map fst (ra_per_col acc))) ->
    foldM (replace_column rx rep mk) cols acc = Ok acc' ->
    map fst (ra_per_col acc') = (map fst (ra_per_col acc) ++ cols)%list /\
    ra_total acc' + list_sum (map snd (ra_per_col acc)) =
    ra_total acc + list_sum (map snd (ra_per_col acc')).
Proof.
  induction cols as [|c cols IH]; intros acc acc' Hnd Hfresh H.
  - inversion H. subst. rewrite app_nil_r. split; [reflexivity | lia].
  - simpl in H. destruct (replace_column rx rep mk acc c) as [acc1|e] eqn:E1;
      [|discriminate]. cbn [bind] in H.
    inversion Hnd as [|? ? Hnotin Hnd']. subst.
    apply replace_column_inv in E1.
    destruct E1 as (col & _ & Ht & Hp & _).
    rewrite dict_set_fresh in Hp by (apply Hfresh; now left).
    destruct (IH acc1 acc' Hnd') as [Hk Hs]; [|exact H|].
    + intros c' Hc'. rewrite Hp, map_app, in_app_iff. simpl.
      intros [Hin | [<- | []]]; [|contradiction].
      apply (Hfresh c' (or_intror Hc')). exact Hin.
    + rewrite Hp in Hk, Hs. rewrite map_app in Hk, Hs. simpl in Hk, Hs.
      rewrite <- app_assoc in Hk. split; [exact Hk|].
      rewrite list_sum_app in Hs. simpl in Hs. lia.
Qed.

End ReplaceFacts.

(** ** The find branch *)

Section FindFacts.
Import RegexExecutor.
Context {Sc : Scalars}.

Lemma find_column_inv (rx : Re.regex) (df : DataFrame) (mk : mask)
    (acc acc' : find_acc) (c : string) :
  find_column rx df mk acc c = Ok acc' ->
  exists col,
    get_column df c = Some col /\
    fa_total acc' = fa_total acc + total_of (masked_counts rx mk (col_cells col)) /\
    fa_per_col acc' =
      dict_set (fa_per_col acc) c (total_of (masked_counts rx mk (col_cells col))) /\
    forall i, In i (fa_changed acc') <->
      In i (fa_changed acc) \/ 0 < nth i (masked_counts rx mk (col_cells col)) 0.
Proof.
  unfold find_column. destruct (get_column df c) as [col|]; [|discriminate].
  intro H. inversion H. exists col. cbn [fa_total fa_per_col fa_changed].
  repeat split; try reflexivity.
  - destruct (0 <? total_of _) eqn:En.
    + rewrite set_update_in, hit_rows_in. tauto.
    + tauto.
  - destruct (0 <? total_of _) eqn:En.
    + rewrite set_update_in, hit_rows_in. tauto.
    + intros [Hi | Hi]; [exact Hi|]. exfalso.
      apply Nat.ltb_ge in En.
      assert (0 < total_of (masked_counts rx mk (col_cells col)))
        by (apply total_of_pos; eauto).
      lia.
Qed.

Lemma find_fold_rows (rx : Re.regex) (df : DataFrame) (mk : mask) (cols : list string) :
  forall acc acc',
    foldM (find_column rx df mk) cols acc = Ok acc' ->
    forall i, In i (fa_changed acc') <-> In i (fa_changed acc) \/ row_hit rx mk cols df i.
Proof.
  induction cols as [|c cols IH]; intros acc acc' H i.
  - inversion H. subst. split; [now left|]. intros [Hi | (_ & c & x & t & [] & _)].
    exact Hi.
  - simpl in H. destruct (find_column rx df mk acc c) as [acc1|e] eqn:E1;
      [|discriminate]. cbn [bind] in H.
    apply find_column_inv in E1. destruct E1 as (col & Hcol & _ & _ & Hch).
    rewrite (IH _ _ H i), Hch, masked_counts_nth. unfold row_hit, cell_at. split.
    + intros [[Hi | (Hm & x & t & Hx & Ht & Hc)] | (Hm & c' & x & t & Hc' & Hrest)].
      * now left.
      * right. split; [exact Hm|]. exists c, x, t. rewrite Hcol. simpl. auto.
      * right. split; [exact Hm|]. exists c', x, t. simpl. auto.
    + intros [Hi | (Hm & c' & x & t & [<- | Hc'] & Hx & Ht & Hc)].
      * left. now left.
      * left. right. split; [exact Hm|]. rewrite Hcol in Hx. eauto.
      * right. split; [exact Hm|]. exists c', x, t. auto.
Qed.

Lemma find_fold_per_col (rx : Re.regex) (df : DataFrame) (mk : mask)
    (cols : list string) :
  forall acc acc',
    NoDup cols -> (forall c, In c cols -> ~ In c (map fst (fa_per_col acc))) ->
    foldM (find_column rx df mk) cols acc = Ok acc' ->
    map fst (fa_per_col acc') = (map fst (fa_per_col acc) ++ cols)%list /\
    fa_total acc' + list_sum (map snd (fa_per_col acc)) =
    fa_total acc + list_sum (map snd (fa_per_col acc')).
Proof.
  induction cols as [|c cols IH]; intros acc acc' Hnd Hfresh H.
  - inversion H. subst. rewrite app_nil_r. split; [reflexivity | lia].
  - simpl in H. destruct (find_column rx df mk acc c) as [acc1|e] eqn:E1;
      [|discriminate]. cbn [bind] in H.
    inversion Hnd as [|? ? Hnotin Hnd']. subst.
    apply find_column_inv in E1.
    destruct E1 as (col & _ & Ht & Hp & _).
    rewrite dict_set_fresh in Hp by (apply Hfresh; now left).
    destruct (IH acc1 acc' Hnd') as [Hk Hs]; [|exact H|].
    + intros c' Hc'. rewrite Hp, map_app, in_app_iff. simpl.
      intros [Hin | [<- | []]]; [|contradiction].
      apply (Hfresh c' (or_intror Hc')). exact Hin.
    + rewrite Hp in Hk, Hs. rewrite map_app in Hk, Hs. simpl in Hk, Hs.
      rewrite <- app_assoc in Hk. split; [exact Hk|].
      rewrite list_sum_app in Hs. simpl in Hs. lia.
Qed.

Lemma find_fold_returns (rx : Re.regex) (df : DataFrame) (mk : mask)
    (cols : list string) :
  (forall c, In c cols -> get_column df c <> None) ->
  forall acc, exists acc', foldM (find_column rx df mk) cols acc = Ok acc'.
Proof.
  induction cols as [|c cols IH]; intros Hex acc; [eexists; reflexivity|].
  simpl. unfold find_column at 1.
  destruct (get_column df c) as [col|] eqn:Ec;
    [|exfalso; apply (Hex c (or_introl eq_refl)); exact Ec].
  cbn [bind]. apply IH. intros c' Hc'. apply Hex. now right.
Qed.

End FindFacts.

Section ExecFacts.
Import RegexExecutor.
Context {Sc : Scalars} {Q : QueryEngine} {D : DateBranch}.

Lemma ok_pair_inv {A B : Type} (a a' : A) (b b' : B) :
  Ok (a, b) = Ok (a', b') -> a' = a /\ b' = b.
Proof. intro H. inversion H. split; reflexivity. Qed.

Lemma plain_replace_inv (df : DataFrame) (intent pattern flags : string)
    (columns : option (list string)) (replacement row_filter : option string)
    (head_n : nat) (out : DataFrame) (p : payload) :
  String.eqb (lower intent) "find" = false ->
  String.eqb (lower intent) "replace" && is_date_sentinel (PlanV2.or_empty replacement) = false ->
  execute_plan df intent pattern flags columns replacement row_filter head_n = Ok (out, p) ->
  exists mk rx acc,
    _ensure_mask_from_query df row_filter = Ok mk /\
    Re.compile (or_else pattern "^.*$") (_compile_flags flags) = Some rx /\
    foldM (replace_column rx (PlanV2.or_empty replacement) mk)
      (_auto_columns df intent pattern columns) (ReplaceAcc df 0 [] []) = Ok acc /\
    out = ra_out acc /\
    mode p = "replace" /\ regex p = or_else pattern "^.*$" /\ regex_source p = "regex" /\
    columns_applied p = _auto_columns df intent pattern columns /\
    mask_row_indices p = firstn 2000 (selected mk) /\
    total_count p = ra_total acc /\ per_column p = ra_per_col acc /\
    changed_row_indices p = firstn 2000 (ra_changed acc) /\
    result_rows_indices p = firstn 2000 (ra_changed acc) /\
    result_rows_count p = List.length (ra_changed acc) /\
    head_hit_row_indices p = filter (fun i => i <? head_n) (ra_changed acc).
Proof.
  intros Hfind Hdate. unfold execute_plan. rewrite Hfind.
  rewrite andb_false_r. cbn [andb].
  destruct (_ensure_mask_from_query df row_filter) as [mk|e]; [|discriminate].
  cbn [bind].
  match goal with |- bind ?c _ = _ -> _ => destruct c as [nrf|e] end; [|discriminate].
  cbn [bind]. cbv zeta.
  destruct (_display_regex_and_columns_from_row_filter nrf) as [disp_rx disp_cols].
  match goal with |- (let '(a, b) := ?c in _) = _ -> _ => destruct c as [dr ds] end.
  rewrite Hdate. change (if is_empty pattern then "^.*$" else pattern)
    with (or_else pattern "^.*$").
  destruct (Re.compile (or_else pattern "^.*$") (_compile_flags flags)) as [rx|];
    [|discriminate].
  destruct (foldM _ _ _) as [acc|e] eqn:Hfold; [|discriminate].
  cbn [bind]. intro H. apply ok_pair_inv in H. destruct H as [-> ->].
  exists mk, rx, acc.
  cbn [mode regex regex_source columns_applied mask_row_indices total_count
       per_column changed_row_indices result_rows_indices result_rows_count
       head_hit_row_indices].
  repeat split; try reflexivity. exact Hfold.
Qed.
Lemma find_inv (df : DataFrame) (intent pattern flags : string)
    (columns : option (list string)) (replacement row_filter : option string)
    (head_n : nat) (out : DataFrame) (p : payload) :
  String.eqb (lower intent) "find" = true ->
  execute_plan df intent pattern flags columns replacement row_filter head_n = Ok (out, p) ->
  exists mk rx acc (adopt : bool),
    _ensure_mask_from_query df row_filter = Ok mk /\
    Re.compile (regex p) (_compile_flags flags) = Some rx /\
    foldM (find_column rx df mk) (columns_applied p) (FindAcc 0 [] []) = Ok acc /\
    out = df /\
    mode p = "find" /\
    regex_source p = (if adopt then "row_filter-derived" else "regex") /\
    (adopt = false -> regex p = or_else pattern "^.*$" /\
       columns_applied p = _auto_columns df intent (or_else pattern "^.*$") columns) /\
    result_rows_description p = (if adopt then filter_only else filter_and_pattern) /\
    mask_row_indices p = firstn 2000 (selected mk) /\
    total_count p = fa_total acc /\ per_column p = fa_per_col acc /\
    result_rows_indices p = firstn 2000 (if adopt then selected mk else fa_changed acc) /\
    changed_row_indices p = result_rows_indices p /\
    result_rows_count p = List.length (if adopt then selected mk else fa_changed acc) /\
    head_hit_row_indices p =
      filter (fun i => i <? head_n) (if adopt then selected mk else fa_changed acc).
Proof.
  intros Hfind. unfold execute_plan. rewrite Hfind.
  rewrite andb_true_r. cbn [andb].
  change (if is_empty pattern then "^.*$" else pattern) with (or_else pattern "^.*$").
  destruct (_ensure_mask_from_query df row_filter) as [mk|e]; [|discriminate].
  cbn [bind].
  match goal with |- bind ?c _ = _ -> _ => destruct c as [nrf|e] end; [|discriminate].
  cbn [bind]. cbv zeta.
  destruct (_display_regex_and_columns_from_row_filter nrf) as [disp_rx disp_cols].
  set (adopt := (is_empty (or_else pattern "^.*$") || is_match_all (or_else pattern "^.*$"))
                && negb (is_none disp_rx)).
  match goal with |- (let '(a, b) := ?c in _) = _ -> _ => destruct c as [dr ds] end.
  match goal with |- (let '(a, b) := ?c in _) = _ -> _ => destruct c as [dr2 ds2] end.
  match goal with |- match Re.compile ?u _ with _ => _ end = _ -> _ =>
    set (use := u) end.
  destruct (Re.compile use (_compile_flags flags)) as [rx|] eqn:Hrx; [|discriminate].
  match goal with |- bind (foldM _ ?cs _) _ = _ -> _ => set (cols := cs) end.
  destruct (foldM (find_column rx df mk) cols (FindAcc 0 [] [])) as [acc|e] eqn:Hfold;
    [|discriminate].
  cbn [bind]. intro H. apply ok_pair_inv in H. destruct H as [-> ->].
  exists mk, rx, acc, adopt.
  cbn [mode regex regex_source columns_applied mask_row_indices total_count
       per_column changed_row_indices result_rows_indices result_rows_count
       head_hit_row_indices result_rows_description].
  assert (Hne : is_empty (or_else pattern "^.*$") = false)
    by (destruct pattern; reflexivity).
  assert (Hoff : adopt = false ->
            use = or_else pattern "^.*$" /\
            cols = _auto_columns df intent (or_else pattern "^.*$") columns).
  { intro Ha. unfold use, cols. rewrite Ha. cbn [andb]. now rewrite Hne. }
  clearbody adopt use cols.
  repeat (split; [first [reflexivity | assumption]|]). reflexivity.
Qed.

End ExecFacts.

(** ** What [execute_plan] keeps and reports *)

Section ExecutionClaims.
Import RegexExecutor.
Context {Sc : Scalars} {Q : QueryEngine} {D : DateBranch}.

(** X7.  A plain replace (any intent other than [find], the date
    sentinel apart) writes only inside the mask and the applied columns.
    On a frame whose columns have one cell per row, whatever the pattern
    and the replacement, the result has the same headers and length; a
    cell in a row outside the mask keeps its text; a cell of a column
    that is not applied is unchanged; a null cell stays null; and every
    row reported as changed is a row of the mask. *)
Theorem replace_keeps_other_cells (df : DataFrame) (intent pattern flags : string)
    (columns : option (list string)) (replacement row_filter : option string)
    (head_n : nat) (out : DataFrame) (p : payload) :
  String.eqb (lower intent) "find" = false ->
  String.eqb (lower intent) "replace"
    && is_date_sentinel (PlanV2.or_empty replacement) = false ->
  well_formed df ->
  execute_plan df intent pattern flags columns replacement row_filter head_n
    = Ok (out, p) ->
  exists mk,
    _ensure_mask_from_query df row_filter = Ok mk /\
    well_formed out /\
    cells_kept mk (columns_applied p) df out /\
    (forall i, In i (changed_row_indices p) -> nth i mk false = true).
Proof.
  intros Hfind Hdate Hwf Hrun.
  destruct (plain_replace_inv _ _ _ _ _ _ _ _ _ _ Hfind Hdate Hrun)
    as (mk & rx & acc & Hmk & _ & Hfold & -> & _ & _ & _ & Hcols & _ & _ & _ & Hch & _).
  exists mk. split; [exact Hmk|].
  pose proof (ensure_mask_length df row_filter mk Hwf Hmk) as Hlen.
  destruct (replace_fold_kept _ _ _ _ (ReplaceAcc df 0 [] []) acc Hwf Hlen Hfold)
    as [Hwf' Hkept].
  split; [exact Hwf'|]. split; [rewrite Hcols; exact Hkept|].
  intros i Hi. rewrite Hch in Hi. apply in_firstn in Hi.
  destruct (replace_fold_totals _ _ _ _ (ReplaceAcc df 0 [] []) acc Hfold)
    as (_ & _ & Hin).
  destruct (Hin i Hi) as [[] | Hm]. exact Hm.
Qed.

(** X8.  A plain replace that counts no match returns the frame it was
    given, unchanged (no column is converted to text), and reports no
    changed row. *)
Theorem replace_without_match_is_identity (df : DataFrame)
    (intent pattern flags : string) (columns : option (list string))
    (replacement row_filter : option string) (head_n : nat)
    (out : DataFrame) (p : payload) :
  String.eqb (lower intent) "find" = false ->
  String.eqb (lower intent) "replace"
    && is_date_sentinel (PlanV2.or_empty replacement) = false ->
  execute_plan df intent pattern flags columns replacement row_filter head_n
    = Ok (out, p) ->
  total_count p = 0 ->
  out = df /\ changed_row_indices p = [] /\ result_rows_count p = 0.
Proof.
  intros Hfind Hdate Hrun Hzero.
  destruct (plain_replace_inv _ _ _ _ _ _ _ _ _ _ Hfind Hdate Hrun)
    as (mk & rx & acc & _ & _ & Hfold & -> & _ & _ & _ & _ & _ & Ht & _ & Hch & _ & Hn & _).
  destruct (replace_fold_totals _ _ _ _ (ReplaceAcc df 0 [] []) acc Hfold)
    as (_ & Hsame & _).
  cbn [ra_total ra_out ra_changed] in Hsame.
  destruct Hsame as [Ho Hc]; [congruence|].
  rewrite Hch, Hn, Hc. auto.
Qed.

(** X9.  A find returns the frame it was given.  When it adopted the regex
    derived from the row filter, its result rows are the rows of the
    mask.  Otherwise its result rows are rows of the mask in which one of
    the applied columns has a text that the compiled pattern matches; and
    when no more than 2000 rows are hit, every such row is listed. *)
Theorem find_result_rows (df : DataFrame) (intent pattern flags : string)
    (columns : option (list string)) (replacement row_filter : option string)
    (head_n : nat) (out : DataFrame) (p : payload) :
  String.eqb (lower intent) "find" = true ->
  execute_plan df intent pattern flags columns replacement row_filter head_n
    = Ok (out, p) ->
  out = df /\
  exists mk rx,
    _ensure_mask_from_query df row_filter = Ok mk /\
    Re.compile (regex p) (_compile_flags flags) = Some rx /\
    mask_row_indices p = firstn 2000 (selected mk) /\
    (regex_source p = "row_filter-derived" ->
       result_rows_indices p = mask_row_indices p /\
       result_rows_description p = filter_only) /\
    (regex_source p = "regex" ->
       result_rows_description p = filter_and_pattern /\
       (forall i, In i (result_rows_indices p) ->
          row_hit rx mk (columns_applied p) df i) /\
       (result_rows_count p <= 2000 ->
          forall i, row_hit rx mk (columns_applied p) df i ->
            In i (result_rows_indices p))).
Proof.
  intros Hfind Hrun.
  destruct (find_inv _ _ _ _ _ _ _ _ _ _ Hfind Hrun)
    as (mk & rx & acc & adopt & Hmk & Hrx & Hfold & -> & _ & Hsrc & _ & Hdesc & Hmask
        & _ & _ & Hrows & _ & Hcount & _).
  split; [reflexivity|]. exists mk, rx.
  split; [exact Hmk|]. split; [exact Hrx|]. split; [exact Hmask|].
  pose proof (find_fold_rows _ _ _ _ (FindAcc 0 [] []) acc Hfold) as Hhit. cbn [fa_changed] in Hhit.
  destruct adopt; rewrite Hsrc, Hdesc, Hrows; split; try discriminate.
  - intros _. now rewrite Hmask.
  - intros _. split; [reflexivity|]. split.
    + intros i Hi. apply in_firstn in Hi. apply Hhit in Hi.
      destruct Hi as [[] | Hi]. exact Hi.
    + intros Hle i Hi. rewrite Hcount in Hle.
      rewrite firstn_all2 by exact Hle. apply Hhit. now right.
Qed.

(** X10.  With every applied column named once, the total a find or a plain
    replace reports is the sum of its per-column counts, and the
    per-column counts are listed in the order of the applied columns. *)
Theorem totals_add_up (df : DataFrame) (intent pattern flags : string)
    (columns : option (list string)) (replacement row_filter : option string)
    (head_n : nat) (out : DataFrame) (p : payload) :
  String.eqb (lower intent) "replace"
    && is_date_sentinel (PlanV2.or_empty replacement)
    && negb (String.eqb (lower intent) "find") = false ->
  execute_plan df intent pattern flags columns replacement row_filter head_n
    = Ok (out, p) ->
  NoDup (columns_applied p) ->
  map fst (per_column p) = columns_applied p /\
  total_count p = list_sum (map snd (per_column p)).
Proof.
  intros Hdate Hrun Hnd.
  destruct (String.eqb (lower intent) "find") eqn:Hfind.
  - destruct (find_inv _ _ _ _ _ _ _ _ _ _ Hfind Hrun)
      as (mk & rx & acc & adopt & _ & _ & Hfold & _ & _ & _ & _ & _ & _ & Ht & Hp & _).
    destruct (find_fold_per_col rx df mk _ (FindAcc 0 [] []) acc Hnd (fun c _ H => H) Hfold)
      as [Hk Hs].
    cbn [fa_per_col fa_total map app] in Hk, Hs.
    change (list_sum (@nil nat)) with 0 in Hs.
    rewrite Ht, Hp. split; [exact Hk | lia].
  - rewrite andb_true_r in Hdate.
    destruct (plain_replace_inv _ _ _ _ _ _ _ _ _ _ Hfind Hdate Hrun)
      as (mk & rx & acc & _ & _ & Hfold & _ & _ & _ & _ & Hcols & _ & Ht & Hp & _).
    rewrite Hcols in Hnd.
    destruct (replace_fold_per_col rx _ mk _ (ReplaceAcc df 0 [] []) acc Hnd
                (fun c _ H => H) Hfold) as [Hk Hs].
    cbn [ra_per_col ra_total map app] in Hk, Hs.
    change (list_sum (@nil nat)) with 0 in Hs.
    rewrite Ht, Hp, Hcols. split; [exact Hk | lia].
Qed.

(** X11.  A find without row filter and without explicit columns returns
    as soon as its pattern (or [^.*$] in place of an empty pattern)
    compiles under the flags of [_compile_flags]: no look-up of a column
    can fail.  It reads the text columns, selects every row, and returns
    the frame it was given with the regex it was given. *)
Theorem find_returns_when_pattern_compiles (df : DataFrame)
    (intent pattern flags : string) (replacement : option string) (head_n : nat)
    (rx : Re.regex) :
  String.eqb (lower intent) "find" = true ->
  Re.compile (or_else pattern "^.*$") (_compile_flags flags) = Some rx ->
  exists p,
    execute_plan df intent pattern flags None replacement None head_n = Ok (df, p) /\
    regex p = or_else pattern "^.*$" /\ regex_source p = "regex" /\
    columns_applied p = text_columns df /\
    mask_row_indices p = firstn 2000 (seq 0 (df_len df)).
Proof.
  intros Hfind Hrx.
  assert (Hne : is_empty (or_else pattern "^.*$") = false)
    by (destruct pattern; reflexivity).
  assert (Hcols : _auto_columns df intent (or_else pattern "^.*$") None = text_columns df).
  { unfold _auto_columns. apply String.eqb_eq in Hfind. rewrite Hfind. reflexivity. }
  assert (Hrun : execute_plan df intent pattern flags None replacement None head_n =
                 match Re.compile (or_else pattern "^.*$") (_compile_flags flags) with
                 | None => Raise ReError
                 | Some rx =>
                     acc <- foldM (find_column rx df (all_true df)) (text_columns df)
                              (FindAcc 0 [] []) ;;
                     Ok (df,
                         Payload "find" (or_else pattern "^.*$") "regex"
                           (Some (or_else pattern "^.*$")) (Some "regex") None flags
                           (text_columns df) None None
                           (firstn 2000 (selected (all_true df)))
                           (fa_total acc) (fa_per_col acc)
                           (firstn 2000 (fa_changed acc))
                           (filter (fun i => i <? head_n) (fa_changed acc))
                           (flat_map (example_of rx df (text_columns df))
                              (firstn 50 (fa_changed acc)))
                           (head_records df head_n) filter_and_pattern
                           (List.length (fa_changed acc))
                           (firstn 2000 (fa_changed acc)))
                 end).
  { unfold execute_plan. cbv zeta.
    apply String.eqb_eq in Hfind. rewrite Hfind.
    change (String.eqb "find" "find") with true.
    change (String.eqb "find" "replace") with false.
    rewrite !andb_true_r.
    change (if is_empty pattern then "^.*$" else pattern) with (or_else pattern "^.*$").
    rewrite Hcols.
    cbn [_ensure_mask_from_query bind _display_regex_and_columns_from_row_filter
         is_none negb andb].
    rewrite !andb_false_r. cbn [andb]. rewrite Hne. reflexivity. }
  assert (Hsel : selected (all_true df) = seq 0 (df_len df)).
  { unfold selected, all_true. generalize 0 as k.
    induction (df_len df) as [|n IH]; intro k; simpl; [reflexivity|].
    now rewrite IH. }
  rewrite Hrun, Hrx.
  destruct (find_fold_returns rx df (all_true df) (text_columns df)
              (fun c Hc => get_column_known df c (text_columns_known df c Hc))
              (FindAcc 0 [] [])) as [acc Hacc].
  rewrite Hacc. cbn [bind]. eexists. split; [reflexivity|].
  cbn [regex regex_source columns_applied mask_row_indices]. rewrite Hsel. auto.
Qed.

(** X12.  The mask [_ensure_mask_from_query] returns for a frame whose
    columns have one cell per row has one entry per row, whichever tier
    of the interpreter produced it; a missing or blank filter selects
    every row. *)
Theorem mask_has_one_entry_per_row (df : DataFrame) (row_filter : option string)
    (mk : mask) :
  well_formed df ->
  _ensure_mask_from_query df row_filter = Ok mk ->
  List.length mk = df_len df /\
  (forall i, In i (selected mk) -> i < df_len df) /\
  (match row_filter with
   | None => True
   | Some q => is_empty (strip q) = true
   end -> mk = all_true df).
Proof.
  intros Hwf Hmk. pose proof (ensure_mask_length df row_filter mk Hwf Hmk) as Hlen.
  split; [exact Hlen|]. split.
  - intros i Hi. apply selected_in in Hi. rewrite <- Hlen.
    destruct (Nat.lt_ge_cases i (List.length mk)) as [H|H]; [exact H|].
    rewrite nth_overflow in Hi by exact H. discriminate.
  - unfold _ensure_mask_from_query in Hmk. destruct row_filter as [q|].
    + intro Hb. rewrite Hb in Hmk. now inversion Hmk.
    + intros _. now inversion Hmk.
Qed.

End ExecutionClaims.

Section ExecutionWitnesses.
Import RegexExecutor.

Lemma notes_well_formed : @well_formed text_only notes.
Proof. repeat constructor. Qed.

Lemma replace_keeps_other_cells_witness :
  exists out p,
    @execute_plan text_only no_engine no_date notes "Replace" "n" "i"
      (Some ["Name"]) (Some "X") (Some "`City` == 'oslo'") 10 = Ok (out, p) /\
    exists mk,
      @_ensure_mask_from_query text_only no_engine notes (Some "`City` == 'oslo'")
        = Ok mk /\
      well_formed out /\
      cells_kept mk (columns_applied p) notes out /\
      (forall i, In i (changed_row_indices p) -> nth i mk false = true).
Proof.
  destruct (@execute_plan text_only no_engine no_date notes "Replace" "n" "i"
              (Some ["Name"]) (Some "X") (Some "`City` == 'oslo'") 10)
    as [[out p]|e] eqn:E; [|vm_compute in E; discriminate].
  exists out, p. split; [reflexivity|].
  apply (@replace_keeps_other_cells text_only no_engine no_date notes "Replace" "n" "i" (Some ["Name"]) (Some "X")
           (Some "`City` == 'oslo'") 10 out p);
    [reflexivity | reflexivity | exact notes_well_formed | exact E].
Defined.

Lemma replace_without_match_is_identity_witness :
  exists out p,
    @execute_plan text_only no_engine no_date notes "replace" "z+" "i"
      (Some ["Name"; "City"]) (Some "X") None 10 = Ok (out, p) /\
    total_count p = 0 /\
    out = notes /\ changed_row_indices p = [] /\ result_rows_count p = 0.
Proof.
  destruct (@execute_plan text_only no_engine no_date notes "replace" "z+" "i"
              (Some ["Name"; "City"]) (Some "X") None 10)
    as [[out p]|e] eqn:E; [|vm_compute in E; discriminate].
  assert (Hz : total_count p = 0).
  { pose proof E as E'. vm_compute in E'. apply ok_pair_inv in E'.
    destruct E' as [_ ->]. reflexivity. }
  exists out, p. split; [reflexivity|]. split; [exact Hz|].
  apply (@replace_without_match_is_identity text_only no_engine no_date notes "replace" "z+" "i"
           (Some ["Name"; "City"]) (Some "X") None 10 out p);
    [reflexivity | reflexivity | exact E | exact Hz].
Defined.

Lemma find_result_rows_witness :
  exists out p,
    @execute_plan text_only no_engine no_date notes "find" "n" "i"
      (Some ["Name"]) None (Some "`City` == 'oslo'") 10 = Ok (out, p) /\
    out = notes /\
    exists mk rx,
      @_ensure_mask_from_query text_only no_engine notes (Some "`City` == 'oslo'")
        = Ok mk /\
      Re.compile (regex p) (_compile_flags "i") = Some rx /\
      mask_row_indices p = firstn 2000 (selected mk) /\
      (regex_source p = "row_filter-derived" ->
         result_rows_indices p = mask_row_indices p /\
         result_rows_description p = filter_only) /\
      (regex_source p = "regex" ->
         result_rows_description p = filter_and_pattern /\
         (forall i, In i (result_rows_indices p) ->
            row_hit rx mk (columns_applied p) notes i) /\
         (result_rows_count p <= 2000 ->
            forall i, row_hit rx mk (columns_applied p) notes i ->
              In i (result_rows_indices p))).
Proof.
  destruct (@execute_plan text_only no_engine no_date notes "find" "n" "i"
              (Some ["Name"]) None (Some "`City` == 'oslo'") 10)
    as [[out p]|e] eqn:E; [|vm_compute in E; discriminate].
  exists out, p. split; [reflexivity|].
  apply (@find_result_rows text_only no_engine no_date notes "find" "n" "i" (Some ["Name"]) None
           (Some "`City` == 'oslo'") 10 out p); [reflexivity | exact E].
Defined.

Lemma totals_add_up_witness :
  exists out p,
    @execute_plan text_only no_engine no_date notes "find" "o" "i"
      None None None 10 = Ok (out, p) /\
    NoDup (columns_applied p) /\
    map fst (per_column p) = columns_applied p /\
    total_count p = list_sum (map snd (per_column p)).
Proof.
  destruct (@execute_plan text_only no_engine no_date notes "find" "o" "i"
              None None None 10)
    as [[out p]|e] eqn:E; [|vm_compute in E; discriminate].
  assert (Hnd : NoDup (columns_applied p)).
  { pose proof E as E'. vm_compute in E'. apply ok_pair_inv in E'.
    destruct E' as [_ ->]. cbn [columns_applied].
    repeat constructor; simpl; intuition discriminate. }
  exists out, p. split; [reflexivity|]. split; [exact Hnd|].
  apply (@totals_add_up text_only no_engine no_date notes "find" "o" "i" None None None 10 out p);
    [reflexivity | exact E | exact Hnd].
Defined.

Lemma find_returns_when_pattern_compiles_witness :
  exists rx p,
    Re.compile (or_else "o+" "^.*$") (_compile_flags "i") = Some rx /\
    @execute_plan text_only no_engine no_date notes "Find" "o+" "i" None None None 10
      = Ok (notes, p) /\
    regex p = or_else "o+" "^.*$" /\ regex_source p = "regex" /\
    columns_applied p = text_columns notes /\
    mask_row_indices p = firstn 2000 (seq 0 (df_len notes)).
Proof.
  destruct (Re.compile (or_else "o+" "^.*$") (_compile_flags "i")) as [rx|] eqn:E;
    [|vm_compute in E; discriminate].
  destruct (@find_returns_when_pattern_compiles text_only no_engine no_date
              notes "Find" "o+" "i" None 10 rx eq_refl E) as [p Hp].
  exists rx, p. split; [reflexivity | exact Hp].
Defined.

Lemma mask_has_one_entry_per_row_witness :
  exists mk,
    @_ensure_mask_from_query text_only no_engine notes (Some "`City` == 'oslo'")
      = Ok mk /\
    List.length mk = df_len notes /\
    (forall i, In i (selected mk) -> i < df_len notes) /\
    (is_empty (strip "`City` == 'oslo'") = true -> mk = all_true notes).
Proof.
  destruct (@_ensure_mask_from_query text_only no_engine notes (Some "`City` == 'oslo'"))
    as [mk|e] eqn:E; [|vm_compute in E; discriminate].
  exists mk. split; [reflexivity|].
  exact (@mask_has_one_entry_per_row text_only no_engine notes
           (Some "`City` == 'oslo'") mk notes_well_formed E).
Defined.

End ExecutionWitnesses.

(** ** The parts of [_split_top_level] *)

Section SplitParts.
Import RegexExecutor.

Lemma flush_trimmed (b : list ascii) : strip (flush b) = flush b.
Proof. unfold flush, strip. now rewrite chars_str, strip_chars_fixed. Qed.

Lemma split_step_out (st : split_state) :
  out (split_step rx_or st) = out st \/
  out (split_step rx_or st) = flush (buf st) :: out st.
Proof.
  unfold split_step. destruct (todo st) as [|ch tl]; [now left|].
  destruct (Ascii.eqb ch "\"), tl as [|c2 tl2]; try (now left);
    repeat match goal with
           | |- context [if ?b then _ else _] => destruct b
           | |- context [match Re.re_match ?r ?s with _ => _ end] =>
               destruct (Re.re_match r s)
           end; auto.
Qed.

Lemma split_loop_out (fuel : nat) (st : split_state) :
  Forall (fun p => strip p = p) (out st) ->
  Forall (fun p => strip p = p) (out (split_loop fuel rx_or st)).
Proof.
  revert st. induction fuel as [|f IH]; intros st H; [exact H|].
  simpl. destruct (todo st); [exact H|]. apply IH.
  destruct (split_step_out st) as [-> | ->]; [exact H|].
  constructor; [apply flush_trimmed | exact H].
Qed.

Lemma split_parts_trimmed (expr : string) :
  Forall (fun p => p <> EmptyString /\ strip p = p) (_split_top_level expr).
Proof.
  unfold _split_top_level.
  set (st := split_loop _ _ _).
  assert (H : Forall (fun p => strip p = p) (rev (flush (buf st) :: out st))).
  { apply Forall_rev. constructor; [apply flush_trimmed|].
    apply split_loop_out. constructor. }
  apply Forall_forall. intros p Hp. apply filter_In in Hp. destruct Hp as [Hin Hne].
  rewrite Forall_forall in H. split; [|now apply H].
  intros ->. discriminate.
Qed.

(** *** A cut at every [or] *)

Lemma rx_or_no_match (x : ascii) (tl : list ascii) :
  negb (Ascii.eqb (lower_char x) "o"
        && match tl with y :: _ => Ascii.eqb (lower_char y) "r" | [] => false end) = true ->
  Re.re_match rx_or (str (x :: tl)) = None.
Proof.
  intro H. destruct (Re.re_match rx_or (str (x :: tl))) as [mt|] eqn:E; [|reflexivity].
  apply rx_or_match in E. destruct E as (c1 & c2 & tl2 & El & H1 & H2 & _).
  inversion El. subst. exfalso.
  destruct H1 as [-> | ->], H2 as [-> | ->]; discriminate.
Qed.

Lemma rx_or_matches (c1 c2 : ascii) (b : list ascii) :
  lower_char c1 = "o"%char -> lower_char c2 = "r"%char ->
  match b with y :: _ => is_word y = false | [] => True end ->
  exists mt, Re.re_match rx_or (str (c1 :: c2 :: b)) = Some mt /\ Re.m_end mt = 2.
Proof.
  intros H1 H2 Hb.
  assert (Hw1 : is_word c1 = true).
  { clear -H1. destruct c1 as [[] [] [] [] [] [] [] []]; vm_compute in H1 |- *;
      congruence. }
  assert (Hw2 : is_word c2 = true).
  { clear -H2. destruct c2 as [[] [] [] [] [] [] [] []]; vm_compute in H2 |- *;
      congruence. }
  unfold Re.re_match, Re.match_here, Re.start_state. rewrite chars_str.
  cbn. rewrite Hw1, H1, H2. cbn.
  destruct b as [|y b']; cbn.
  - rewrite Hw2. cbn. eexists. split; reflexivity.
  - rewrite Hw2, Hb. cbn. eexists. split; reflexivity.
Qed.

End SplitParts.

Section SplitAtOr.
Import RegexExecutor.

Lemma split_step_shorter (st : split_state) :
  todo st <> [] ->
  List.length (todo (split_step rx_or st)) < List.length (todo st).
Proof.
  unfold split_step. destruct (todo st) as [|ch tl] eqn:Ht; [contradiction|].
  intros _.
  destruct (Ascii.eqb ch "\"), tl as [|c2 tl2];
    repeat match goal with
           | |- context [if ?b then _ else _] => destruct b
           end; cbn [todo List.length]; try lia;
    match goal with
    | |- context [Re.re_match ?r ?s] => destruct (Re.re_match r s) as [mt|] eqn:Em
    end;
    repeat match goal with
           | |- context [if ?b then _ else _] => destruct b
           end; cbn [todo List.length]; try lia;
    apply rx_or_match in Em; destruct Em as (c1 & c3 & tl3 & El & _ & _ & ->);
    inversion El; subst; cbn; lia.
Qed.

Lemma split_loop_more (n : nat) :
  forall st, List.length (todo st) <= n ->
    split_loop (S n) rx_or st = split_loop n rx_or st.
Proof.
  induction n as [|n IH]; intros st Hn.
  - destruct (todo st) eqn:E; [|simpl in Hn; lia].
    simpl. now rewrite E.
  - change (split_loop (S (S n)) rx_or st)
      with (match todo st with
            | [] => st
            | _ => split_loop (S n) rx_or (split_step rx_or st)
            end).
    change (split_loop (S n) rx_or st)
      with (match todo st with
            | [] => st
            | _ => split_loop n rx_or (split_step rx_or st)
            end).
    destruct (todo st) as [|ch tl] eqn:E; [reflexivity|].
    apply IH. pose proof (split_step_shorter st) as Hs. rewrite E in Hs.
    specialize (Hs ltac:(discriminate)). simpl in Hs, Hn. lia.
Qed.

Lemma split_loop_enough (k n : nat) (st : split_state) :
  List.length (todo st) <= n ->
  split_loop (n + k) rx_or st = split_loop n rx_or st.
Proof.
  intro Hn. induction k as [|k IH]; [now rewrite Nat.add_0_r|].
  rewrite Nat.add_succ_r, split_loop_more by lia. exact IH.
Qed.

Lemma split_step_with_out (st : split_state) (o : list string) :
  split_step rx_or (with_out st o) = with_out (split_step rx_or st) o.
Proof.
  destruct st as [t b0 o0 d s1 d1].
  unfold split_step, with_out. cbn [todo buf out depth in_s in_d].
  destruct t as [|ch tl]; [reflexivity|].
  destruct (Ascii.eqb ch "\"), tl as [|c2 tl2]; try reflexivity;
    repeat match goal with
           | |- context [if ?b then _ else _] => destruct b
           | |- context [match Re.re_match ?r ?s with _ => _ end] =>
               destruct (Re.re_match r s)
           end; reflexivity.
Qed.

Lemma split_loop_with_out (fuel : nat) (o : list string) :
  forall st, split_loop fuel rx_or (with_out st o)
             = with_out (split_loop fuel rx_or st) o.
Proof.
  induction fuel as [|f IH]; intro st; [reflexivity|].
  destruct st as [t b0 o0 d s1 d1]. destruct t as [|ch tl]; [reflexivity|].
  change (split_loop (S f) rx_or (with_out (SplitState (ch :: tl) b0 o0 d s1 d1) o))
    with (split_loop f rx_or
            (split_step rx_or (with_out (SplitState (ch :: tl) b0 o0 d s1 d1) o))).
  rewrite split_step_with_out, IH. reflexivity.
Qed.

Lemma split_loop_plain (a : list ascii) :
  forall (rest buf0 : list ascii) (out0 : list string) (fuel : nat),
    forallb is_plain_char a = true ->
    or_free (List.length a) (a ++ rest) = true ->
    split_loop (List.length a + fuel) rx_or
      (SplitState (a ++ rest) buf0 out0 0 false false)
    = split_loop fuel rx_or (SplitState rest (rev a ++ buf0) out0 0 false false).
Proof.
  induction a as [|x a IH]; intros rest buf0 out0 fuel Hp Hf; [reflexivity|].
  simpl in Hp, Hf. apply andb_prop in Hp, Hf. destruct Hp as [Hx Hp], Hf as [Hn Hf].
  cbn [List.length Nat.add app].
  change (split_loop (S (List.length a + fuel)) rx_or
            (SplitState (x :: a ++ rest) buf0 out0 0 false false))
    with (split_loop (List.length a + fuel) rx_or
            (split_step rx_or (SplitState (x :: a ++ rest) buf0 out0 0 false false))).
  assert (Hstep : split_step rx_or (SplitState (x :: a ++ rest) buf0 out0 0 false false)
                  = SplitState (a ++ rest) (x :: buf0) out0 0 false false).
  { unfold split_step. cbn [todo buf out depth in_s in_d].
    unfold is_plain_char in Hx. apply negb_true_iff in Hx.
    repeat (apply orb_false_elim in Hx; destruct Hx as [Hx ?]).
    match goal with H : Ascii.eqb x "\" = false |- _ => rewrite H end.
    match goal with H : Ascii.eqb x "'" = false |- _ => rewrite H end.
    match goal with H : Ascii.eqb x dquote = false |- _ => rewrite H end.
    match goal with H : Ascii.eqb x "(" = false |- _ => rewrite H end.
    match goal with H : Ascii.eqb x ")" = false |- _ => rewrite H end.
    cbn [negb andb].
    rewrite (rx_or_no_match x (a ++ rest) Hn). reflexivity. }
  rewrite Hstep, IH by assumption. cbn [rev]. now rewrite <- app_assoc.
Qed.

Lemma chars_append (s t : string) : chars (s ++ t) = (chars s ++ chars t)%list.
Proof. induction s as [|c s IH]; simpl; [reflexivity|]. now rewrite IH. Qed.

Lemma or_free_of_contains (a : list ascii) (c1 : ascii) (rest : list ascii) :
  contains_chars (map lower_char a) ["o"; "r"]%char = false ->
  lower_char c1 = "o"%char ->
  or_free (List.length a) (a ++ c1 :: rest) = true.
Proof.
  intros Hc H1. induction a as [|x a IH]; [reflexivity|].
  cbn [map contains_chars] in Hc. apply orb_false_elim in Hc. destruct Hc as [Hs Hc].
  cbn [List.length app or_free]. rewrite (IH Hc), andb_true_r.
  apply negb_true_iff.
  destruct (Ascii.eqb (lower_char x) "o") eqn:Ex; [|reflexivity]. cbn [andb].
  destruct a as [|y a']; cbn [app].
  - rewrite H1. reflexivity.
  - cbn [map starts_with] in Hs. rewrite Ascii.eqb_sym in Ex. rewrite Ex in Hs.
    cbn [andb] in Hs. rewrite andb_true_r in Hs. rewrite Ascii.eqb_sym. exact Hs.
Qed.

(** X13.  [_split_top_level] cuts at every [or] (in any case) that the
    next character does not continue into a word, whatever stands before
    it: when the text [a] in front has no quote, backslash or parenthesis
    and no [or] of its own, the parts of [a ++ "or" ++ b] are the trimmed
    [a], if it is not blank, followed by the parts of [b].  The letter
    before the [or] is not looked at, so a name that ends in [or] is cut
    too. *)
Theorem split_cuts_at_every_or (a b : string) (c1 c2 : ascii) :
  forallb is_plain_char (chars a) = true ->
  contains (lower a) "or" = false ->
  lower_char c1 = "o"%char -> lower_char c2 = "r"%char ->
  match chars b with y :: _ => is_word y = false | [] => True end ->
  _split_top_level (a ++ String c1 (String c2 b)) =
  ((if is_empty (strip a) then [] else [strip a]) ++ _split_top_level b)%list.
Proof.
  intros Hp Hc H1 H2 Hb.
  unfold _split_top_level.
  rewrite <- !string_length_chars, chars_append.
  cbn [chars list_ascii_of_string]. fold (chars b).
  rewrite length_app. cbn [List.length].
  unfold contains, lower in Hc. rewrite chars_str in Hc.
  rewrite (split_loop_plain (chars a) (c1 :: c2 :: chars b) [] [] _ Hp
             (or_free_of_contains _ _ _ Hc H1)).
  rewrite app_nil_r.
  destruct (rx_or_matches c1 c2 (chars b) H1 H2 Hb) as (mt & Hm & Hend).
  assert (Hplain1 : Ascii.eqb c1 "\" = false /\ Ascii.eqb c1 "'" = false /\
                    Ascii.eqb c1 dquote = false /\ Ascii.eqb c1 "(" = false /\
                    Ascii.eqb c1 ")" = false).
  { clear -H1. destruct c1 as [[] [] [] [] [] [] [] []]; vm_compute in H1;
      try discriminate; repeat split; reflexivity. }
  destruct Hplain1 as (E1 & E2 & E3 & E4 & E5).
  change (split_loop (S (S (List.length (chars b)))) rx_or
            (SplitState (c1 :: c2 :: chars b) (rev (chars a)) [] 0 false false))
    with (split_loop (S (List.length (chars b))) rx_or
            (split_step rx_or
               (SplitState (c1 :: c2 :: chars b) (rev (chars a)) [] 0 false false))).
  assert (Hstep : split_step rx_or
                    (SplitState (c1 :: c2 :: chars b) (rev (chars a)) [] 0 false false)
                  = with_out (SplitState (chars b) [] [] 0 false false)
                      [flush (rev (chars a))]).
  { unfold split_step. cbn [todo buf out depth in_s in_d].
    rewrite E1, E2, E3, E4, E5. cbn [negb andb]. rewrite Hm, Hend. reflexivity. }
  rewrite Hstep, split_loop_with_out.
  rewrite split_loop_more by (cbn [todo]; lia).
  set (st := split_loop (List.length (chars b)) rx_or
               (SplitState (chars b) [] [] 0 false false)).
  cbn [with_out buf out].
  assert (Hflush : flush (rev (chars a)) = strip a).
  { unfold flush, strip. now rewrite rev_involutive. }
  rewrite Hflush.
  change (flush (buf st) :: (out st ++ [strip a])%list)
    with ((flush (buf st) :: out st) ++ [strip a])%list.
  rewrite rev_app_distr. cbn [rev app filter].
  destruct (is_empty (strip a)); reflexivity.
Qed.

Lemma split_cuts_at_every_or_witness :
  forallb is_plain_char (chars "`Col") = true /\
  contains (lower "`Col") "or" = false /\
  _split_top_level ("`Col" ++ String "o" (String "r" "` == 'red'")) =
  ((if is_empty (strip "`Col") then [] else [strip "`Col"])
   ++ _split_top_level "` == 'red'")%list /\
  _split_top_level "`Color` == 'red'" = ["`Col"; "` == 'red'"].
Proof.
  split; [reflexivity|]. split; [reflexivity|]. split; [|vm_compute; reflexivity].
  apply (split_cuts_at_every_or "`Col" "` == 'red'" "o" "r");
    [reflexivity | reflexivity | reflexivity | reflexivity | reflexivity].
Defined.

End SplitAtOr.

(** ** The evaluator without row numbers *)

Section ExprWithOr.
Import RegexExecutor.
Context {Sc : Scalars} {Q : QueryEngine}.

Lemma sub_fn_no_match (rx : Re.regex) (f : Re.rmatch -> string) (text : string) :
  Re.finditer rx text = [] -> Re.sub_fn rx f text = text.
Proof.
  intro H. unfold Re.sub_fn. rewrite H. cbn [Re.sub_pieces skipn concat fold_right].
  rewrite str_chars. apply string_append_empty.
Qed.

Lemma expr_with_or_fold (df : DataFrame) (parts : list string) (a : mask) :
  Forall (fun p => strip p = p /\ p <> EmptyString /\
                   Re.finditer _ROWNUM_RE p = []) parts ->
  fold_left
    (fun (st : option mask * bool) part =>
       let m := fst (fst (_eval_basic_query df (or_else (strip part) "True"))) in
       (Some (match fst st with
              | None => m
              | Some a => mask_or a m
              end), true))
    parts (Some a, true)
  = (union_groups df (Some a) parts, true).
Proof.
  revert a. induction parts as [|p parts IH]; intros a H; [reflexivity|].
  inversion H as [|? ? (Hs & Hne & Hno) Hrest]. subst.
  cbn [fold_left union_groups fst]. rewrite <- IH by exact Hrest.
  assert (E : fst (_mask_group_with_rownum df p) =
              fst (fst (_eval_basic_query df (or_else (strip p) "True")))).
  { apply mask_group_without_rownum. unfold _remove_rownum_clauses.
    rewrite Hno, sub_fn_no_match by exact Hno. reflexivity. }
  cbv zeta. now rewrite E.
Qed.

(** X15.  [_mask_from_expr_with_or] always returns a mask, never [None];
    and on a filter none of whose OR-groups holds a row-number clause it
    returns the mask of [_mask_from_query_with_rownum]. *)
Theorem expr_with_or_agrees (df : DataFrame) (q : string) :
  (exists mk, _mask_from_expr_with_or df q = Some mk) /\
  (_split_top_level q <> [] ->
   Forall (fun p => Re.finditer _ROWNUM_RE p = []) (_split_top_level q) ->
   _mask_from_expr_with_or df q = Some (_mask_from_query_with_rownum df q)).
Proof.
  pose proof (split_parts_trimmed q) as Ht.
  unfold _mask_from_expr_with_or, _mask_from_query_with_rownum.
  destruct (_split_top_level q) as [|p parts]; [split; [eauto | congruence]|].
  inversion Ht as [|? ? [Hne Hs] Hrest]. subst.
  cbn [fold_left fst union_groups].
  split.
  - clear. generalize (fst (fst (_eval_basic_query df (or_else (strip p) "True")))) as a.
    induction parts as [|p' parts IH]; intro a; [cbn; eauto|].
    cbn [fold_left fst]. apply IH.
  - intros _ Hno. inversion Hno as [|? ? Hp Hparts]. subst.
    assert (E : fst (_mask_group_with_rownum df p) =
                fst (fst (_eval_basic_query df (or_else (strip p) "True")))).
    { apply mask_group_without_rownum. unfold _remove_rownum_clauses.
      rewrite Hp, sub_fn_no_match by exact Hp. reflexivity. }
    rewrite expr_with_or_fold.
    + rewrite E. destruct (union_groups df _ parts) eqn:Eu; [reflexivity|].
      rewrite union_groups_fold in Eu. discriminate.
    + clear -Hrest Hparts. induction parts as [|p' parts IH]; [constructor|].
      inversion Hrest as [|? ? [? ?] ?]. inversion Hparts. subst.
      constructor; [auto | now apply IH].
Qed.

End ExprWithOr.

Section SplitWhole.
Import RegexExecutor.

Lemma or_free_tail (n : nat) (x : ascii) (tl : list ascii) :
  or_free (S n) (x :: tl) = true -> or_free n tl = true.
Proof. cbn [or_free]. intro H. apply andb_prop in H. tauto. Qed.

(** Without an [or] the loop moves the whole text to the buffer. *)
Lemma split_loop_no_or (fuel : nat) :
  forall st,
    or_free (List.length (todo st)) (todo st) = true ->
    List.length (todo st) <= fuel ->
    todo (split_loop fuel rx_or st) = [] /\
    buf (split_loop fuel rx_or st) = (rev (todo st) ++ buf st)%list /\
    out (split_loop fuel rx_or st) = out st.
Proof.
  induction fuel as [|f IH]; intros st Hf Hn.
  - destruct st as [t b0 o0 d s1 d1]. cbn [todo buf out] in *.
    destruct t as [|ch tl]; [cbn; auto | simpl in Hn; lia].
  - destruct st as [t b0 o0 d s1 d1]. cbn [todo buf out] in *.
    destruct t as [|ch tl]; [cbn; auto|].
    change (split_loop (S f) rx_or (SplitState (ch :: tl) b0 o0 d s1 d1))
      with (split_loop f rx_or (split_step rx_or (SplitState (ch :: tl) b0 o0 d s1 d1))).
    assert (Hno : Re.re_match rx_or (str (ch :: tl)) = None).
    { apply rx_or_no_match. cbn [List.length or_free] in Hf.
      apply andb_prop in Hf. tauto. }
    pose proof (or_free_tail _ _ _ Hf) as Htl.
    assert (Hstep :
      (exists d' s' d'',
         split_step rx_or (SplitState (ch :: tl) b0 o0 d s1 d1)
         = SplitState tl (ch :: b0) o0 d' s' d'') \/
      (exists c2 tl2, tl = c2 :: tl2 /\
         split_step rx_or (SplitState (ch :: tl) b0 o0 d s1 d1)
         = SplitState tl2 (c2 :: ch :: b0) o0 d s1 d1)).
    { unfold split_step. cbn [todo buf out depth in_s in_d]. rewrite Hno.
      destruct (Ascii.eqb ch "\"), tl as [|c2 tl2]; eauto;
        repeat match goal with
               | |- context [if ?c then _ else _] => destruct c
               end; eauto 10. }
    destruct Hstep as [(d' & s' & d'' & ->) | (c2 & tl2 & -> & ->)].
    + destruct (IH (SplitState tl (ch :: b0) o0 d' s' d'')) as (H1 & H2 & H3);
        cbn [todo buf out]; [exact Htl | simpl in Hn; lia |].
      cbn [todo buf out] in H2, H3. split; [exact H1|]. split; [|exact H3].
      rewrite H2. cbn [rev]. now rewrite <- app_assoc.
    + destruct (IH (SplitState tl2 (c2 :: ch :: b0) o0 d s1 d1)) as (H1 & H2 & H3);
        cbn [todo buf out].
      * cbn [List.length] in Htl. apply or_free_tail in Htl. exact Htl.
      * simpl in Hn. lia.
      * cbn [todo buf out] in H2, H3. split; [exact H1|]. split; [|exact H3].
        rewrite H2. cbn [rev]. now rewrite <- !app_assoc.
Qed.

Lemma or_free_all (l : list ascii) :
  contains_chars (map lower_char l) ["o"; "r"]%char = false ->
  or_free (List.length l) l = true.
Proof.
  induction l as [|x l IH]; intro Hc; [reflexivity|].
  cbn [map contains_chars] in Hc. apply orb_false_elim in Hc. destruct Hc as [Hs Hc].
  cbn [List.length or_free]. rewrite (IH Hc), andb_true_r.
  apply negb_true_iff.
  destruct (Ascii.eqb (lower_char x) "o") eqn:Ex; [|reflexivity]. cbn [andb].
  destruct l as [|y l']; [reflexivity|].
  cbn [map starts_with] in Hs. rewrite Ascii.eqb_sym in Ex. rewrite Ex in Hs.
  cbn [andb] in Hs. rewrite andb_true_r in Hs. rewrite Ascii.eqb_sym. exact Hs.
Qed.

(** X14.  Every part [_split_top_level] returns is non-empty and has no
    white space at either end; and a text in which no [or] occurs, in any
    case, is returned whole: trimmed as the only part, or no part at all
    when it is blank. *)
Theorem split_parts_are_trimmed (expr : string) :
  Forall (fun p => p <> EmptyString /\ strip p = p) (_split_top_level expr) /\
  (contains (lower expr) "or" = false ->
   _split_top_level expr = if is_empty (strip expr) then [] else [strip expr]).
Proof.
  split; [apply split_parts_trimmed|].
  intro Hc. unfold contains, lower in Hc. rewrite chars_str in Hc.
  unfold _split_top_level.
  destruct (split_loop_no_or (String.length expr)
              (SplitState (chars expr) [] [] 0 false false)) as (_ & Hb & Ho).
  - cbn [todo]. now apply or_free_all.
  - cbn [todo]. now rewrite string_length_chars.
  - cbn [todo buf out] in Hb, Ho. rewrite Hb, Ho, app_nil_r.
    unfold flush. rewrite rev_involutive. fold (strip expr).
    cbn [rev app filter]. destruct (is_empty (strip expr)); reflexivity.
Qed.

End SplitWhole.

(** ** The bits of [_compile_flags] *)

Section FlagBits.
Import RegexExecutor.

Lemma flag_bits_lor (a b c d a' b' c' d' : bool) :
  Z.lor (flag_bits a b c d) (flag_bits a' b' c' d')
  = flag_bits (a || a') (b || b') (c || c') (d || d').
Proof. destruct a, b, c, d, a', b', c', d'; reflexivity. Qed.

Lemma flag_bit_bits (ch : ascii) :
  flag_bit ch = flag_bits (Ascii.eqb ch "i") (Ascii.eqb ch "m") (Ascii.eqb ch "s")
                  (Ascii.eqb ch "x").
Proof.
  unfold flag_bit.
  destruct (Ascii.eqb ch "i") eqn:Ei.
  - apply Ascii.eqb_eq in Ei. subst. reflexivity.
  - destruct (Ascii.eqb ch "m") eqn:Em.
    + apply Ascii.eqb_eq in Em. subst. reflexivity.
    + destruct (Ascii.eqb ch "s") eqn:Es.
      * apply Ascii.eqb_eq in Es. subst. reflexivity.
      * destruct (Ascii.eqb ch "x"); reflexivity.
Qed.

Lemma flag_fold_bits (l : list ascii) :
  flag_fold l 0 = flag_bits (existsb (fun ch => Ascii.eqb ch "i") l)
                    (existsb (fun ch => Ascii.eqb ch "m") l)
                    (existsb (fun ch => Ascii.eqb ch "s") l)
                    (existsb (fun ch => Ascii.eqb ch "x") l).
Proof.
  induction l as [|c l IH]; [reflexivity|].
  unfold flag_fold. cbn [fold_left]. fold (flag_fold l (Z.lor 0 (flag_bit c))).
  rewrite flag_fold_acc, IH. cbn [Z.lor]. rewrite flag_bit_bits, flag_bits_lor.
  reflexivity.
Qed.

(** X16.  The value of [_compile_flags], bit by bit: MULTILINE, DOTALL and
    VERBOSE are set exactly when [m], [s], [x] occur in the flags, and
    IGNORECASE when [i] occurs or when none of the four letters does; so
    a flag string such as ["m"] or ["ms"] turns case sensitivity on. *)
Theorem compile_flags_bits (flags : string) :
  let has c := existsb (fun ch => Ascii.eqb ch c) (chars flags) in
  _compile_flags flags =
  flag_bits (has "i"%char || negb (has "m"%char || has "s"%char || has "x"%char))
    (has "m"%char) (has "s"%char) (has "x"%char).
Proof.
  cbv zeta. unfold _compile_flags.
  destruct (is_empty flags) eqn:E.
  - apply is_empty_true in E. subst. reflexivity.
  - fold (flag_fold (chars flags) 0). rewrite flag_fold_bits.
    destruct (existsb (fun ch => Ascii.eqb ch "i") (chars flags)),
      (existsb (fun ch => Ascii.eqb ch "m") (chars flags)),
      (existsb (fun ch => Ascii.eqb ch "s") (chars flags)),
      (existsb (fun ch => Ascii.eqb ch "x") (chars flags)); reflexivity.
Qed.

End FlagBits.

(** ** Highlighting *)

Section HighlightFacts.
Import RegexExecutor.

Lemma count_char_append (c : ascii) (s t : string) :
  count_char c (s ++ t) = count_char c s + count_char c t.
Proof.
  unfold count_char. now rewrite chars_append, filter_app, length_app.
Qed.

Lemma count_char_concat (c : ascii) (l : list string) :
  count_char c (concat l) = list_sum (map (count_char c) l).
Proof.
  induction l as [|s l IH]; [reflexivity|].
  cbn [map].
  change (list_sum (count_char c s :: map (count_char c) l))
    with (count_char c s + list_sum (map (count_char c) l)).
  rewrite <- IH, <- count_char_append. reflexivity.
Qed.

Lemma list_sum_zero {A : Type} (f : A -> nat) (l : list A) :
  (forall x, f x = 0) -> list_sum (map f l) = 0.
Proof.
  intro H. induction l as [|x l IH]; [reflexivity|].
  cbn [map]. change (list_sum (f x :: map f l)) with (f x + list_sum (map f l)).
  now rewrite H, IH.
Qed.

Lemma html_escape_markup (s : string) (c : ascii) :
  In c ["<"; ">"; "'"; dquote]%char -> count_char c (html_escape s) = 0.
Proof.
  intro Hc. unfold html_escape. rewrite count_char_concat, map_map.
  apply list_sum_zero. intro x.
  destruct (Ascii.eqb x "&") eqn:E1;
    [destruct Hc as [<-|[<-|[<-|[<-|[]]]]]; reflexivity|].
  destruct (Ascii.eqb x "<") eqn:E2;
    [destruct Hc as [<-|[<-|[<-|[<-|[]]]]]; reflexivity|].
  destruct (Ascii.eqb x ">") eqn:E3;
    [destruct Hc as [<-|[<-|[<-|[<-|[]]]]]; reflexivity|].
  destruct (Ascii.eqb x dquote) eqn:E4;
    [destruct Hc as [<-|[<-|[<-|[<-|[]]]]]; reflexivity|].
  destruct (Ascii.eqb x "'") eqn:E5;
    [destruct Hc as [<-|[<-|[<-|[<-|[]]]]]; reflexivity|].
  unfold count_char. cbn [chars list_ascii_of_string filter].
  destruct Hc as [<-|[<-|[<-|[<-|[]]]]]; rewrite Ascii.eqb_sym;
    first [rewrite E2 | rewrite E3 | rewrite E5 | rewrite E4]; reflexivity.
Qed.

Lemma concat_cons (s : string) (l : list string) :
  concat (s :: l) = (s ++ concat l)%string.
Proof. reflexivity. Qed.

Lemma highlight_pieces_brackets (text : list ascii) (ms : list Re.rmatch) (last : nat)
    (c : ascii) :
  c = "<"%char \/ c = ">"%char ->
  count_char c (concat (highlight_pieces text last ms)) = 2 * List.length ms.
Proof.
  intro Hc. revert last. induction ms as [|mt ms IH]; intro last.
  - cbn [highlight_pieces List.length]. rewrite concat_cons, count_char_append.
    rewrite html_escape_markup by (destruct Hc as [-> | ->]; simpl; auto). reflexivity.
  - cbn [highlight_pieces List.length]. rewrite !concat_cons, !count_char_append, IH.
    rewrite !html_escape_markup by (destruct Hc as [-> | ->]; simpl; auto).
    destruct Hc as [-> | ->]; cbn; lia.
Qed.

Lemma highlight_pieces_quotes (text : list ascii) (ms : list Re.rmatch) (last : nat)
    (c : ascii) :
  c = "'"%char \/ c = dquote ->
  count_char c (concat (highlight_pieces text last ms)) = 0.
Proof.
  intro Hc. revert last. induction ms as [|mt ms IH]; intro last.
  - cbn [highlight_pieces]. rewrite concat_cons, count_char_append.
    rewrite html_escape_markup by (destruct Hc as [-> | ->]; simpl; auto). reflexivity.
  - cbn [highlight_pieces]. rewrite !concat_cons, !count_char_append, IH.
    rewrite !html_escape_markup by (destruct Hc as [-> | ->]; simpl; auto).
    destruct Hc as [-> | ->]; reflexivity.
Qed.

(** X17.  The mark-up of [_highlight_html].  The text it returns holds
    no quote and no angle bracket other than those of its [<mark>] and
    [</mark>] tags: two [<] and two [>] for each match it counts.  For a
    cell that holds a text or a number, the count is the number of matches
    of the pattern in the text of the cell, and a cell without match
    gives its escaped text; a missing cell ([None]) gives the empty text
    and the count 0. *)
Theorem highlight_html_markup {Sc : Scalars} (text : option cell) (rx : Re.regex) :
  let (html, n) := _highlight_html text rx in
  count_char "<" html = 2 * n /\ count_char ">" html = 2 * n /\
  count_char "'" html = 0 /\ count_char dquote html = 0 /\
  match text with
  | None => html = EmptyString /\ n = 0
  | Some x =>
      forall t, text_of x = Some t ->
        n = Re.count rx t /\ (n = 0 -> html = html_escape t)
  end.
Proof.
  unfold _highlight_html.
  assert (Hmain : forall t : string,
            count_char "<" (concat (highlight_pieces (chars t) 0 (Re.finditer rx t)))
              = 2 * List.length (Re.finditer rx t) /\
            count_char ">" (concat (highlight_pieces (chars t) 0 (Re.finditer rx t)))
              = 2 * List.length (Re.finditer rx t) /\
            count_char "'" (concat (highlight_pieces (chars t) 0 (Re.finditer rx t))) = 0 /\
            count_char dquote (concat (highlight_pieces (chars t) 0 (Re.finditer rx t))) = 0).
  { intro t. rewrite !highlight_pieces_brackets by auto.
    rewrite !highlight_pieces_quotes by auto. auto. }
  destruct text as [[|s|v]|].
  - split; [reflexivity|]. split; [reflexivity|]. split; [reflexivity|].
    split; [reflexivity|]. intros t Ht. discriminate Ht.
  - cbn [text_of]. destruct (Hmain s) as (H1 & H2 & H3 & H4).
    split; [exact H1|]. split; [exact H2|]. split; [exact H3|]. split; [exact H4|].
    intros t Ht. injection Ht as <-. split; [reflexivity|].
    intro Hn. destruct (Re.finditer rx s); [|discriminate].
    cbn [highlight_pieces skipn]. rewrite concat_cons, str_chars.
    apply string_append_empty.
  - cbn [text_of]. destruct (Hmain (scalar_str v)) as (H1 & H2 & H3 & H4).
    split; [exact H1|]. split; [exact H2|]. split; [exact H3|]. split; [exact H4|].
    intros t Ht. injection Ht as <-. split; [reflexivity|].
    intro Hn. destruct (Re.finditer rx (scalar_str v)); [|discriminate].
    cbn [highlight_pieces skipn]. rewrite concat_cons, str_chars.
    apply string_append_empty.
  - repeat split; reflexivity.
Qed.

(** ** The columns of the display regex *)

Lemma dedup_spec (l seen : list string) :
  NoDup (dedup seen l) /\
  forall c, In c (dedup seen l) <-> In c l /\ ~ In c seen.
Proof.
  revert seen. induction l as [|x l IH]; intro seen.
  - split; [constructor|]. simpl. tauto.
  - cbn [dedup]. destruct (mem x seen) eqn:E.
    + destruct (IH seen) as [Hnd Hin]. split; [exact Hnd|].
      intro c. rewrite Hin. simpl. split; [tauto|].
      intros [[<-|H] Hn]; [|tauto]. exfalso. apply Hn.
      unfold mem in E. apply existsb_exists in E. destruct E as (y & Hy & Ey).
      apply String.eqb_eq in Ey. now subst.
    + destruct (IH (x :: seen)) as [Hnd Hin]. split.
      * constructor; [|exact Hnd]. rewrite Hin. simpl. tauto.
      * intro c. simpl. rewrite Hin. simpl. split.
        -- intros [<-|[H1 H2]]; [|tauto]. split; [now left|].
           intro Hs. assert (mem x seen = true); [|congruence].
           unfold mem. apply existsb_exists. exists x.
           split; [exact Hs | apply String.eqb_refl].
        -- intros [[<-|H] Hn]; [now left|]. 
           destruct (string_dec x c) as [->|Hne]; [now left|]. right. tauto.
Qed.

(** X18.  The columns [_display_regex_and_columns_from_row_filter] returns
    are pairwise distinct; a missing or empty filter gives no regex and no
    column; and a derived regex is a non-capturing group, [(?:] ... [)],
    of at least one token. *)
Theorem display_columns_are_distinct (row_filter : option string) :
  NoDup (snd (_display_regex_and_columns_from_row_filter row_filter)) /\
  (PlanV2.or_empty row_filter = EmptyString ->
   _display_regex_and_columns_from_row_filter row_filter = (None, [])) /\
  (forall rx, fst (_display_regex_and_columns_from_row_filter row_filter) = Some rx ->
     exists tokens, tokens <> [] /\ rx = "(?:" ++ join "|" tokens ++ ")").
Proof.
  unfold _display_regex_and_columns_from_row_filter.
  destruct row_filter as [q|]; cbn [PlanV2.or_empty].
  2:{ split; [constructor|]. split; [reflexivity | discriminate]. }
  destruct (is_empty q) eqn:E.
  { split; [constructor|]. split; [reflexivity | discriminate]. }
  cbv zeta.
  match goal with |- context [dedup [] ?l] => pose proof (dedup_spec l []) as [Hnd _] end.
  destruct (flat_map str_op_token _ ++ flat_map equality_token _)%list as [|t ts] eqn:Et.
  - split; [exact Hnd|]. split; [intros ->; discriminate | discriminate].
  - split; [exact Hnd|]. split; [intros ->; discriminate|].
    intros rx H. inversion H. exists (t :: ts). split; [discriminate | reflexivity].
Qed.

End HighlightFacts.

(** ** [sanitize_for_json] *)

Section SanitizeFacts.
Import Views.
Context {F : PyFloat}.

(** Induction on an object and the objects inside it. *)
Lemma pyobj_nested_ind (P : pyobj -> Prop) :
  P PNone -> (forall b, P (PBool b)) -> (forall z, P (PInt z)) ->
  (forall x, P (PFloat x)) -> (forall s, P (PStr s)) -> (forall s, P (PBytes s)) ->
  (forall l, Forall P l -> P (PList l)) ->
  (forall l, Forall P l -> P (PTuple l)) ->
  (forall items, Forall (fun kv => P (snd kv)) items -> P (PDict items)) ->
  (forall r, P (POther r)) ->
  forall obj, P obj.
Proof.
  intros HN HB HI HF HS HBy HL HT HD HO.
  fix IH 1. intros [ | b | z | x | s | s | l | l | items | r ].
  - exact HN.
  - apply HB.
  - apply HI.
  - apply HF.
  - apply HS.
  - apply HBy.
  - apply HL. induction l as [|o l IHl]; constructor; [apply IH | exact IHl].
  - apply HT. induction l as [|o l IHl]; constructor; [apply IH | exact IHl].
  - apply HD. induction items as [|[k v] items IHl]; constructor; [apply IH | exact IHl].
  - apply HO.
Qed.

Lemma map_fixed {A : Type} (f : A -> A) (l : list A) :
  Forall (fun x => f x = x) l -> map f l = l.
Proof.
  induction 1 as [|x l Hx _ IH]; [reflexivity|]. cbn [map]. now rewrite Hx, IH.
Qed.

Lemma sanitize_safe (obj : pyobj) : json_safe (sanitize_for_json obj) = true.
Proof.
  induction obj as [ | b | z | x | s | s | l IHl | l IHl | items IHl | r ]
    using pyobj_nested_ind; try reflexivity.
  - cbn [sanitize_for_json]. destruct (isnan x || isinf x) eqn:E; [reflexivity|].
    cbn [json_safe]. now rewrite E.
  - cbn [sanitize_for_json json_safe]. rewrite forallb_forall. intros o Ho.
    apply in_map_iff in Ho. destruct Ho as (o' & <- & Ho').
    rewrite Forall_forall in IHl. now apply IHl.
  - cbn [sanitize_for_json json_safe]. rewrite forallb_forall. intros o Ho.
    apply in_map_iff in Ho. destruct Ho as (o' & <- & Ho').
    rewrite Forall_forall in IHl. now apply IHl.
  - cbn [sanitize_for_json json_safe]. rewrite forallb_forall. intros kv Hkv.
    apply in_map_iff in Hkv. destruct Hkv as ([k v] & <- & Hkv').
    rewrite Forall_forall in IHl. exact (IHl _ Hkv').
Qed.

Lemma sanitize_fixed (obj : pyobj) :
  json_safe obj = true -> sanitize_for_json obj = obj.
Proof.
  induction obj as [ | b | z | x | s | s | l IHl | l IHl | items IHl | r ]
    using pyobj_nested_ind; try reflexivity.
  - cbn [sanitize_for_json json_safe]. intro H.
    destruct (isnan x || isinf x); [discriminate | reflexivity].
  - cbn [sanitize_for_json json_safe]. intro H. f_equal. apply map_fixed.
    rewrite forallb_forall in H. rewrite Forall_forall in IHl |- *.
    intros o Ho. apply IHl; [exact Ho | now apply H].
  - discriminate.
  - cbn [sanitize_for_json json_safe]. intro H. f_equal. apply map_fixed.
    rewrite forallb_forall in H. rewrite Forall_forall in IHl |- *.
    intros [k v] Hkv. f_equal. apply (IHl _ Hkv). exact (H _ Hkv).
Qed.

Lemma sanitize_keys (obj : pyobj) :
  dict_keys (sanitize_for_json obj) = dict_keys obj.
Proof.
  induction obj as [ | b | z | x | s | s | l IHl | l IHl | items IHl | r ]
    using pyobj_nested_ind; try reflexivity.
  - cbn [sanitize_for_json]. destruct (isnan x || isinf x); reflexivity.
  - cbn [sanitize_for_json dict_keys].
    induction IHl as [|o l Ho _ IH]; [reflexivity|].
    cbn [map flat_map]. now rewrite Ho, IH.
  - cbn [sanitize_for_json dict_keys].
    induction IHl as [|o l Ho _ IH]; [reflexivity|].
    cbn [map flat_map]. now rewrite Ho, IH.
  - cbn [sanitize_for_json dict_keys].
    induction IHl as [|[k v] l Ho _ IH]; [reflexivity|].
    cbn [map flat_map fst snd] in *. now rewrite Ho, IH.
Qed.

(** X19.  [sanitize_for_json] returns an object in which no value is a NaN
    or an infinite float and every sequence is a list ([json_safe]); an
    object that is already so is returned unchanged, hence the function is
    idempotent; and the keys of the dicts are kept as they are, at every
    depth (a float key is not sanitized). *)
Theorem sanitize_for_json_safe (obj : pyobj) :
  json_safe (sanitize_for_json obj) = true /\
  (json_safe obj = true -> sanitize_for_json obj = obj) /\
  sanitize_for_json (sanitize_for_json obj) = sanitize_for_json obj /\
  dict_keys (sanitize_for_json obj) = dict_keys obj.
Proof.
  split; [apply sanitize_safe|]. split; [apply sanitize_fixed|].
  split; [apply sanitize_fixed, sanitize_safe | apply sanitize_keys].
Qed.

End SanitizeFacts.

(** ** [guess_dayfirst] and [normalize_cell_as_whole] *)

Section DayFirstFacts.
Import DateNormalizer.

(** The loop of [guess_dayfirst]: the counters only grow, and a vote
    comes from a sample with an ambiguous date and a day hint. *)
Lemma guess_fold_votes (l : list string) (h v h' v' : nat) :
  fold_left guess_step l (h, v) = (h', v') ->
  h <= h' /\ v <= v' /\
  (v < v' ->
   exists s mt hint, In s l /\ Re.search rx_ambiguous s = Some mt /\
     group_int mt 1 <= 12 /\ group_int mt 2 <= 12 /\
     Re.search rx_day_hint s = Some hint).
Proof.
  revert h v. induction l as [|s l IH]; intros h v H.
  - cbn [fold_left] in H. injection H as <- <-. repeat split; lia.
  - cbn [fold_left] in H.
    destruct (guess_step (h, v) s) as [h1 v1] eqn:Es.
    destruct (IH _ _ H) as (Hh & Hv & Hex).
    unfold guess_step in Es.
    destruct (Re.search rx_ambiguous s) as [mt|] eqn:Ea.
    2:{ injection Es as <- <-. split; [exact Hh|]. split; [exact Hv|].
        intro Hlt. destruct (Hex Hlt) as (s' & mt' & hint & Hin & Hrest).
        exists s', mt', hint. split; [now right | exact Hrest]. }
    destruct ((group_int mt 1 <=? 12) && (group_int mt 2 <=? 12)) eqn:E12.
    2:{ injection Es as <- <-. split; [exact Hh|]. split; [exact Hv|].
        intro Hlt. destruct (Hex Hlt) as (s' & mt' & hint & Hin & Hrest).
        exists s', mt', hint. split; [now right | exact Hrest]. }
    apply andb_true_iff in E12. destruct E12 as [E1 E2].
    apply Nat.leb_le in E1. apply Nat.leb_le in E2.
    destruct (Re.search rx_day_hint s) as [hint|] eqn:Eh.
    + injection Es as <- <-. split; [lia|]. split; [lia|].
      intros _. exists s, mt, hint. split; [now left|]. auto.
    + injection Es as <- <-. split; [lia|]. split; [exact Hv|].
      intro Hlt. destruct (Hex Hlt) as (s' & mt' & hint & Hin & Hrest).
      exists s', mt', hint. split; [now right | exact Hrest].
Qed.

(** X20.  [guess_dayfirst] answers [True] or [None], never [False]; it
    reads the first 200 samples only; and it answers [True] only when one
    of them holds a date whose first two numbers are both at most 12
    together with a number from 13 to 31 standing alone. *)
Theorem guess_dayfirst_answers (samples : list string) :
  (guess_dayfirst samples = None \/ guess_dayfirst samples = Some true) /\
  guess_dayfirst (firstn 200 samples) = guess_dayfirst samples /\
  (guess_dayfirst samples = Some true ->
   exists s mt hint, In s (firstn 200 samples) /\
     Re.search rx_ambiguous s = Some mt /\
     group_int mt 1 <= 12 /\ group_int mt 2 <= 12 /\
     Re.search rx_day_hint s = Some hint).
Proof.
  split; [|split].
  - unfold guess_dayfirst.
    destruct (fold_left guess_step (firstn 200 samples) (0, 0)) as [h v].
    destruct (h =? 0); [now left|].
    destruct (Nat.max 1 (h / 3) <=? v); [now right | now left].
  - unfold guess_dayfirst. now rewrite firstn_firstn, Nat.min_id.
  - unfold guess_dayfirst.
    destruct (fold_left guess_step (firstn 200 samples) (0, 0)) as [h v] eqn:E.
    destruct (h =? 0); [discriminate|].
    destruct (Nat.max 1 (h / 3) <=? v) eqn:Ev; [|discriminate].
    intros _. apply Nat.leb_le in Ev.
    destruct (guess_fold_votes _ _ _ _ _ E) as (_ & _ & Hex).
    apply Hex. lia.
Qed.

(** X21.  [normalize_cell_as_whole] handles every value as its text: the
    result is that of [_parse_one] on [str(value)] (on the empty text for
    [None]), formatted with count 1 when a date is read and the text
    itself with count 0 otherwise.  A number is never read as an Excel
    serial date, whatever its magnitude, and the only exception that
    leaves the function is the [OverflowError] of [float(value)] for an
    integer that rounds beyond the largest double, that is from
    [2^1024 - 2^970] on in absolute value. *)
Theorem normalize_cell_reads_text {L : DateLibs} (value : pyvalue)
    (out_fmt : string) (dayfirst : option bool) :
  let s := match value with VNone => EmptyString | _ => py_str value end in
  let textual :=
    match _parse_one s dayfirst with
    | Some dt => Ok (strftime dt (_to_strftime out_fmt), 1)
    | None => Ok (s, 0)
    end in
  normalize_cell_as_whole value out_fmt dayfirst =
  match value with
  | VInt z =>
      if (Z.abs z <? 2 ^ 1024 - 2 ^ 970)%Z then textual else Raise OverflowError
  | _ => textual
  end.
Proof.
  assert (Hserial : forall (n : float) (t : result (string * nat)),
    (if float_le (float_of_Z 10000) n && float_le n (float_of_Z 80000)
     then match mk_date 1899 12 30 with
          | Raise e => Raise e
          | Ok base =>
              try_except
                (_ <- global_name "timedelta" ;;
                 let (days, micros) := float_timedelta n in
                 dt <- add_timedelta base days micros ;;
                 Ok (strftime dt (_to_strftime out_fmt), 1)) t
          end
     else t) = t).
  { intros n t. destruct (_ && _); [|reflexivity].
    change (mk_date 1899 12 30) with (Ok (DateTime 1899 12 30 0 0 0 0)).
    cbv beta iota. rewrite timedelta_is_unbound. reflexivity. }
  cbv zeta. unfold normalize_cell_as_whole.
  destruct value as [ | b | z | x | t ].
  - destruct (_parse_one _ _); reflexivity.
  - destruct (_parse_one _ _); reflexivity.
  - unfold to_float. destruct (Z.abs z <? 2 ^ 1024 - 2 ^ 970)%Z; [|reflexivity].
    cbn [bind]. apply Hserial.
  - apply Hserial.
  - destruct (_parse_one _ _); reflexivity.
Qed.

End DayFirstFacts.

(** ** Compact dates *)

Section CompactDates.
Import DateNormalizer.

Lemma digit_not_lit (x c : ascii) :
  is_digit c = true -> is_digit (lower_char x) = false ->
  Re.char_eq true x c = false.
Proof.
  intros Hc Hx. unfold Re.char_eq.
  assert (Hl : lower_char c = c).
  { unfold lower_char. destruct (is_upper c) eqn:E; [|reflexivity].
    exfalso. revert Hc E.
    destruct c as [[] [] [] [] [] [] [] []]; vm_compute; congruence. }
  rewrite Hl. apply Ascii.eqb_neq. intro E. rewrite E in Hx. congruence.
Qed.

Lemma digit_is_word (c : ascii) : is_digit c = true -> is_word c = true.
Proof. unfold is_word. intros ->. now rewrite orb_true_r. Qed.

Ltac digit_facts :=
  repeat match goal with
         | H : Forall _ (_ :: _) |- _ => inversion H; clear H; subst
         | H : Forall _ [] |- _ => clear H
         end.

Ltac digit_step :=
  first [ rewrite digit_not_lit by (assumption || reflexivity)
        | match goal with
          | H : is_digit ?c = true |- context [is_digit ?c] => rewrite H
          end ];
  cbn -[is_digit is_word Re.char_eq Re.at_matches].

(** [_ORDINAL_RX] finds nothing in a text of digits. *)
Lemma ordinal_no_match_here (b r : list ascii) (ma : bool) :
  Forall (fun c => is_digit c = true) r ->
  Re.match_here _ORDINAL_RX (Re.MState b r []) ma (fun _ => true) = None.
Proof.
  intro Hr. unfold Re.match_here.
  cbn -[is_digit is_word Re.char_eq Re.at_matches].
  destruct (Re.at_matches _ _ _); [|reflexivity].
  destruct r as [|c1 [|c2 [|c3 r3]]]; digit_facts; try reflexivity;
    repeat digit_step; try reflexivity.
  destruct (_ <=? _); reflexivity.
Qed.

Lemma ordinal_search_none (r b : list ascii) (ma : bool) :
  Forall (fun c => is_digit c = true) r ->
  Re.search_from _ORDINAL_RX b r ma = None.
Proof.
  revert b ma. induction r as [|c r IH]; intros b ma Hr.
  - cbn [Re.search_from]. now rewrite ordinal_no_match_here.
  - cbn [Re.search_from]. rewrite ordinal_no_match_here by exact Hr.
    apply IH. now inversion Hr.
Qed.

Lemma ordinal_sub_digits (s : string) :
  Forall (fun c => is_digit c = true) (chars s) ->
  Re.sub _ORDINAL_RX "\1" s = Some s.
Proof.
  intro Hs. unfold Re.sub.
  destruct (Re.parse_template _ _ _) as [items|] eqn:E;
    [|vm_compute in E; discriminate].
  f_equal. apply sub_fn_no_match. unfold Re.finditer.
  replace (2 * String.length s + 2) with (S (2 * String.length s + 1)) by lia.
  cbn [Re.finditer_from]. now rewrite ordinal_search_none.
Qed.

Lemma replace_chars_absent (fuel : nat) (o : ascii) (old new l : list ascii) :
  Forall (fun c => is_digit c = true) l -> is_digit o = false ->
  replace_chars fuel (o :: old) new l = l.
Proof.
  intros Hl Ho. revert l Hl. induction fuel as [|f IH]; intros l Hl; [reflexivity|].
  destruct l as [|c tl]; [reflexivity|]. inversion Hl; subst.
  cbn [replace_chars starts_with].
  assert (E : Ascii.eqb o c = false).
  { apply Ascii.eqb_neq. intros ->. congruence. }
  rewrite E. cbn [andb]. f_equal. now apply IH.
Qed.

Lemma replace_digits (s old new : string) (o : ascii) (old' : string) :
  Forall (fun c => is_digit c = true) (chars s) ->
  old = String o old' -> is_digit o = false ->
  replace s old new = s.
Proof.
  intros Hs -> Ho. unfold replace.
  change (chars (String o old')) with (o :: chars old').
  rewrite replace_chars_absent by assumption. apply str_chars.
Qed.

(** [\d{8}] matches the whole of a text exactly when it is eight digits. *)
Lemma fullmatch_8digits_inv (s : string) (mt : Re.rmatch) :
  Re.fullmatch rx_8digits s = Some mt ->
  exists c1 c2 c3 c4 c5 c6 c7 c8,
    chars s = [c1; c2; c3; c4; c5; c6; c7; c8] /\
    Forall (fun c => is_digit c = true) (chars s).
Proof.
  unfold Re.fullmatch, Re.start_state, Re.match_here.
  destruct (chars s) as [|c1 [|c2 [|c3 [|c4 [|c5 [|c6 [|c7 [|c8 [|c9 r]]]]]]]]];
    cbn -[is_digit is_word Re.char_eq Re.at_matches];
    repeat match goal with
           | |- context [is_digit ?c] => destruct (is_digit c) eqn:?
           end;
    cbn -[is_digit]; try discriminate.
  intros _. exists c1, c2, c3, c4, c5, c6, c7, c8.
  split; [reflexivity|]. repeat constructor; assumption.
Qed.

Lemma fullmatch_8digits (s : string) (c1 c2 c3 c4 c5 c6 c7 c8 : ascii) :
  chars s = [c1; c2; c3; c4; c5; c6; c7; c8] ->
  Forall (fun c => is_digit c = true) (chars s) ->
  exists mt, Re.fullmatch rx_8digits s = Some mt.
Proof.
  intros Hs Hd. rewrite Hs in Hd.
  unfold Re.fullmatch, Re.start_state, Re.match_here. rewrite Hs.
  digit_facts. cbn -[is_digit is_word Re.char_eq Re.at_matches].
  repeat match goal with
         | H : is_digit ?c = true |- context [is_digit ?c] => rewrite H
         end.
  cbn. eexists. reflexivity.
Qed.

(** What [_compact8_to_iso] returns on eight digits. *)
Lemma compact8_of_digits (s : string) (l1 l2 l3 : list ascii) :
  chars s = (l1 ++ l2 ++ l3)%list ->
  List.length l1 = 4 -> List.length l2 = 2 -> List.length l3 = 2 ->
  Forall (fun c => is_digit c = true) (chars s) ->
  _compact8_to_iso s =
  match mk_date (Z.of_nat (int_of_digits l1)) (Z.of_nat (int_of_digits l2))
          (Z.of_nat (int_of_digits l3)) with
  | Ok dt => Some dt
  | Raise _ => None
  end.
Proof.
  intros Hs H1 H2 H3 Hd.
  destruct l1 as [|a1 [|a2 [|a3 [|a4 [|]]]]]; try discriminate.
  destruct l2 as [|b1 [|b2 [|]]]; try discriminate.
  destruct l3 as [|d1 [|d2 [|]]]; try discriminate.
  cbn [app] in Hs.
  destruct (fullmatch_8digits s _ _ _ _ _ _ _ _ Hs Hd) as [mt Hmt].
  unfold _compact8_to_iso, substring. rewrite Hmt, Hs.
  cbn [Nat.sub skipn firstn]. now rewrite !chars_str.
Qed.

Lemma compact8_digits (s : string) (dt : datetime) :
  _compact8_to_iso s = Some dt ->
  Forall (fun c => is_digit c = true) (chars s).
Proof.
  unfold _compact8_to_iso.
  destruct (Re.fullmatch rx_8digits s) as [mt|] eqn:E; [|discriminate].
  intros _. now destruct (fullmatch_8digits_inv s mt E) as (? & ? & ? & ? & ? & ? & ? & ? & _ & H).
Qed.

Lemma mk_date_inv (y m d : Z) (dt : datetime) :
  mk_date y m d = Ok dt ->
  dt = DateTime y m d 0 0 0 0 /\
  (1 <= y <= 9999)%Z /\ (1 <= m <= 12)%Z /\ (1 <= d <= days_in_month y m)%Z.
Proof.
  unfold mk_date.
  destruct (_ && _) eqn:E; [|discriminate].
  intro H. injection H as <-. split; [reflexivity|].
  repeat (apply andb_true_iff in E; destruct E as [E ?]). lia.
Qed.

Lemma digits_ok_in (w lo n : nat) (z : Z) :
  forallb (fun k => digits_ok w (Z.of_nat k)) (seq lo n) = true ->
  (Z.of_nat lo <= z < Z.of_nat (lo + n))%Z -> digits_ok w z = true.
Proof.
  intros Hall Hz. rewrite forallb_forall in Hall.
  rewrite <- (Z2Nat.id z) by lia. apply Hall. apply in_seq. lia.
Qed.

Lemma digits_of_last (f n : nat) (acc : list ascii) :
  n < 10 -> digits_of (S f) n acc = ascii_of_nat (48 + n mod 10) :: acc.
Proof.
  intro H. cbn [digits_of]. apply Nat.ltb_lt in H. now rewrite H.
Qed.

Lemma digits_of_more (f n : nat) (acc : list ascii) :
  10 <= n ->
  digits_of (S f) n acc = digits_of f (n / 10) (ascii_of_nat (48 + n mod 10) :: acc).
Proof.
  intro H. cbn [digits_of]. apply Nat.ltb_ge in H. now rewrite H.
Qed.

Lemma digit_char (k : nat) :
  k < 10 ->
  is_digit (ascii_of_nat (48 + k)) = true /\ code (ascii_of_nat (48 + k)) - 48 = k.
Proof.
  intro H. do 10 (destruct k as [|k]; [split; reflexivity|]). lia.
Qed.

(** The four digits of a year from 1000 on. *)
Lemma digits_ok_year (y : Z) : (1000 <= y <= 9999)%Z -> digits_ok 4 y = true.
Proof.
  intro Hy. unfold digits_ok, pad, str_of_Z, str_of_nat.
  assert (E : (y <? 0)%Z = false) by (apply Z.ltb_ge; lia). rewrite E. clear E.
  remember (Z.to_nat y) as n eqn:En.
  assert (Hn : (1000 <= Z.of_nat n <= 9999)%Z) by lia.
  assert (Ey : y = Z.of_nat n) by lia.
  pose proof (Nat.div_mod_eq n 10) as D0.
  pose proof (Nat.mod_upper_bound n 10 ltac:(lia)) as B0.
  pose proof (Nat.div_mod_eq (n / 10) 10) as D1.
  pose proof (Nat.mod_upper_bound (n / 10) 10 ltac:(lia)) as B1.
  pose proof (Nat.div_mod_eq (n / 10 / 10) 10) as D2.
  pose proof (Nat.mod_upper_bound (n / 10 / 10) 10 ltac:(lia)) as B2.
  pose proof (Nat.mod_upper_bound (n / 10 / 10 / 10) 10 ltac:(lia)) as B3.
  assert (H3 : n / 10 / 10 / 10 < 10) by lia.
  assert (M3 : (n / 10 / 10 / 10) mod 10 = n / 10 / 10 / 10) by now apply Nat.mod_small.
  assert (Hd : digits_of (S n) n [] =
               [ascii_of_nat (48 + (n / 10 / 10 / 10) mod 10);
                ascii_of_nat (48 + (n / 10 / 10) mod 10);
                ascii_of_nat (48 + (n / 10) mod 10);
                ascii_of_nat (48 + n mod 10)]).
  { replace (S n) with (S (S (S (S (n - 3))))) by lia.
    rewrite digits_of_more by lia. rewrite digits_of_more by lia.
    rewrite digits_of_more by lia. now rewrite digits_of_last by lia. }
  rewrite Hd.
  destruct (digit_char _ B0) as [I0 C0]. destruct (digit_char _ B1) as [I1 C1].
  destruct (digit_char _ B2) as [I2 C2]. destruct (digit_char _ B3) as [I3 C3].
  cbn [str string_of_list_ascii String.length Nat.sub repeat String.append Nat.eqb
       chars list_ascii_of_string forallb andb].
  rewrite I0, I1, I2, I3. cbn [andb].
  apply Z.eqb_eq. unfold int_of_digits. cbn [fold_left].
  rewrite C0, C1, C2, C3. lia.
Qed.

Lemma digits_ok_chars (w : nat) (z : Z) :
  digits_ok w z = true ->
  List.length (chars (pad w z)) = w /\
  Forall (fun c => is_digit c = true) (chars (pad w z)) /\
  Z.of_nat (int_of_digits (chars (pad w z))) = z.
Proof.
  unfold digits_ok. intro H.
  apply andb_true_iff in H. destruct H as [H H3].
  apply andb_true_iff in H. destruct H as [H1 H2].
  apply Nat.eqb_eq in H1. apply Z.eqb_eq in H3.
  split; [now rewrite string_length_chars|]. split; [|exact H3].
  apply Forall_forall. now apply forallb_forall.
Qed.

(** X22.  Writing a date as [YYYYMMDD] and reading it with
    [_compact8_to_iso] gives the date back, for every calendar date from
    the year 1000 on. *)
Theorem compact8_round_trip (y m d : Z) (dt : datetime) :
  (1000 <= y)%Z -> mk_date y m d = Ok dt ->
  _compact8_to_iso (strftime dt (_to_strftime "YYYYMMDD")) = Some dt.
Proof.
  intros Hy Hdt. destruct (mk_date_inv _ _ _ _ Hdt) as (-> & Hy' & Hm & Hd).
  assert (Hd31 : (d <= 31)%Z).
  { unfold days_in_month in Hd.
    destruct (m =? 2)%Z; [destruct (is_leap y)|destruct (_ || _)]; lia. }
  assert (Ky : digits_ok 4 y = true).
  { apply digits_ok_year. lia. }
  assert (Km : digits_ok 2 m = true).
  { apply (digits_ok_in 2 1 12); [vm_compute; reflexivity | lia]. }
  assert (Kd : digits_ok 2 d = true).
  { apply (digits_ok_in 2 1 31); [vm_compute; reflexivity | lia]. }
  destruct (digits_ok_chars _ _ Ky) as (Ly & Dy & Iy).
  destruct (digits_ok_chars _ _ Km) as (Lm & Dm & Im).
  destruct (digits_ok_chars _ _ Kd) as (Ld & Dd & Id).
  change (_to_strftime "YYYYMMDD") with "%Y%m%d".
  assert (Hs : chars (strftime (DateTime y m d 0 0 0 0) "%Y%m%d") =
               (chars (pad 4 y) ++ chars (pad 2 m) ++ chars (pad 2 d))%list).
  { unfold strftime. cbn [chars list_ascii_of_string strftime_chars Ascii.eqb Bool.eqb
                           year month day].
    rewrite !chars_append. cbn [chars list_ascii_of_string]. now rewrite app_nil_r. }
  rewrite (compact8_of_digits _ _ _ _ Hs Ly Lm Ld).
  - now rewrite Iy, Im, Id, Hdt.
  - rewrite Hs. repeat (apply Forall_app; split); assumption.
Qed.

Lemma compact8_round_trip_witness :
  exists dt, mk_date 2024 5 1 = Ok dt /\
    strftime dt (_to_strftime "YYYYMMDD") = "20240501" /\
    _compact8_to_iso (strftime dt (_to_strftime "YYYYMMDD")) = Some dt.
Proof.
  exists (DateTime 2024 5 1 0 0 0 0).
  split; [reflexivity|]. split; [vm_compute; reflexivity|].
  apply (compact8_round_trip 2024 5 1); [lia | reflexivity].
Defined.

(** X23.  A text [_compact8_to_iso] reads as a date is read as that date
    by [_parse_one], whatever date parsers are installed and whatever
    [dayfirst] is, and [normalize_cell_as_whole] returns the date in the
    output format, with count 1. *)
Theorem compact_dates_bypass_parsers {L : DateLibs} (s out_fmt : string)
    (dayfirst : option bool) (dt : datetime) :
  _compact8_to_iso s = Some dt ->
  _parse_one s dayfirst = Some dt /\
  normalize_cell_as_whole (VStr s) out_fmt dayfirst =
    Ok (strftime dt (_to_strftime out_fmt), 1).
Proof.
  intro H. pose proof (compact8_digits s dt H) as Hd.
  assert (Hp : _parse_one s dayfirst = Some dt).
  { unfold _parse_one. rewrite (ordinal_sub_digits s Hd).
    rewrite (replace_digits s cjk_year "-" _ _ Hd eq_refl eq_refl).
    rewrite (replace_digits s cjk_month "-" _ _ Hd eq_refl eq_refl).
    rewrite (replace_digits s cjk_day EmptyString _ _ Hd eq_refl eq_refl).
    cbv zeta. now rewrite H. }
  split; [exact Hp|].
  unfold normalize_cell_as_whole. cbn [py_str]. now rewrite Hp.
Qed.

Lemma compact_dates_bypass_parsers_witness :
  _compact8_to_iso "20240501" = Some (DateTime 2024 5 1 0 0 0 0) /\
  forall (L : DateLibs) (dayfirst : option bool),
    _parse_one "20240501" dayfirst = Some (DateTime 2024 5 1 0 0 0 0) /\
    normalize_cell_as_whole (VStr "20240501") "DD/MM/YYYY" dayfirst =
      Ok (strftime (DateTime 2024 5 1 0 0 0 0) (_to_strftime "DD/MM/YYYY"), 1).
Proof.
  split; [vm_compute; reflexivity|]. intros L dayfirst.
  apply (compact_dates_bypass_parsers "20240501" "DD/MM/YYYY" dayfirst).
  vm_compute. reflexivity.
Defined.

End CompactDates.

(** ** The clause parser *)

Section ClauseFacts.
Import RegexExecutor.
Context {Sc : Scalars}.

Lemma mask_and_nth (a b : mask) (i : nat) :
  nth_error (mask_and a b) i = Some true <->
  nth_error a i = Some true /\ nth_error b i = Some true.
Proof.
  unfold mask_and. revert b i. induction a as [|x a IH]; intros b i.
  - cbn [combine map]. split.
    + destruct i; discriminate.
    + intros [H _]. destruct i; discriminate.
  - destruct b as [|y b].
    + cbn [combine map]. split.
      * destruct i; discriminate.
      * intros [_ H]. destruct i; discriminate.
    + cbn [combine map fst snd]. destruct i as [|i]; cbn [nth_error].
      * destruct x, y; cbn [andb]; split; try discriminate; try tauto;
          intros [? ?]; discriminate.
      * apply IH.
Qed.

(** A loop that ANDs the mask of every clause it recognizes. *)
Lemma fold_and_spec {A : Type} (step : option mask -> A -> option mask)
    (l : list A) :
  (forall acc x,
      step acc x = match step None x with
                   | Some cur => Some (_and acc cur)
                   | None => acc
                   end) ->
  forall acc,
    match fold_left step l acc with
    | None => acc = None /\ forall x, In x l -> step None x = None
    | Some mk =>
        forall i,
          nth_error mk i = Some true <->
          (forall a, acc = Some a -> nth_error a i = Some true) /\
          (forall x cur, In x l -> step None x = Some cur ->
                         nth_error cur i = Some true)
    end.
Proof.
  intro Hstep. induction l as [|x l IH]; intro acc.
  - cbn [fold_left]. destruct acc as [a|].
    + intro i. split.
      * intro H. split; [now intros a' [= <-] | intros ? ? []].
      * intros [H _]. now apply H.
    + split; [reflexivity | intros ? []].
  - cbn [fold_left]. specialize (IH (step acc x)).
    destruct (fold_left step l (step acc x)) as [mk|].
    + intro i. rewrite (IH i). rewrite Hstep. clear IH.
      destruct (step None x) as [cur|] eqn:Ex.
      * split.
        -- intros [Ha Hl]. specialize (Ha _ eq_refl).
           destruct acc as [a|]; cbn [_and] in Ha.
           ++ apply mask_and_nth in Ha. destruct Ha as [Ha Hc]. split.
              ** now intros a' [= <-].
              ** intros y c [<-|Hy] Hs; [congruence | eauto].
           ++ split; [discriminate|].
              intros y c [<-|Hy] Hs; [congruence | eauto].
        -- intros [Ha Hl]. split.
           ++ intros a' [= <-]. destruct acc as [a|]; cbn [_and].
              ** apply mask_and_nth. split; [now apply Ha|].
                 apply (Hl x); [now left | exact Ex].
              ** apply (Hl x); [now left | exact Ex].
           ++ intros y c Hy. apply Hl. now right.
      * split.
        -- intros [Ha Hl]. split; [exact Ha|].
           intros y c [<-|Hy] Hs; [congruence | eauto].
        -- intros [Ha Hl]. split; [exact Ha|].
           intros y c Hy. apply Hl. now right.
    + destruct IH as [Hacc Hl]. rewrite Hstep in Hacc.
      destruct (step None x) as [cur|] eqn:Ex; [discriminate|].
      split; [exact Hacc|]. intros y [<-|Hy]; [exact Ex | now apply Hl].
Qed.

Lemma equality_clause_step (df : DataFrame) (acc : option mask) (g : list string) :
  equality_clause df acc g =
  match equality_clause df None g with
  | Some cur => Some (_and acc cur)
  | None => acc
  end.
Proof.
  unfold equality_clause.
  destruct g as [|col [|q0 [|val [|]]]]; try reflexivity.
  destruct (get_column df col); reflexivity.
Qed.

Lemma numeric_clause_step (df : DataFrame) (acc : option mask) (g : list string) :
  numeric_clause df acc g =
  match numeric_clause df None g with
  | Some cur => Some (_and acc cur)
  | None => acc
  end.
Proof.
  unfold numeric_clause.
  destruct g as [|col [|op [|val [|]]]]; try reflexivity.
  destruct (get_column df col); reflexivity.
Qed.

Lemma str_clause_step (df : DataFrame) (acc : option mask) (mt : Re.rmatch) :
  str_clause df acc mt =
  match str_clause df None mt with
  | Some cur => Some (_and acc cur)
  | None => acc
  end.
Proof.
  unfold str_clause. cbv zeta.
  destruct (get_column df _); [|reflexivity].
  match goal with |- context [if ?c then _ else _] => destruct c end.
  - destruct (str_regex_op _ _ _ _ _); reflexivity.
  - reflexivity.
Qed.

(** X24.  [_mask_from_clauses] returns the conjunction of the clauses it
    recognizes: a row is selected exactly when each equality, each numeric
    comparison and each [.str] test on a known column, evaluated alone,
    selects it; and the result is [None] exactly when no clause is
    recognized (a clause on an unknown column, and a [.str] test whose
    pattern does not compile, are skipped). *)
Theorem clause_mask_is_conjunction (df : DataFrame) (q : string) :
  match _mask_from_clauses df q with
  | None =>
      (forall g, In g (Re.findall rx_equality q) -> equality_clause df None g = None) /\
      (forall g, In g (Re.findall rx_numeric q) -> numeric_clause df None g = None) /\
      (forall mt, In mt (Re.finditer str_op_pat q) -> str_clause df None mt = None)
  | Some mk =>
      forall i,
        nth_error mk i = Some true <->
        (forall g cur, In g (Re.findall rx_equality q) ->
                       equality_clause df None g = Some cur ->
                       nth_error cur i = Some true) /\
        (forall g cur, In g (Re.findall rx_numeric q) ->
                       numeric_clause df None g = Some cur ->
                       nth_error cur i = Some true) /\
        (forall mt cur, In mt (Re.finditer str_op_pat q) ->
                        str_clause df None mt = Some cur ->
                        nth_error cur i = Some true)
  end.
Proof.
  unfold _mask_from_clauses. cbv zeta.
  pose proof (fold_and_spec (equality_clause df) (Re.findall rx_equality q)
                (equality_clause_step df) None) as H1.
  destruct (fold_left (equality_clause df) (Re.findall rx_equality q) None) as [m1|].
  - pose proof (fold_and_spec (numeric_clause df) (Re.findall rx_numeric q)
                  (numeric_clause_step df) (Some m1)) as H2.
    destruct (fold_left (numeric_clause df) (Re.findall rx_numeric q) (Some m1)) as [m2|];
      [|destruct H2; discriminate].
    pose proof (fold_and_spec (str_clause df) (Re.finditer str_op_pat q)
                  (str_clause_step df) (Some m2)) as H3.
    destruct (fold_left (str_clause df) (Re.finditer str_op_pat q) (Some m2)) as [m3|];
      [|destruct H3; discriminate].
    intro i. rewrite (H3 i). split.
    + intros [Ha Hs]. specialize (Ha _ eq_refl). apply H2 in Ha.
      destruct Ha as [Ha Hn]. specialize (Ha _ eq_refl). apply H1 in Ha.
      destruct Ha as [_ He]. auto.
    + intros (He & Hn & Hs). split; [|exact Hs].
      intros a [= <-]. apply H2. split; [|exact Hn].
      intros a [= <-]. apply H1. split; [discriminate | exact He].
  - destruct H1 as [_ He].
    pose proof (fold_and_spec (numeric_clause df) (Re.findall rx_numeric q)
                  (numeric_clause_step df) None) as H2.
    destruct (fold_left (numeric_clause df) (Re.findall rx_numeric q) None) as [m2|].
    + pose proof (fold_and_spec (str_clause df) (Re.finditer str_op_pat q)
                    (str_clause_step df) (Some m2)) as H3.
      destruct (fold_left (str_clause df) (Re.finditer str_op_pat q) (Some m2)) as [m3|];
        [|destruct H3; discriminate].
      intro i. rewrite (H3 i). split.
      * intros [Ha Hs]. specialize (Ha _ eq_refl). apply H2 in Ha.
        destruct Ha as [_ Hn]. split; [|auto].
        intros g cur Hg Hc. rewrite (He g Hg) in Hc. discriminate.
      * intros (_ & Hn & Hs). split; [|exact Hs].
        intros a [= <-]. apply H2. split; [discriminate | exact Hn].
    + destruct H2 as [_ Hn].
      pose proof (fold_and_spec (str_clause df) (Re.finditer str_op_pat q)
                    (str_clause_step df) None) as H3.
      destruct (fold_left (str_clause df) (Re.finditer str_op_pat q) None) as [m3|].
      * intro i. rewrite (H3 i). split.
        -- intros [_ Hs]. split; [|split; [|exact Hs]].
           ++ intros g cur Hg Hc. rewrite (He g Hg) in Hc. discriminate.
           ++ intros g cur Hg Hc. rewrite (Hn g Hg) in Hc. discriminate.
        -- intros (_ & _ & Hs). split; [discriminate | exact Hs].
      * destruct H3 as [_ Hs]. auto.
Qed.

(** A pattern that begins with a literal character finds nothing in a
    text without that character. *)
Lemma literal_head_search (rx : Re.regex) (x : ascii) (n : Re.node)
    (r b : list ascii) (ma : bool) :
  Re.re_node rx = Re.NCat (Re.NLit x) n ->
  Forall (fun c => Re.char_eq (Re.f_i (Re.re_flags rx)) x c = false) r ->
  Re.search_from rx b r ma = None.
Proof.
  intros Hn Hr. revert b ma. induction Hr as [|c r Hc Hr IH]; intros b ma.
  - cbn [Re.search_from]. unfold Re.match_here. rewrite Hn. reflexivity.
  - cbn [Re.search_from]. unfold Re.match_here at 1. rewrite Hn.
    cbn [Re.m Re.rest]. rewrite Hc. apply IH.
Qed.

Lemma literal_head_finditer (rx : Re.regex) (x : ascii) (n : Re.node) (text : string) :
  Re.re_node rx = Re.NCat (Re.NLit x) n ->
  Forall (fun c => Re.char_eq (Re.f_i (Re.re_flags rx)) x c = false) (chars text) ->
  Re.finditer rx text = [].
Proof.
  intros Hn Hr. unfold Re.finditer.
  replace (2 * String.length text + 2) with (S (2 * String.length text + 1)) by lia.
  cbn [Re.finditer_from]. now rewrite (literal_head_search rx x n).
Qed.

Lemma no_backtick (ic : bool) (text : string) :
  char_in "`" text = false ->
  Forall (fun c => Re.char_eq ic "`" c = false) (chars text).
Proof.
  unfold char_in. intro H. apply Forall_forall. intros c Hc.
  assert (E : Ascii.eqb "`" c = false).
  { destruct (Ascii.eqb "`" c) eqn:E; [|reflexivity].
    rewrite <- H. symmetry. apply existsb_exists. now exists c. }
  unfold Re.char_eq. destruct ic; [|exact E].
  revert E. destruct c as [[] [] [] [] [] [] [] []]; vm_compute; congruence.
Qed.

(** X25.  A filter without a back-tick holds no clause the parsers of the
    executor recognize: [_mask_from_clauses] returns [None],
    [_has_string_equality] is false, and no display regex and no column
    is derived from it. *)
Theorem clauses_need_backticks (df : DataFrame) (q : string) :
  char_in "`" q = false ->
  _mask_from_clauses df q = None /\
  _has_string_equality q = false /\
  _display_regex_and_columns_from_row_filter (Some q) = (None, []).
Proof.
  intro H.
  assert (F1 : Re.finditer rx_equality q = [])
    by (eapply literal_head_finditer; [reflexivity | now apply no_backtick]).
  assert (F2 : Re.finditer rx_numeric q = [])
    by (eapply literal_head_finditer; [reflexivity | now apply no_backtick]).
  assert (F3 : Re.finditer str_op_pat q = [])
    by (eapply literal_head_finditer; [reflexivity | now apply no_backtick]).
  assert (F4 : Re.finditer rx_display_str_op q = [])
    by (eapply literal_head_finditer; [reflexivity | now apply no_backtick]).
  assert (F5 : Re.finditer rx_display_numeric q = [])
    by (eapply literal_head_finditer; [reflexivity | now apply no_backtick]).
  split; [|split].
  - unfold _mask_from_clauses, Re.findall. now rewrite F1, F2, F3.
  - unfold _has_string_equality, Re.search.
    now rewrite (literal_head_search rx_has_equality "`" _ (chars q) [] false eq_refl
                   (no_backtick _ q H)).
  - unfold _display_regex_and_columns_from_row_filter, Re.findall.
    rewrite F1, F4, F5. now destruct (is_empty q).
Qed.

End ClauseFacts.

Section ClauseWitness.
Import RegexExecutor.

Lemma clauses_need_backticks_witness :
  char_in "`" "City == 'Oslo'" = false /\
  @_mask_from_clauses text_only notes "City == 'Oslo'" = None /\
  _has_string_equality "City == 'Oslo'" = false /\
  _display_regex_and_columns_from_row_filter (Some "City == 'Oslo'") = (None, []).
Proof.
  split; [reflexivity|].
  apply (@clauses_need_backticks text_only notes "City == 'Oslo'"). reflexivity.
Defined.

End ClauseWitness.

(** ** The row-filter normalizer returns *)

Section NormalizerTotal.
Import RegexExecutor.

Lemma plain_char_tests (c : ascii) :
  Re.is_special c = false ->
  Ascii.eqb c "|" = false /\ Ascii.eqb c ")" = false /\ Ascii.eqb c "\" = false /\
  Ascii.eqb c "[" = false /\ Ascii.eqb c "?" = false /\ Ascii.eqb c "*" = false /\
  Ascii.eqb c "+" = false /\ Ascii.eqb c "{" = false /\ Ascii.eqb c "." = false /\
  Ascii.eqb c "^" = false /\ Ascii.eqb c "$" = false /\ Ascii.eqb c "(" = false.
Proof.
  destruct c as [[] [] [] [] [] [] [] []]; vm_compute; intro Hc;
    first [discriminate Hc | repeat split].
Qed.

Lemma special_chars (c : ascii) : Re.is_special c = true -> In c specials.
Proof.
  destruct c as [[] [] [] [] [] [] [] []]; vm_compute; intro Hc;
    first [discriminate Hc | tauto].
Qed.

(** A character [re.escape] leaves alone is a literal of the pattern. *)
Lemma parse_seq_plain_char (f : nat) (ps : Re.pstate) (c : ascii)
    (tl : list ascii) (acc : list Re.node) :
  Re.ps_verbose ps = false -> Re.is_special c = false ->
  Re.parse_seq (S f) ps (c :: tl) acc = Re.parse_seq f ps tl (Re.NLit c :: acc).
Proof.
  intros Hv Hc.
  destruct (plain_char_tests c Hc)
    as (E1 & E2 & E3 & E4 & E5 & E6 & E7 & E8 & E9 & E10 & E11 & E12).
  cbn [Re.parse_seq]. rewrite Hv, E1, E2, E3, E4, E5, E6, E7, E8, E9, E10, E11, E12.
  reflexivity.
Qed.

(** A character [re.escape] protects is, after its backslash, a literal
    of the pattern. *)
Lemma parse_seq_escaped_char (f : nat) (ps : Re.pstate) (c : ascii)
    (tl : list ascii) (acc : list Re.node) :
  Re.ps_verbose ps = false -> Re.is_special c = true ->
  Re.parse_seq (S f) ps ("\"%char :: c :: tl) acc =
  Re.parse_seq f ps tl (Re.NLit c :: acc).
Proof.
  intros Hv Hc.
  assert (E : Re.parse_escape ps (c :: tl) = Some (Re.NLit c, tl)).
  { apply special_chars in Hc. unfold specials in Hc.
    repeat (destruct Hc as [<-|Hc]; [reflexivity|]). destruct Hc. }
  cbn [Re.parse_seq]. rewrite Hv. cbn [andb].
  change (Ascii.eqb "\" "|" || Ascii.eqb "\" ")") with false.
  change (Ascii.eqb "\" "\") with true.
  cbv iota. now rewrite E.
Qed.

(** The characters of [re.escape]. *)
Lemma escape_chars (col : string) :
  chars (Re.escape col) =
  flat_map (fun c => if Re.is_special c then ["\"%char; c] else [c]) (chars col).
Proof. unfold Re.escape. apply chars_str. Qed.

(** An escaped text is parsed as the literals of the text, one turn of
    the parser for each character. *)
Lemma parse_seq_escaped (col : list ascii) :
  forall (f : nat) (ps : Re.pstate) (rest : list ascii) (acc : list Re.node),
    Re.ps_verbose ps = false ->
    Re.parse_seq (List.length col + f) ps
      (flat_map (fun c => if Re.is_special c then ["\"%char; c] else [c]) col ++ rest)
      acc =
    Re.parse_seq f ps rest (rev (map Re.NLit col) ++ acc).
Proof.
  induction col as [|c col IH]; intros f ps rest acc Hv; [reflexivity|].
  cbn [List.length Nat.add flat_map map rev].
  rewrite <- (app_assoc _ _ rest), <- (app_assoc _ _ acc). cbn [app].
  destruct (Re.is_special c) eqn:Ec.
  - cbn [app]. rewrite parse_seq_escaped_char by assumption. now rewrite IH.
  - cbn [app]. rewrite parse_seq_plain_char by assumption. now rewrite IH.
Qed.

Lemma escape_length (col : list ascii) :
  List.length col <=
  List.length (flat_map (fun c => if Re.is_special c then ["\"%char; c] else [c]) col).
Proof.
  induction col as [|c col IH]; [reflexivity|].
  cbn [flat_map List.length]. rewrite length_app.
  destruct (Re.is_special c); cbn [List.length]; lia.
Qed.

(** The turns of the parser on the fixed parts of the two patterns. *)
Lemma leading_flags_none (f : nat) (tl : list ascii) :
  Re.leading_flags f ("("%char :: "?"%char :: "<"%char :: tl) =
  (0%Z, "("%char :: "?"%char :: "<"%char :: tl).
Proof.
  destruct f as [|f]; [reflexivity|].
  cbn [Re.leading_flags Re.get_until].
  change (Ascii.eqb "<" ")") with false. cbv iota.
  destruct (Re.get_until ")" tl) as [[a b]|]; reflexivity.
Qed.

Lemma parse_seq_end (f : nat) (ps : Re.pstate) (acc : list Re.node) :
  Re.parse_seq (S f) ps [] acc = Some (Re.seq_of (rev acc), ps, []).
Proof. reflexivity. Qed.

Lemma parse_seq_look (f : nat) (ps ps1 : Re.pstate) (behind neg : bool)
    (tl1 tl2 : list ascii) (acc : list Re.node) (a : Re.node) :
  Re.ps_verbose ps = false ->
  Re.parse_sub f ps tl1 = Some (a, ps1, ")"%char :: tl2) ->
  (behind = true -> Re.width a <> None) ->
  Re.parse_seq (S f) ps
    ("("%char :: "?"%char ::
     (if behind then ["<"%char] else []) ++ (if neg then "!"%char else "="%char) :: tl1)
    acc =
  Re.parse_seq f ps1 tl2 (Re.NLook (negb behind) neg a :: acc).
Proof.
  intros Hv Hp Hw.
  destruct behind, neg; cbn [app]; cbn [Re.parse_seq]; rewrite Hv; cbn;
    rewrite Hp; try reflexivity;
    (destruct (Re.width a); [reflexivity | now elim Hw]).
Qed.

Lemma parse_seq_group (f : nat) (ps ps2 : Re.pstate)
    (tl tl2 : list ascii) (acc : list Re.node) (a : Re.node) :
  Re.ps_verbose ps = false ->
  Re.parse_sub f
    (Re.PState (S (Re.ps_next ps)) (Re.ps_names ps) (Re.ps_next ps :: Re.ps_open ps)
       (Re.ps_verbose ps)) ("["%char :: tl) = Some (a, ps2, ")"%char :: tl2) ->
  Re.parse_seq (S f) ps ("("%char :: "["%char :: tl) acc =
  Re.parse_seq f
    (Re.PState (Re.ps_next ps2) (Re.ps_names ps2)
       (remove Nat.eq_dec (Re.ps_next ps) (Re.ps_open ps2)) (Re.ps_verbose ps2))
    tl2 (Re.NGroup (Re.ps_next ps) a :: acc).
Proof.
  intros Hv Hp. cbn [Re.parse_seq]. rewrite Hv.
  cbn -[Re.parse_sub Re.parse_seq remove]. rewrite Hv in Hp. now rewrite Hp.
Qed.

Lemma parse_seq_backref (f : nat) (ps : Re.pstate) (tl : list ascii)
    (acc : list Re.node) :
  Re.ps_verbose ps = false -> Re.ps_next ps = 2 -> Re.ps_open ps = [] ->
  Re.parse_seq (S f) ps ("\"%char :: "1"%char :: "("%char :: tl) acc =
  Re.parse_seq f ps ("("%char :: tl) (Re.NRef 1 :: acc).
Proof.
  intros Hv Hn Ho. cbn [Re.parse_seq]. rewrite Hv.
  cbn -[Re.parse_sub Re.parse_seq]. rewrite Hn, Ho. reflexivity.
Qed.

(** The groups of the two patterns. *)
Lemma parse_backtick (f : nat) (ps : Re.pstate) (tl : list ascii) :
  Re.ps_verbose ps = false ->
  Re.parse_sub (S (S (S f))) ps ("`"%char :: ")"%char :: tl) =
  Some (Re.NLit "`", ps, ")"%char :: tl).
Proof. intro Hv. cbn [Re.parse_sub Re.parse_seq]. rewrite Hv. reflexivity. Qed.

Lemma parse_quotes (f : nat) (ps : Re.pstate) (tl : list ascii) :
  Re.ps_verbose ps = false ->
  Re.parse_sub (S (S (S f))) ps
    ("["%char :: dquote :: "'"%char :: "]"%char :: ")"%char :: tl) =
  Some (Re.NIn false [Re.CChar dquote; Re.CChar "'"], ps, ")"%char :: tl).
Proof. intro Hv. cbn [Re.parse_sub Re.parse_seq]. rewrite Hv. reflexivity. Qed.

Lemma parse_not_name (f : nat) (ps : Re.pstate) (tl : list ascii) :
  Re.ps_verbose ps = false ->
  Re.parse_sub (S (S (S f))) ps
    ("["%char :: "`"%char :: dquote :: "\"%char :: "w"%char :: "]"%char :: ")"%char :: tl) =
  Some (Re.NIn false [Re.CChar "`"; Re.CChar dquote; Re.CCat false Re.Word], ps,
        ")"%char :: tl).
Proof. intro Hv. cbn [Re.parse_sub Re.parse_seq]. rewrite Hv. reflexivity. Qed.

Lemma parse_sub_of_seq (f : nat) (ps ps1 : Re.pstate) (inp : list ascii)
    (a : Re.node) :
  Re.parse_seq f ps inp [] = Some (a, ps1, []) ->
  Re.parse_sub (S f) ps inp = Some (a, ps1, []).
Proof. intro H. cbn [Re.parse_sub]. now rewrite H. Qed.

Lemma quoted_pattern_compiles (col : string) :
  exists rx, Re.compile (quoted_column_pattern col) 0 = Some rx.
Proof.
  unfold Re.compile, quoted_column_pattern.
  rewrite !chars_append, escape_chars.
  pose proof (escape_length (chars col)) as Hlen.
  pose proof (parse_seq_escaped (chars col)) as Hesc.
  set (E := flat_map _ (chars col)) in *. clearbody E.
  set (n := List.length (chars col)) in *. clearbody n.
  cbn [chars list_ascii_of_string dq app].
  rewrite leading_flags_none.
  change (Z.testbit (Z.lor 0 0) 6) with false.
  match goal with
  | |- context [Re.parse_sub ?F _ _] =>
      replace F with (6 + (n + (6 + (3 * List.length E - n + 53))))
        by (cbn [List.length]; rewrite length_app; cbn [List.length]; lia)
  end.
  set (x := 3 * List.length E - n + 53). clearbody x.
  rewrite (Nat.add_comm n (6 + x)). cbn [Nat.add].
  erewrite parse_sub_of_seq; [eexists; reflexivity|].
  eapply eq_trans.
  { eapply (parse_seq_look _ _ _ true true);
      [reflexivity | apply parse_backtick; reflexivity | discriminate]. }
  eapply eq_trans.
  { eapply parse_seq_group; [reflexivity | apply parse_quotes; reflexivity]. }
  cbn [Re.ps_next Re.ps_names Re.ps_open Re.ps_verbose remove negb].
  destruct (Nat.eq_dec 1 1) as [_|Hne]; [|now elim Hne].
  replace (S (S (S (S (S (S (S (S (S (x + n)))))))))) with (n + (9 + x)) by lia.
  rewrite Hesc by reflexivity. cbn [Nat.add].
  eapply eq_trans.
  { apply parse_seq_backref; reflexivity. }
  eapply eq_trans.
  { eapply (parse_seq_look _ _ _ false true);
      [reflexivity | apply parse_backtick; reflexivity | discriminate]. }
  apply parse_seq_end.
Qed.

(** What may follow a bare column name. *)
Lemma parse_follow_set :
  exists a, forall f,
    Re.parse_sub (60 + f) (Re.PState 1 [] [] false)
      (chars "\s*(?:\.str\b|\.astype\b|\.isin\b|\)|\]|\b(?:in|not\s+in)\b|==|!=|>=|<=|>|<))")
    = Some (a, Re.PState 1 [] [] false, [")"%char]).
Proof. eexists. intro f. lazy. reflexivity. Qed.

Lemma bare_pattern_compiles (col : string) :
  exists rx, Re.compile (bare_column_pattern col) 0 = Some rx.
Proof.
  unfold Re.compile, bare_column_pattern.
  rewrite !chars_append, escape_chars.
  pose proof (escape_length (chars col)) as Hlen.
  pose proof (parse_seq_escaped (chars col)) as Hesc.
  set (E := flat_map _ (chars col)) in *. clearbody E.
  set (n := List.length (chars col)) in *. clearbody n.
  destruct parse_follow_set as [a Ha].
  set (follow := chars "\s*(?:\.str\b|\.astype\b|\.isin\b|\)|\]|\b(?:in|not\s+in)\b|==|!=|>=|<=|>|<))") in *.
  change (chars "(?=\s*(?:\.str\b|\.astype\b|\.isin\b|\)|\]|\b(?:in|not\s+in)\b|==|!=|>=|<=|>|<))")
    with ("("%char :: "?"%char :: "="%char :: follow).
  assert (Hf : List.length follow = 77) by reflexivity.
  clearbody follow.
  cbn [chars list_ascii_of_string dq app].
  rewrite leading_flags_none.
  change (Z.testbit (Z.lor 0 0) 6) with false.
  match goal with
  | |- context [Re.parse_sub ?F _ _] =>
      replace F with (6 + (n + (70 + (3 * List.length E - n + 205))))
        by (cbn [List.length]; rewrite length_app; cbn [List.length]; lia)
  end.
  set (x := 3 * List.length E - n + 205). clearbody x.
  rewrite (Nat.add_comm n (70 + x)). cbn [Nat.add].
  erewrite parse_sub_of_seq; [eexists; reflexivity|].
  eapply eq_trans.
  { eapply (parse_seq_look _ _ _ true true);
      [reflexivity | apply parse_not_name; reflexivity | discriminate]. }
  match goal with
  | |- Re.parse_seq ?F _ _ _ = _ => replace F with (n + (74 + x)) by lia
  end.
  rewrite Hesc by reflexivity.
  eapply eq_trans.
  { eapply (parse_seq_look (73 + x) _ _ false false);
      [reflexivity | exact (Ha (13 + x)) | discriminate]. }
  apply (parse_seq_end (72 + x)).
Qed.

Lemma backticked_plain (col : string) :
  char_in "\" col = false -> plain (chars (backticked col)).
Proof.
  unfold char_in, backticked, plain. intros H Hin.
  rewrite !chars_append in Hin. cbn [chars list_ascii_of_string app] in Hin.
  destruct Hin as [E|Hin]; [discriminate E|].
  apply in_app_or in Hin. destruct Hin as [Hin|[E|[]]]; [|discriminate E].
  assert (existsb (Ascii.eqb "\") (chars col) = true); [|congruence].
  apply existsb_exists. exists "\"%char. split; [exact Hin | reflexivity].
Qed.

Lemma re_sub_returns (pat : string -> string) (col q : string) :
  (exists rx, Re.compile (pat col) 0 = Some rx) ->
  char_in "\" col = false ->
  exists q', re_sub (pat col) (backticked col) q = Ok q'.
Proof.
  intros [rx Hrx] Hc. unfold re_sub. rewrite Hrx.
  destruct (sub_plain_returns rx (backticked col) q (backticked_plain col Hc)) as [t Ht].
  rewrite Ht. eauto.
Qed.

Lemma fold_subs_returns (pat : string -> string) (cols : list string) :
  (forall col, exists rx, Re.compile (pat col) 0 = Some rx) ->
  (forall col, In col cols -> char_in "\" col = false) ->
  forall q, exists q', fold_subs pat cols q = Ok q'.
Proof.
  intros Hpat. induction cols as [|col cols IH]; intros Hc q; [eexists; reflexivity|].
  cbn [fold_subs].
  destruct (re_sub_returns pat col q (Hpat col) (Hc col (or_introl eq_refl))) as [q1 H1].
  rewrite H1. cbn [bind]. apply IH. intros c Hin. apply Hc. now right.
Qed.

Lemma insert_by_length_in (h : string) (l : list string) (c : string) :
  In c (insert_by_length h l) -> c = h \/ In c l.
Proof.
  induction l as [|x l IH]; cbn [insert_by_length].
  - intros [<-|[]]. now left.
  - destruct (String.length x <=? String.length h).
    + intros [<-|H]; [now left | now right].
    + intros [<-|H]; [right; now left|].
      destruct (IH H) as [->|Hin]; [now left | right; now right].
Qed.

Lemma longest_first_in (hs : list string) (c : string) :
  In c (longest_first hs) -> In c hs.
Proof.
  unfold longest_first. induction hs as [|h hs IH]; cbn [fold_right]; [tauto|].
  intro H. destruct (insert_by_length_in _ _ _ H) as [->|Hin];
    [now left | right; now apply IH].
Qed.

(** X26.  On a frame none of whose column names holds a backslash, the
    normalization of a row filter returns for every filter, and so does
    the interpreter of row filters: [_ensure_mask_from_query] raises
    nothing, whatever the filter and whatever the query engine does. *)
Theorem filter_interpreter_returns {Sc : Scalars} {Q : QueryEngine}
    (df : DataFrame) (query : string) :
  (forall h, In h (headers df) -> char_in "\" h = false) ->
  (exists norm, _normalize_row_filter query (headers df) = Ok norm) /\
  (forall rf, exists mk, _ensure_mask_from_query df rf = Ok mk).
Proof.
  intro Hh.
  assert (Hn : forall q, exists norm, _normalize_row_filter q (headers df) = Ok norm).
  { intro q. unfold _normalize_row_filter.
    destruct (is_empty q); [eexists; reflexivity|].
    assert (Hl : forall col, In col (longest_first (headers df)) ->
                             char_in "\" col = false).
    { intros col Hin. apply Hh. now apply longest_first_in. }
    destruct (fold_subs_returns quoted_column_pattern _ quoted_pattern_compiles Hl q)
      as [q1 H1].
    rewrite H1. cbn [bind].
    destruct (fold_subs_returns bare_column_pattern _ bare_pattern_compiles Hl q1)
      as [q2 H2].
    rewrite H2. cbn [bind]. eexists. reflexivity. }
  split; [apply Hn|].
  intros [rf|]; [|eexists; reflexivity].
  destruct (Hn rf) as [norm Hnorm]. exact (ensure_mask_returns df rf norm Hnorm).
Qed.

End NormalizerTotal.

Section NormalizerWitness.
Import RegexExecutor.

Lemma filter_interpreter_returns_witness :
  (forall h, In h (@headers text_only notes) -> char_in "\" h = false) /\
  (exists norm, _normalize_row_filter "City == 'Oslo'" (@headers text_only notes) = Ok norm) /\
  (forall rf, exists mk, @_ensure_mask_from_query text_only no_engine notes rf = Ok mk).
Proof.
  assert (H : forall h, In h (@headers text_only notes) -> char_in "\" h = false).
  { intros h [<-|[<-|[]]]; reflexivity. }
  split; [exact H|].
  exact (@filter_interpreter_returns text_only no_engine notes "City == 'Oslo'" H).
Defined.

End NormalizerWitness.

(** ** The OR-groups of a filter whose names hold [or] *)

Section OrSplitClaims.
Import RegexExecutor.

Lemma two_parts_mask {Sc : Scalars} {Q : QueryEngine} (df : DataFrame)
    (norm p1 p2 : string) :
  _split_top_level norm = [p1; p2] ->
  _remove_rownum_clauses p1 = (p1, []) -> _remove_rownum_clauses p2 = (p2, []) ->
  _mask_from_query_with_rownum df norm =
  mask_or (fst (fst (_eval_basic_query df (or_else (strip p1) "True"))))
          (fst (fst (_eval_basic_query df (or_else (strip p2) "True")))).
Proof.
  intros Hs H1 H2. unfold _mask_from_query_with_rownum. rewrite Hs.
  cbn [union_groups].
  rewrite (mask_group_without_rownum df p1 p1 H1).
  now rewrite (mask_group_without_rownum df p2 p2 H2).
Qed.

(** C4.  The mask of a row filter is not always the union of the masks of
    its top-level OR-groups: [_split_top_level] tries the word [or] on the
    rest of the text, where a word boundary always holds in front of it,
    so it cuts inside a name that ends in [or].  The filter
    [`Color` == 'red'], which is one group, is cut into [`Col] and
    [` == 'red']; for every engine its mask is the union of the masks of
    these two fragments; and on the frame [colors], where the group
    evaluated on its own selects the first row only, the mask of the
    filter selects every row, also after the soft-recall pass.  What does
    hold: the mask is the union, row by row, of the masks of the parts the
    splitter returns, and for [`Country` == 'US' or __rownum__ == 1] these
    are the two groups of the filter. *)
Theorem or_split_cuts_inside_names :
  _split_top_level "`Color` == 'red'" = ["`Col"; "` == 'red'"] /\
  (forall (Sc : Scalars) (Q : QueryEngine) (df : DataFrame),
     _mask_from_query_with_rownum df "`Color` == 'red'" =
     mask_or (fst (fst (_eval_basic_query df "`Col")))
             (fst (fst (_eval_basic_query df "` == 'red'")))) /\
  fst (_mask_group_with_rownum colors "`Color` == 'red'") = [true; false; false] /\
  _mask_from_query_with_rownum colors "`Color` == 'red'" = [true; true; true] /\
  _ensure_mask_from_query colors (Some "`Color` == 'red'") = Ok [true; true; true] /\
  (forall (Sc : Scalars) (Q : QueryEngine) (df : DataFrame) (norm : string),
     well_formed df ->
     forall i,
       nth i (_mask_from_query_with_rownum df norm) false =
       existsb (fun mk => nth i mk false) (group_masks df (or_groups norm))) /\
  (forall (Sc : Scalars) (Q : QueryEngine) (df : DataFrame),
     well_formed df ->
     _mask_from_query_with_rownum df "`Country` == 'US' or __rownum__ == 1" =
     mask_or (fst (fst (_eval_basic_query df "`Country` == 'US'")))
             (picked_mask df (pick (seq 0 (df_len df)) [1]))).
Proof.
  split; [vm_compute; reflexivity|].
  split.
  { intros Sc Q df.
    apply (two_parts_mask df "`Color` == 'red'" "`Col" "` == 'red'");
      vm_compute; reflexivity. }
  split; [vm_compute; reflexivity|].
  split; [vm_compute; reflexivity|].
  split; [vm_compute; reflexivity|].
  split.
  - intros Sc Q df norm Hwf.
    exact (proj1 (proj2 (proj2 (or_groups_are_unioned df norm Hwf)))).
  - intros Sc Q df Hwf.
    destruct (or_groups_are_unioned df EmptyString Hwf) as (_ & _ & _ & _ & _ & H).
    exact (proj1 (H df Hwf)).
Qed.

End OrSplitClaims.

(** ** The zero-hit fallback compares case-folded text *)

Section ZeroHitEquality.
Import RegexExecutor.
Context {Sc : Scalars} {Q : QueryEngine}.

(** A row the clause matcher selects is selected by each of its
    equalities. *)
Lemma clauses_select_equalities (df : DataFrame) (q : string) (mk : mask) (i : nat) :
  _mask_from_clauses df q = Some mk -> nth_error mk i = Some true ->
  forall g cur, In g (Re.findall rx_equality q) ->
    equality_clause df None g = Some cur -> nth_error cur i = Some true.
Proof.
  unfold _mask_from_clauses. cbv zeta. intros Hmk Hi.
  pose proof (fold_and_spec (equality_clause df) (Re.findall rx_equality q)
                (equality_clause_step df) None) as H1.
  destruct (fold_left (equality_clause df) (Re.findall rx_equality q) None) as [m1|].
  - pose proof (fold_and_spec (numeric_clause df) (Re.findall rx_numeric q)
                  (numeric_clause_step df) (Some m1)) as H2.
    destruct (fold_left (numeric_clause df) (Re.findall rx_numeric q) (Some m1)) as [m2|];
      [|destruct H2; discriminate].
    pose proof (fold_and_spec (str_clause df) (Re.finditer str_op_pat q)
                  (str_clause_step df) (Some m2)) as H3.
    rewrite Hmk in H3. apply H3 in Hi. destruct Hi as [Ha _].
    specialize (Ha _ eq_refl). apply H2 in Ha. destruct Ha as [Ha _].
    specialize (Ha _ eq_refl). apply H1 in Ha. destruct Ha as [_ He].
    exact He.
  - destruct H1 as [_ He]. intros g cur Hg Hc. rewrite (He g Hg) in Hc. discriminate.
Qed.

Lemma eq_casefold_nth (val : string) (cells : list cell) (i : nat) :
  nth_error (eq_casefold val (_to_string cells)) i = Some true ->
  exists x t, nth_error cells i = Some x /\ text_of x = Some t /\
              casefold t = casefold val.
Proof.
  unfold eq_casefold, _to_string. rewrite map_map, nth_error_map.
  destruct (nth_error cells i) as [x|]; [|discriminate].
  cbn [option_map]. destruct (text_of x) as [t|] eqn:Et; [|discriminate].
  intros [= E]. apply String.eqb_eq in E. eauto.
Qed.

(** C6.  Let the filter hold an equality with a quoted literal.  When the
    strict evaluation of the first tier, or that of the second tier after
    the first has failed, succeeds and selects no row, the interpreter
    runs the clause matcher and returns its mask whenever it produces one.
    The equalities of the clause matcher compare case-folded text: a row
    of its mask holds, in the column of each equality, a text equal to
    the literal up to case, and for a filter that is one equality the mask
    is exactly the rows whose text equals the literal up to case.  In
    particular, on a frame whose [Name] column holds ["Alice"] in a row,
    the filter [`Name` == 'alice'] selects that row as soon as the strict
    engine finds no row for it, in [_eval_basic_query] and, when the
    normalization leaves the filter as it is written, in
    [_ensure_mask_from_query]. *)
Theorem zero_hit_equality_fallback (df : DataFrame) (q : string)
    (Heq : _has_string_equality q = true) :
  (forall idx,
      df_query df q = Ok idx -> mask_sum (isin df idx) = 0 ->
      fst (fst (_eval_basic_query df q)) =
      match _mask_from_clauses df q with
      | Some m_ci => m_ci
      | None => isin df idx
      end) /\
  (forall e idx,
      df_query df q = Raise e ->
      df_query df (rewrite_operators q) = Ok idx -> mask_sum (isin df idx) = 0 ->
      fst (fst (_eval_basic_query df q)) =
      match _mask_from_clauses df q with
      | Some m_ci => m_ci
      | None => isin df idx
      end) /\
  (forall m_ci i,
      _mask_from_clauses df q = Some m_ci -> nth_error m_ci i = Some true ->
      forall col quote val c,
        In [col; quote; val] (Re.findall rx_equality q) ->
        get_column df col = Some c ->
        exists x t, nth_error (col_cells c) i = Some x /\ text_of x = Some t /\
                    casefold t = casefold val) /\
  (forall col quote val c,
      Re.findall rx_equality q = [[col; quote; val]] ->
      Re.findall rx_numeric q = [] -> Re.finditer str_op_pat q = [] ->
      get_column df col = Some c ->
      _mask_from_clauses df q =
      Some (map (fun x => match text_of x with
                          | Some t => String.eqb (casefold t) (casefold val)
                          | None => false
                          end) (col_cells c))) /\
  (forall (df' : DataFrame) (col : column) (i : nat),
      get_column df' "Name" = Some col ->
      nth_error (col_cells col) i = Some (CStr "Alice") ->
      (forall idx, df_query df' "`Name` == 'alice'" = Ok idx ->
                   mask_sum (isin df' idx) = 0) ->
      nth i (fst (fst (_eval_basic_query df' "`Name` == 'alice'"))) false = true /\
      (_normalize_row_filter "`Name` == 'alice'" (headers df') = Ok "`Name` == 'alice'" ->
       exists mk, _ensure_mask_from_query df' (Some "`Name` == 'alice'") = Ok mk /\
                  nth i mk false = true)).
Proof.
  destruct (zero_hit_fallback_masks df q Heq) as (H1 & H2 & H3).
  split; [exact H1|]. split; [exact H2|]. split; [|split; [|exact H3]].
  - intros m_ci i Hm Hi col quote val c Hg Hc.
    apply eq_casefold_nth.
    apply (clauses_select_equalities df q m_ci i Hm Hi [col; quote; val]); [exact Hg|].
    cbn [equality_clause]. rewrite Hc. reflexivity.
  - intros col quote val c He Hn Hs Hc. unfold _mask_from_clauses.
    rewrite He, Hn, Hs. cbn [fold_left equality_clause]. rewrite Hc.
    cbn [_and]. unfold eq_casefold, _to_string. now rewrite map_map.
Qed.

End ZeroHitEquality.

Section ZeroHitWitness.
Import RegexExecutor.

Lemma zero_hit_equality_fallback_witness :
  _has_string_equality "`Name` == 'alice'" = true /\
  nth 0 (fst (fst (_eval_basic_query people "`Name` == 'alice'"))) false = true.
Proof.
  split; [reflexivity|].
  refine (proj1 (proj2 (proj2 (proj2 (proj2
            (zero_hit_equality_fallback people "`Name` == 'alice'" eq_refl))))
                   people _ 0 eq_refl eq_refl _)).
  intros idx E. vm_compute in E. inversion E. reflexivity.
Defined.

End ZeroHitWitness.

(** ** The cells a replace with [^.*$] leaves *)

Section MatchAllMisses.
Import RegexExecutor.

(** C1.  A replace with the pattern [^.*$] does not overwrite every cell
    of the given columns in the rows of the mask.  In every frame, for
    every engine, flags, columns and row filter, a null cell is null
    after the replace; and on the frame [people], with all rows selected,
    the replace of [^.*$] by [X] in the column [Name] leaves the null cell
    of row 2 and the two-line cell of row 3 as they are, while it
    overwrites the cell of row 0.  The other part of the claim holds: the
    regex of the replace is the supplied pattern, with source ["regex"],
    and the columns are the given ones, whatever the row filter lets
    derive for the display. *)
Theorem match_all_replace_leaves_cells :
  match @execute_plan integer_scalars equality_engine no_date_branch
          people "replace" "^.*$" "i" (Some ["Name"]) (Some "X") None 10 with
  | Ok (out, p) =>
      mask_row_indices p = [0; 1; 2; 3] /\
      option_map text_of (cell_at people 2 "Name") = Some None /\
      option_map text_of (cell_at out 2 "Name") = Some None /\
      option_map text_of (cell_at people 3 "Name")
        = Some (Some ("Car" ++ String newline "ol")) /\
      option_map text_of (cell_at out 3 "Name")
        = Some (Some ("Car" ++ String newline "ol")) /\
      option_map text_of (cell_at out 0 "Name") = Some (Some "X")
  | Raise _ => False
  end /\
  (forall (Sc : Scalars) (Q : QueryEngine) (D : DateBranch) (df out : DataFrame)
          (intent flags : string) (columns : option (list string))
          (replacement row_filter : option string) (head_n : nat) (p : payload),
     lower intent = "replace" ->
     is_date_sentinel (PlanV2.or_empty replacement) = false ->
     well_formed df ->
     execute_plan df intent "^.*$" flags columns replacement row_filter head_n
       = Ok (out, p) ->
     (forall c i, cell_at df i c = Some CNull -> cell_at out i c = Some CNull) /\
     regex p = "^.*$" /\ regex_source p = "regex" /\
     (forall cs, columns = Some cs -> cs <> [] -> columns_applied p = cs)).
Proof.
  split; [exact replace_match_all_skips_null_and_multiline_cells|].
  intros Sc Q D df out intent flags columns replacement row_filter head_n p
         Hint Hdate Hwf Hrun.
  assert (Hfind : String.eqb (lower intent) "find" = false) by now rewrite Hint.
  assert (Hd : String.eqb (lower intent) "replace"
               && is_date_sentinel (PlanV2.or_empty replacement) = false)
    by (rewrite Hdate; apply andb_false_r).
  destruct (plain_replace_inv _ _ _ _ _ _ _ _ _ _ Hfind Hd Hrun)
    as (mk & rx & acc & Hmk & _ & Hfold & -> & _ & Hrx & Hsrc & Hcols & _).
  pose proof (ensure_mask_length df row_filter mk Hwf Hmk) as Hlen.
  destruct (replace_fold_kept _ _ _ _ (ReplaceAcc df 0 [] []) acc Hwf Hlen Hfold)
    as [_ (_ & _ & Hkept)].
  split; [|split; [exact Hrx|split; [exact Hsrc|]]].
  - intros c i Hc. destruct (Hkept c i CNull Hc) as (y & Hy & _ & _ & Hnull).
    now rewrite Hy, (Hnull eq_refl).
  - intros cs -> Hne. rewrite Hcols. unfold _auto_columns.
    destruct cs; [contradiction | reflexivity].
Qed.

End MatchAllMisses.
